(* ===== verification/_CoqProject ===== *)
-Q . S2P
Prelude.v
Regex.v
Normalizer.v
Store.v
Query.v
Mutations.v
Paging.v
Commands.v
Legacy.v
Cli.v
Classes.v
Origin.v
LegacyCli.v
Send.v
Program.v
Versions.v
Scenarios.v
