(* ===== verification/Prelude.v ===== *)
(** * email-db: a verification development of the email directory tool

    The repository is a command-line tool (Flow-typed JavaScript) that
    keeps a directory of e-mail addresses in a JSON file
    ([data/db.json]): every address maps to a record holding a set of
    tags, an optional locale, a delivery status and the time of the
    last delivery.  The sources are five near-duplicate iterations of
    one script: [src/src/cli.js] (the first), the two scripts
    concatenated in [src/unnamed/part_000] (lines 1-519 and 520-755),
    [src/unnamed/part_002] and [src/unnamed/part_001] (the most
    evolved).  part_001 is modelled operation by operation and command
    by command, and its successive runs as a transition system; cli.js
    and the second script of part_000 are modelled whole; part_002 and
    the first script of part_000 are modelled through their classes
    (each a record of its own methods behind one interface with laws)
    and one definition per command action.

    ** How the program is put together (part_001)

    - [filterEmail] (l. 31-37) applies the regular expression
      [EmailRegex] (l. 14) to a line and returns the first match;
      [readEmailFile]/[saveEmailFile] (l. 39-63) read and write
      newline-separated address files.
    - class [EmailDB] (l. 65-300) owns [this.db], a JS object from
      address to record: [load]/[save] (l. 75-100) move it from/to the
      JSON file, [lookup] (l. 112-158) answers filtered queries,
      [allTags] and [emailToString] (l. 160-172, 283-299) report on it,
      [insert], [cleanup], [setStatus] and [setLastDelivered]
      (l. 181-281) mutate it.
    - [pageAll] (l. 447-471) drains a cursor-paginated listing of the
      mail provider into one array.
    - at start-up [db.load()] runs (l. 307), then one of the
      [program.command(...)] actions (l. 321-557), which applies one
      operation and, when it changes the directory, ends with
      [db.save()].

    ** Files of the development, in dependency order

    - [Prelude] (this file): the [result] error type and its monad
      notation in [emaildb_scope], JavaScript truthiness of strings
      and numbers, [first_some] (first success of a continuation over
      a list of candidates), [count_if], [fold_result] (a loop whose
      step may throw) with its induction principle, the hint databases [emaildb]
      and [emaildb_rw], and the tactics and list/map lemmas the other
      files share.
    - [Regex]: the ECMAScript backtracking matcher (RegExpBuiltinExec
      without flags, greedy quantifiers with RepeatMatcher's
      empty-iteration check) in continuation-passing style, a
      list-of-ends reference semantics, and [exec], the first match
      at the leftmost position ([String.prototype.match]).
    - [Normalizer]: [EmailRegex] as a regex term, [filterEmail],
      [guessEmailLocale], [split]/[join] on a one-character separator,
      [readEmailFile], [saveEmailFile], and the class [EmailFilter]:
      the normaliser interface the mutations are proved against, with
      its instance [filterEmail].
    - [Store]: [Status], [Record], the directory as [gmap string
      Record], parsed JSON values with [JSON.parse]'s duplicate keys,
      [JSON.stringify] of a record as the engine does it (a [Set] gives
      [{}]), [load] with the legacy flag migration and its error
      paths, [save] on an explicit two-file state (rename to [.tmp],
      then write, which succeeds, fails at the open and leaves no
      file, or fails part-way and leaves a truncated one:
      [write_outcome]), [totalEmails], [tags], [lookupByRegexp].
    - [Query]: [lookup], one definition per gate, and [admits], the
      abstract query of the specification.
    - [Mutations]: [insert] (per line, with its two counters),
      [setStatus], [setLastDelivered], [cleanup] over any for-in
      enumeration of the keys; a Section over an [EmailFilter].
    - [Paging]: [pageAll] as a fuelled loop over an explicit provider
      and the relation [chain] of providers whose cursors end.
    - [Commands]: [allTags] reading [result[tag]] through
      [Object.prototype], [emailToString], [makeFilename] with its
      date format, the commands as an inductive type, one definition
      per action ([insert_cmd] ... [find_emails_cmd], and [help_cmd]
      for an undeclared command), [handle] (commander's dispatch) and
      [run] (load, action, save) on a [world] of files and a clock,
      [update_delivered] and [download_broken] over [pageAll].
    - [Legacy]: records with [broken]/[clean] flags, the flag-based
      [lookup] of part_002 and part_000, both versions of
      [markAsBroken] and [markAsClean], and [migrate], what part_001's
      [load] makes of a legacy record.
    - [Cli]: cli.js: [insert], [cleanup], [allTags], [load], [save] and
      its four commands, with the relation [agrees] between a part_001
      and a cli.js directory.
    - [Classes]: the interface [EmailDB] (the methods the legacy
      commands call) with its laws [EmailDBLaws], and the classes of
      part_002 ([p2_db], l. 29-222) and of part_000's first script
      ([p0_db], l. 29-259), whose methods repeat cli.js's code and
      share its loop bodies.
    - [Origin]: the second script of part_000 (l. 520-755), whose
      [load] is [JSON.parse] alone: records as parsed JSON values or
      objects whose [tags] is a [Set], the JavaScript semantics of
      spread, [for-of] and [Array.from] on them (with [TypeError]s as
      values of [js_error]), [insert], [lookup] with lodash's
      [intersection], [allTags], [cleanup] and the four commands.
    - [LegacyCli]: the commands of part_002 (l. 243-400) and of the
      first script of part_000 (l. 280-513), one definition per action
      over any [EmailDB] class, [x_handle] (dispatch, help for an
      undeclared command) and [x_run] (load, action, file, save),
      [script_db] (the class each script declares, and its laws), the
      legacy [emailToString], [readEmailFile], [makeFilename] and
      export names.
    - [Send]: part_001's [send] command (l. 559-593): the recipient
      [listName@MAILGUN_DOMAIN] and the mail options it hands to the
      provider, after the start-up [load]; the MIME compiler is a
      parameter and the provider's answer a flag.
    - [Program]: part_001's runs as a transition system: [step] (a run
      that succeeds, a run that fails, leaving only what a failed save
      wrote, a [send], or an edit of the email files and the clock), its
      [reachable] worlds from a fresh installation, and the invariant
      [fs_ok] of the two directory files.
    - [Versions]: all five versions run in any order on one
      [data/db.json] ([vstep], [vreachable]): what each process leaves
      on disk ([saves]: the files as they were or one [save]), and the
      invariant [file_erased] (every record has [tags: {}]).
    - [Scenarios]: the specification's examples evaluated on the model,
      and the witnesses of the theorems that have hypotheses.

    ** What the theorems show

    - Persistence: [save] writes tags as [{}], so any saved non-empty
      directory makes the next [load] throw; on a fresh installation
      the first [insert] succeeds and every later run crashes at
      start-up; the form the specification describes (tag arrays)
      would load back exactly; a failed write after the rename leaves
      the data file absent or truncated, the next [load] silently
      empty and only the backup holding the data, and after a
      truncated write the next [save] renames the truncated file over
      that backup; a legacy [broken] flag wins at every load.
    - Runs (rule induction on [reachable]): in every reachable world
      both directory files are absent, truncated by a failed write,
      or the serialisation of a directory keyed by normalised
      addresses (every action keeps the
      keys normalised: [handle_keys_normal]); [load] never returns a
      non-empty directory, so no inserted address is ever seen again
      and every completed query prints nothing.
    - Versions (rule induction on [vreachable]): whatever versions run
      on one data file and in whatever order, every record in it has
      [tags: {}], so no version but Origin ever loads a non-empty
      directory and Origin never sees a tag; a legacy save also makes
      every part_001 run crash, so part_001's flag migration never
      runs on legacy data.
    - Send: a message is posted exactly when the body file exists,
      [MAILGUN_DOMAIN] is set and the provider accepts, to
      [listName@domain] with the subject and body; the body is read
      before the domain is checked; [send] changes nothing and, like
      every command, crashes once a non-empty directory was saved.
    - Query: [lookup] returns exactly the records [admits] (a
      refinement theorem), the default query hides broken records, a
      [status=broken] query returns only them.
    - Mutations: [insert] is idempotent, counts a new address as
      updated when tags are given, and [inserted] is the growth of the
      directory; [setStatus] sets exactly the listed addresses and
      counts changes, and a repeat is a no-op; [setLastDelivered] and
      [update_delivered] keep the last stamp in list order and count
      duplicates; [cleanup] leaves only self-normalising keys, is
      idempotent, counts what it deletes and fixes, and lets a
      corrected key overwrite an existing record.
    - Commands: what the [tags] command prints for every tag, names of
      [Object.prototype] included; export file names repeat the month
      in place of the minutes.
    - Paging: the drain returns the concatenation of a finite chain of
      pages given enough fuel, never a partial list, and never returns
      when the first next link lacks the API base.
    - Iterations: part_001's [insert] and [cleanup] refine cli.js's
      (simulation under [agrees]); legacy data migrates through
      [load]; the legacy queries are refined by [lookup] on the
      migrated directory, except [--dirty-only], which has no
      counterpart; the two [markAsBroken] agree; neither
      [markAsClean] un-breaks an address; cli.js's [query] saves, so
      it loses the data in the same way; the legacy [export]s ignore
      [--clean-only] and [--dirty-only] though their file names record
      them, and their names, like part_001's, repeat the month in the
      minutes' place; the classes of part_002 and part_000 satisfy
      [EmailDBLaws], and from those laws alone: in both legacy scripts
      any action that saves a non-empty directory makes every later
      run crash at start-up, and every directory an action saves keeps
      normalised keys.
    - part_000's second script: once [insert] has saved an address, a
      new [insert] of it throws, a tagged [query] misses it and [tags]
      throws, all because the saved [{}] is not iterable; its [insert]
      counts every known address as updated; its tag gate
      ([_.intersection(...).length < tags.size]) is the subset test.
    - Regex and files: the continuation matcher equals the reference
      semantics; its quantifier fuel is enough; a match is an infix of
      the input and its own first match, so [filterEmail] is
      idempotent; [readEmailFile] reads back what [saveEmailFile]
      wrote.

    ** Bounds, fuel and the modelled domain

    Characters are [ascii], i.e. UTF-16 code units below 256 (the
    class [\s] is taken over that range: 9-13, 32, 160).  The
    quantifier loop of the matcher runs on fuel [min + length s + 1]:
    every iteration consumes a character, so it never runs out
    ([rep_bt_fuel_enough]).  [pageAll]'s [while(true)] runs on explicit
    fuel: [pageAll_chain] says that one more than the number of
    non-empty pages is enough, [pageAll_diverges] that no amount is
    when the cursor is lost.  [digits] runs on [n + 1] steps, each of
    which divides by ten.  The clock ([moment().diff], [format()]) and
    [ToNumber] of a string are parameters, and so is [Array.from] of
    an object with a [length] property in [Origin] ([array_like]).
    The key order of a for-in loop is an arbitrary enumeration of the
    keys; the theorems hold for every one.  The transition system
    [Program.step] and [Versions.vstep] have no bound: their invariants
    hold along every finite sequence of runs.

    ** Not modelled

    Console logging, commander's option parsing and the text of its
    help (an undeclared command is modelled as printing the help and
    saving nothing; an option given without its value is not
    modelled), [Youch] crash
    printing, MIME assembly and the provider's API (parameters of
    [Send]), failures of the writes of email files (exports and
    downloads are assumed to be written; only [db.save()]'s write
    may fail), the text layer of [JSON.stringify]/[JSON.parse]
    (the development works on the parsed JSON value), JSON values of
    a type the code never writes (those make [load] return
    [LoadUnsupported], and [Origin.o_load] return [None]), the
    insertion order of JS Sets in part_001, part_002 and cli.js (the
    model lists a set's elements in a fixed order; [Origin] keeps
    insertion order), and reference identity of parsed JSON arrays
    and objects (two of them are never SameValueZero in [Origin]).
    The copies of part_001's code in the legacy scripts are modelled
    once: [pageAll] (part_002 l. 339-363, part_000 l. 415-439) by
    [Paging.pageAll], their start-up code by [LegacyCli.x_run]; the
    legacy classes' [guessEmailLocale], [tags(email)] and
    [totalEmails], which no command calls, are part_001's
    ([Normalizer], [Store]). *)

From Stdlib Require Import Ascii ZArith Lia.
From stdpp Require Export base list gmap strings.

Declare Scope emaildb_scope.
Delimit Scope emaildb_scope with edb.
Open Scope emaildb_scope.

Create HintDb emaildb discriminated.
Create Rewrite HintDb emaildb_rw.

(** ** Results of fallible code *)

(** A JavaScript call either returns a value or throws; thrown values
    are kept as an error of type [E]. *)
Inductive result (E A : Type) : Type :=
| Ok (a : A)
| Err (e : E).
Arguments Ok {E A} a.
Arguments Err {E A} e.

Notation "x <- c ;; k" :=
  (match c with Ok x => k | Err e => Err e end)
  (at level 60, c at next level, right associativity) : emaildb_scope.

(** ** JavaScript truthiness of the modelled values *)

(** [undefined] and [""] are falsy, every other string is truthy. *)
Definition truthy_str (o : option string) : bool :=
  match o with
  | Some s => bool_decide (s ≠ ""%string)
  | None => false
  end.

(** A number is falsy when it is [0] (or [undefined]). *)
Definition truthy_num (o : option Z) : bool :=
  match o with
  | Some z => bool_decide (z ≠ 0%Z)
  | None => false
  end.

(** ** First success of a continuation over candidates *)

(** The backtracking engine tries candidate continuations in order and
    keeps the first that succeeds. *)
Fixpoint first_some {A B} (k : A -> option B) (l : list A) : option B :=
  match l with
  | [] => None
  | x :: l' =>
      match k x with
      | Some y => Some y
      | None => first_some k l'
      end
  end.

Section first_some.
Context {A B : Type}.
Implicit Types (k : A -> option B) (l : list A).

Lemma first_some_app k l1 l2 :
  first_some k (l1 ++ l2) =
    match first_some k l1 with Some y => Some y | None => first_some k l2 end.
Proof. induction l1 as [|x l1 IH]; simpl; [done|]. by destruct (k x). Qed.

Lemma first_some_ext k1 k2 l :
  (forall x, x ∈ l -> k1 x = k2 x) -> first_some k1 l = first_some k2 l.
Proof.
  induction l as [|x l IH]; intros Hk; simpl; [done|].
  rewrite Hk by set_solver. destruct (k2 x); [done|].
  apply IH. intros y Hy. apply Hk. set_solver.
Qed.

Lemma first_some_Some_in k l y :
  first_some k l = Some y -> exists x, x ∈ l /\ k x = Some y.
Proof.
  induction l as [|x l IH]; simpl; [done|].
  destruct (k x) eqn:Hx; intros Hy.
  - simplify_eq. exists x. split; [set_solver|done].
  - destruct (IH Hy) as (x' & ? & ?). exists x'. split; [set_solver|done].
Qed.

(** Candidates on which the continuation fails can be dropped. *)
Lemma first_some_filter k (P : A -> Prop) `{!forall x, Decision (P x)} l :
  (forall x, x ∈ l -> ~ P x -> k x = None) ->
  first_some k (filter P l) = first_some k l.
Proof.
  induction l as [|x l IH]; intros Hk; simpl; [done|].
  rewrite filter_cons. case_decide as HP; simpl.
  - destruct (k x); [done|]. apply IH. intros y Hy. apply Hk. set_solver.
  - rewrite (Hk x) by set_solver. apply IH. intros y Hy. apply Hk. set_solver.
Qed.
End first_some.

Lemma first_some_flat_map {A B C} (k : C -> option B) (f : A -> list C) (l : list A) :
  first_some k (flat_map f l) = first_some (fun x => first_some k (f x)) l.
Proof.
  induction l as [|x l IH]; simpl; [done|].
  rewrite first_some_app, IH. done.
Qed.

#[export] Hint Rewrite @first_some_app @first_some_flat_map : emaildb_rw.

(** ** Lists of candidates *)

Section flat_map_lemmas.
Context {A B : Type}.

Lemma flat_map_ext_in (f g : A -> list B) (l : list A) :
  (forall x, x ∈ l -> f x = g x) -> flat_map f l = flat_map g l.
Proof.
  induction l as [|x l IH]; intros Hfg; simpl; [done|].
  rewrite Hfg by set_solver. f_equal. apply IH. intros y Hy. apply Hfg. set_solver.
Qed.

Lemma map_flat_map {C} (f : B -> C) (g : A -> list B) (l : list A) :
  map f (flat_map g l) = flat_map (fun x => map f (g x)) l.
Proof. induction l as [|x l IH]; simpl; [done|]. by rewrite map_app, IH. Qed.

Lemma filter_flat_map (P : B -> Prop) `{!forall x, Decision (P x)} (f : A -> list B) (l : list A) :
  filter P (flat_map f l) = flat_map (fun x => filter P (f x)) l.
Proof. induction l as [|x l IH]; simpl; [done|]. by rewrite filter_app, IH. Qed.

Lemma flat_map_map' {C} (f : B -> list C) (g : A -> B) (l : list A) :
  flat_map f (map g l) = flat_map (fun x => f (g x)) l.
Proof. induction l as [|x l IH]; simpl; [done|]. by rewrite IH. Qed.

(** Candidates that contribute nothing can be filtered out first. *)
Lemma flat_map_filter_drop (P : A -> Prop) `{!forall x, Decision (P x)} (f : A -> list B) (l : list A) :
  (forall x, x ∈ l -> ~ P x -> f x = []) ->
  flat_map f (filter P l) = flat_map f l.
Proof.
  induction l as [|x l IH]; intros Hf; simpl; [done|].
  rewrite filter_cons. case_decide; simpl.
  - f_equal. apply IH. intros y Hy. apply Hf. set_solver.
  - rewrite (Hf x) by set_solver. apply IH. intros y Hy. apply Hf. set_solver.
Qed.

Lemma elem_of_flat_map' (f : A -> list B) (l : list A) y :
  y ∈ flat_map f l <-> exists x, x ∈ l /\ y ∈ f x.
Proof.
  rewrite list_elem_of_In, in_flat_map. setoid_rewrite list_elem_of_In. done.
Qed.
End flat_map_lemmas.

Lemma omap_Some_id {A} (f : A -> option A) (l : list A) :
  Forall (fun x => f x = Some x) l -> omap f l = l.
Proof.
  induction 1 as [|x l Hx _ IH]; [done|].
  change (x :: l) with ([x] ++ l). rewrite omap_app, IH. simpl. by rewrite Hx.
Qed.

(** ** Loops that may throw *)

(** [for (x of l) { a = f(a, x) }] where [f] may throw: the first
    error ends the loop. *)
Fixpoint fold_result {E A B} (f : A -> B -> result E A) (l : list B) (a : A) : result E A :=
  match l with
  | [] => Ok a
  | x :: l' => a' <- f a x ;; fold_result f l' a'
  end.

Lemma fold_result_app {E A B} (f : A -> B -> result E A) l1 l2 a :
  fold_result f (l1 ++ l2) a = (a' <- fold_result f l1 a ;; fold_result f l2 a').
Proof.
  revert a. induction l1 as [|x l1 IH]; intros a; [done|]. cbn.
  destruct (f a x); [apply IH|done].
Qed.

(** A property kept by every step holds at the end of a loop that
    finished. *)
Lemma fold_result_ind {E A B} (P : A -> Prop) (f : A -> B -> result E A) l a r :
  P a -> (forall a x a', x ∈ l -> P a -> f a x = Ok a' -> P a') ->
  fold_result f l a = Ok r -> P r.
Proof.
  revert a. induction l as [|x l IH]; intros a Ha Hstep; cbn; [by intros [=<-]|].
  destruct (f a x) as [a'|] eqn:Hf; [|done].
  apply IH; [eapply Hstep; [left|..]; done|]. intros. eapply Hstep; [right|..]; done.
Qed.

(** Every error a loop ends with is one its step throws. *)
Lemma fold_result_Err {E A B} (Q : E -> Prop) (f : A -> B -> result E A) l a e :
  (forall a x e, x ∈ l -> f a x = Err e -> Q e) -> fold_result f l a = Err e -> Q e.
Proof.
  revert a. induction l as [|x l IH]; intros a Hstep; cbn; [done|].
  destruct (f a x) as [a'|e'] eqn:Hf.
  - apply IH. intros. eapply Hstep; [right|]; done.
  - intros [=<-]. eapply Hstep; [left|]; done.
Qed.

(** Every element of a loop that finished was stepped over without
    an error. *)
Lemma fold_result_Ok_step {E A B} (f : A -> B -> result E A) l a r x :
  fold_result f l a = Ok r -> x ∈ l -> exists a' a'', f a' x = Ok a''.
Proof.
  revert a. induction l as [|y l IH]; intros a; cbn; [intros _ Hx; by apply elem_of_nil in Hx|].
  destruct (f a y) as [a'|] eqn:Hf; [|done]. intros Hl [->|Hx]%elem_of_cons; [by eauto|].
  by apply (IH a').
Qed.

(** ** Counting *)

(** The number of elements of a list satisfying a decidable test, the
    shape of every [res++] loop of the program. *)
Definition count_if {A} (P : A -> Prop) `{!forall x, Decision (P x)} (l : list A) : nat :=
  length (filter P l).

Lemma count_if_nil {A} (P : A -> Prop) `{!forall x, Decision (P x)} : count_if P [] = 0.
Proof. done. Qed.

Lemma count_if_cons {A} (P : A -> Prop) `{!forall x, Decision (P x)} x (l : list A) :
  count_if P (x :: l) = (if decide (P x) then 1 else 0) + count_if P l.
Proof. unfold count_if. rewrite filter_cons. by case_decide. Qed.

Lemma count_if_app {A} (P : A -> Prop) `{!forall x, Decision (P x)} (l1 l2 : list A) :
  count_if P (l1 ++ l2) = count_if P l1 + count_if P l2.
Proof. unfold count_if. by rewrite filter_app, length_app. Qed.

Lemma count_if_le_length {A} (P : A -> Prop) `{!forall x, Decision (P x)} (l : list A) :
  count_if P l <= length l.
Proof. unfold count_if. apply length_filter. Qed.

Lemma count_if_zero {A} (P : A -> Prop) `{!forall x, Decision (P x)} (l : list A) :
  (forall x, x ∈ l -> ~ P x) -> count_if P l = 0.
Proof.
  induction l as [|x l IH]; intros Hl; [done|].
  rewrite count_if_cons. case_decide; [exfalso; by eapply Hl; [left|]|].
  simpl. apply IH. intros y Hy. apply Hl. by right.
Qed.

Lemma count_if_ext {A} (P Q : A -> Prop) `{!forall x, Decision (P x)} `{!forall x, Decision (Q x)}
    (l : list A) :
  (forall x, x ∈ l -> P x <-> Q x) -> count_if P l = count_if Q l.
Proof.
  induction l as [|x l IH]; intros HPQ; [done|]. rewrite !count_if_cons.
  rewrite IH by (intros y Hy; apply HPQ; set_solver).
  pose proof (HPQ x ltac:(set_solver)). do 2 case_decide; naive_solver.
Qed.

#[export] Hint Rewrite @count_if_nil @count_if_cons @count_if_app : emaildb_rw.

(** An element occurs at most once in a duplicate-free list. *)
Lemma count_if_eq_NoDup {A} `{!EqDecision A} (t : A) (l : list A) :
  NoDup l -> count_if (fun x => x = t) l = if bool_decide (t ∈ l) then 1 else 0.
Proof.
  induction 1 as [|x l Hx Hnd IH]; [done|]. rewrite count_if_cons, IH.
  destruct (decide (x = t)); repeat case_bool_decide; set_solver.
Qed.

Lemma NoDup_fst_filter {K A} (P : K * A -> Prop) `{!forall kx, Decision (P kx)}
    (l : list (K * A)) :
  NoDup l.*1 -> NoDup (filter P l).*1.
Proof.
  induction l as [|[k x] l IH]; intros Hnd; [constructor|]. simpl in Hnd.
  apply NoDup_cons in Hnd as [Hk Hnd]. rewrite filter_cons. case_decide; [|by apply IH].
  simpl. constructor; [|by apply IH].
  intros (kx & -> & (_ & Hin)%list_elem_of_filter)%list_elem_of_fmap.
  apply Hk, list_elem_of_fmap. by exists kx.
Qed.

(** The size of a filtered map counts the bindings of its list. *)
Lemma size_map_filter {A} (P : string * A -> Prop) `{!forall kx, Decision (P kx)}
    (m : gmap string A) :
  size (filter P m) = count_if P (map_to_list m).
Proof.
  rewrite map_filter_alt, map_size_list_to_map; [done|].
  apply NoDup_fst_filter, NoDup_fst_map_to_list.
Qed.


(** ** Tactics *)

(** Invert a hypothesis and clean up. *)
Ltac invc H := inversion H; subst; clear H.

(** Rewrite with the development's equations and stdpp's map lemmas. *)
Ltac edb_simpl := repeat (autorewrite with emaildb_rw in *; simplify_map_eq).
