(* ===== verification/Regex.v ===== *)
(** * Regex: the ECMAScript regular-expression engine used by [line.match]

    [filterEmail] (part_001 l. 31-37) calls [String.prototype.match]
    with a regular expression without flags.  That is
    RegExpBuiltinExec: try the pattern's matcher at start positions
    0, 1, ..., |S| and return the first success; the matcher is the
    backtracking, continuation-passing procedure of ECMA-262 §22.2.2.
    This file models that procedure for the constructs [EmailRegex]
    uses: character classes, concatenation, alternation and greedy
    quantifiers [{min,max}] with RepeatMatcher's empty-iteration check.
    Capture groups only record positions and are not modelled; the
    result of [match] used by the code is [match[0]].

    [bt] is the matcher; [ends] is a reference semantics listing the
    end positions of all paths in backtracking order.  The theorems:
    [bt] is [first_some] over [ends]; the quantifier fuel is
    sufficient; truncating the input after a path's end does not change
    the paths that end within it; hence [exec] returns an infix of its
    input that is its own first match. *)

From Stdlib Require Import Ascii Lia.
From S2P Require Import Prelude.

Module Regex.

(** ** Syntax *)

Inductive regex : Type :=
| RClass (p : ascii -> bool)                 (** a character class *)
| RSeq (r1 r2 : regex)                       (** concatenation *)
| RAlt (r1 r2 : regex)                       (** [r1|r2] *)
| RRep (r : regex) (mn : nat) (mx : option nat). (** greedy [r{mn,mx}] *)

(** A continuation receives the rest of the input. *)
Abbreviation cont := (list ascii -> option (list ascii)).

(** ** The backtracking matcher (ECMA-262 §22.2.2) *)

(** RepeatMatcher(m, min, max, greedy=true, x, c): if [max = 0] run
    the continuation; otherwise run [m] with a continuation that, when
    [min = 0], fails on an iteration that consumed nothing and
    otherwise repeats with [min-1], [max-1]; when [min = 0] fall back
    to the continuation.  [fuel] bounds the number of nested
    iterations; [bt] supplies [min + |s| + 1], which is enough
    ([rep_bt_fuel_enough]). *)
Fixpoint rep_bt (m : list ascii -> cont -> option (list ascii))
    (fuel mn : nat) (mx : option nat) (s : list ascii) (k : cont) : option (list ascii) :=
  match fuel with
  | O => None
  | S fuel' =>
      if bool_decide (mx = Some 0) then k s else
      match mn with
      | S mn' => m s (fun s' => rep_bt m fuel' mn' (pred <$> mx) s' k)
      | O =>
          match m s (fun s' => if Nat.eqb (length s') (length s) then None
                               else rep_bt m fuel' 0 (pred <$> mx) s' k) with
          | Some y => Some y
          | None => k s
          end
      end
  end.

Fixpoint bt (r : regex) (s : list ascii) (k : cont) {struct r} : option (list ascii) :=
  match r with
  | RClass p =>
      match s with
      | c :: s' => if p c then k s' else None
      | [] => None
      end
  | RSeq r1 r2 => bt r1 s (fun s1 => bt r2 s1 k)
  | RAlt r1 r2 =>
      match bt r1 s k with
      | Some y => Some y
      | None => bt r2 s k
      end
  | RRep r0 mn mx => rep_bt (bt r0) (mn + length s + 1) mn mx s k
  end.

(** RegExpBuiltinExec without the [g]/[y] flags: [lastIndex] starts
    at 0 and advances by one code unit after each failure; the result
    is the matched substring [match[0]]. *)
Fixpoint exec (r : regex) (s : list ascii) : option (list ascii) :=
  match bt r s (fun rest => Some rest) with
  | Some rest => Some (take (length s - length rest) s)
  | None =>
      match s with
      | [] => None
      | _ :: s' => exec r s'
      end
  end.

(** ** Reference semantics: all path ends, in backtracking order *)

Fixpoint rep_ends (e : list ascii -> list (list ascii))
    (fuel mn : nat) (mx : option nat) (s : list ascii) : list (list ascii) :=
  match fuel with
  | O => []
  | S fuel' =>
      if bool_decide (mx = Some 0) then [s] else
      match mn with
      | S mn' => flat_map (fun s' => rep_ends e fuel' mn' (pred <$> mx) s') (e s)
      | O =>
          flat_map (fun s' => if Nat.eqb (length s') (length s) then []
                              else rep_ends e fuel' 0 (pred <$> mx) s') (e s)
          ++ [s]
      end
  end.

Fixpoint ends (r : regex) (s : list ascii) {struct r} : list (list ascii) :=
  match r with
  | RClass p =>
      match s with
      | c :: s' => if p c then [s'] else []
      | [] => []
      end
  | RSeq r1 r2 => flat_map (ends r2) (ends r1 s)
  | RAlt r1 r2 => ends r1 s ++ ends r2 s
  | RRep r0 mn mx => rep_ends (ends r0) (mn + length s + 1) mn mx s
  end.

(** ** The matcher is the first success over the reference paths *)

Lemma rep_bt_ends m e :
  (forall s k, m s k = first_some k (e s)) ->
  forall fuel mn mx s k,
    rep_bt m fuel mn mx s k = first_some k (rep_ends e fuel mn mx s).
Proof.
  intros Hm fuel. induction fuel as [|fuel IH]; intros mn mx s k; simpl; [done|].
  case_bool_decide; simpl; [by destruct (k s)|].
  destruct mn as [|mn].
  - rewrite Hm, first_some_app, first_some_flat_map.
    assert (Hext : first_some (fun s' => if Nat.eqb (length s') (length s) then None
                                         else rep_bt m fuel 0 (pred <$> mx) s' k) (e s)
                 = first_some (fun x => first_some k (if Nat.eqb (length x) (length s) then []
                                         else rep_ends e fuel 0 (pred <$> mx) x)) (e s)).
    { apply first_some_ext. intros s' _. destruct (Nat.eqb _ _); [done|apply IH]. }
    rewrite Hext. simpl. case_match; [done|]. by destruct (k s).
  - rewrite Hm, first_some_flat_map. apply first_some_ext. intros s' _. apply IH.
Qed.

Lemma bt_first_some r : forall s k, bt r s k = first_some k (ends r s).
Proof.
  induction r as [p|r1 IH1 r2 IH2|r1 IH1 r2 IH2|r IH mn mx]; intros s k; simpl.
  - destruct s as [|c s]; [done|]. destruct (p c); simpl; [by destruct (k s)|done].
  - rewrite IH1, first_some_flat_map. apply first_some_ext. intros; apply IH2.
  - by rewrite IH1, IH2, first_some_app.
  - by apply rep_bt_ends.
Qed.

(** ** Every path ends on a suffix of the input *)

Lemma rep_ends_suffix e :
  (forall s s', s' ∈ e s -> s' `suffix_of` s) ->
  forall fuel mn mx s s', s' ∈ rep_ends e fuel mn mx s -> s' `suffix_of` s.
Proof.
  intros He fuel. induction fuel as [|fuel IH]; intros mn mx s s'; simpl; [set_solver|].
  case_bool_decide; [intros ->%list_elem_of_singleton; done|].
  destruct mn as [|mn].
  - rewrite elem_of_app, elem_of_flat_map'.
    intros [(t & Ht & Hs')| ->%list_elem_of_singleton]; [|done].
    destruct (Nat.eqb _ _); [set_solver|].
    trans t; [by eapply IH|by apply He].
  - rewrite elem_of_flat_map'. intros (t & Ht & Hs').
    trans t; [by eapply IH|by apply He].
Qed.

Lemma ends_suffix r : forall s s', s' ∈ ends r s -> s' `suffix_of` s.
Proof.
  induction r as [p|r1 IH1 r2 IH2|r1 IH1 r2 IH2|r IH mn mx]; intros s s'; simpl.
  - destruct s as [|c s]; [set_solver|].
    destruct (p c); [|set_solver]. intros ->%list_elem_of_singleton.
    by apply suffix_cons_r.
  - rewrite elem_of_flat_map'. intros (t & Ht & Hs').
    trans t; [by apply IH2|by apply IH1].
  - rewrite elem_of_app. intros [?|?]; auto.
  - apply rep_ends_suffix, IH.
Qed.

(** ** The quantifier fuel is sufficient *)

Lemma rep_ends_fuel e :
  (forall s s', s' ∈ e s -> s' `suffix_of` s) ->
  forall f1 f2 mn mx s, mn + length s < f1 -> mn + length s < f2 ->
    rep_ends e f1 mn mx s = rep_ends e f2 mn mx s.
Proof.
  intros He f1. induction f1 as [|f1 IH]; intros f2 mn mx s H1 H2; [lia|].
  destruct f2 as [|f2]; [lia|]. simpl. case_bool_decide; [done|].
  destruct mn as [|mn]; [f_equal|]; apply flat_map_ext_in; intros s' Hs';
    pose proof (suffix_length _ _ (He _ _ Hs')).
  - destruct (Nat.eqb_spec (length s') (length s)); [done|]. apply IH; lia.
  - apply IH; lia.
Qed.

(** The matcher's answer on a quantifier does not change with any
    fuel beyond the bound [bt] supplies: the iteration count never
    reaches it. *)
Theorem rep_bt_fuel_enough r mn mx s k fuel :
  mn + length s < fuel ->
  rep_bt (bt r) fuel mn mx s k = bt (RRep r mn mx) s k.
Proof.
  intros Hf. simpl. rewrite !(rep_bt_ends (bt r) (ends r)) by apply bt_first_some.
  f_equal. apply rep_ends_fuel; [apply ends_suffix|lia..].
Qed.

(** ** Paths that end inside a prefix do not look past it *)

Section truncation.
Context (y : list ascii).

Local Definition long (t : list ascii) : Prop := length y <= length t.
Local Instance long_dec t : Decision (long t) := _.

Lemma filter_long_nil (l : list (list ascii)) (t : list ascii) :
  (forall u, u ∈ l -> length u <= length t) -> ~ long t -> filter long l = [].
Proof.
  intros Hl Ht. induction l as [|u l IH]; [done|].
  rewrite filter_cons_False.
  - apply IH. intros v Hv. apply Hl. set_solver.
  - unfold long in *. pose proof (Hl u ltac:(set_solver)). lia.
Qed.

(** The one step shared by sequencing and iteration: continuing
    every path with [g1] on the prefix side and [g2] on the full side. *)
Lemma trunc_bind (l1 l2 : list (list ascii)) (g1 g2 : list ascii -> list (list ascii)) :
  map (fun t => t ++ y) l1 = filter long l2 ->
  (forall t, t ∈ l1 -> map (fun u => u ++ y) (g1 t) = filter long (g2 (t ++ y))) ->
  (forall t u, u ∈ g2 t -> length u <= length t) ->
  map (fun t => t ++ y) (flat_map g1 l1) = filter long (flat_map g2 l2).
Proof.
  intros H12 Hg Hsuf. rewrite map_flat_map, (flat_map_ext_in _ _ _ Hg).
  rewrite <- (flat_map_map' (fun t => filter long (g2 t))), H12.
  rewrite flat_map_filter_drop, filter_flat_map; [done|].
  intros t _ Ht. eapply filter_long_nil; [intros u; apply Hsuf|done].
Qed.

Lemma rep_ends_app e :
  (forall s s', s' ∈ e s -> s' `suffix_of` s) ->
  (forall x, map (fun t => t ++ y) (e x) = filter long (e (x ++ y))) ->
  forall f mn mx x,
    map (fun t => t ++ y) (rep_ends e f mn mx x) = filter long (rep_ends e f mn mx (x ++ y)).
Proof.
  intros Hsuf He f. induction f as [|f IH]; intros mn mx x; [done|]. simpl.
  assert (Hlong : long (x ++ y)) by (unfold long; rewrite length_app; lia).
  case_bool_decide; [by rewrite filter_cons_True|].
  assert (Hrep : forall f' mn' mx' t u, u ∈ rep_ends e f' mn' mx' t -> length u <= length t)
    by (intros; eapply suffix_length, rep_ends_suffix; eauto).
  destruct mn as [|mn].
  - rewrite map_app, filter_app, filter_cons_True by done. f_equal.
    apply trunc_bind; [apply He| |].
    + intros t _. rewrite !length_app.
      destruct (Nat.eqb_spec (length t) (length x)),
               (Nat.eqb_spec (length t + length y) (length x + length y)); [done|lia..|].
      apply IH.
    + intros t u. destruct (Nat.eqb _ _); [set_solver|apply Hrep].
  - apply trunc_bind; [apply He|intros; apply IH|apply Hrep].
Qed.

Theorem ends_app r : forall x,
  map (fun t => t ++ y) (ends r x) = filter long (ends r (x ++ y)).
Proof.
  induction r as [p|r1 IH1 r2 IH2|r1 IH1 r2 IH2|r IH mn mx]; intros x; simpl.
  - destruct x as [|c x]; simpl.
    + destruct y as [|c y'] eqn:Ey; [done|]. destruct (p c); [|done].
      rewrite filter_cons_False; [done|]. unfold long; rewrite Ey; simpl; lia.
    + destruct (p c); [|done]. rewrite filter_cons_True; [done|].
      unfold long. rewrite length_app. lia.
  - apply trunc_bind; [apply IH1|intros; apply IH2|].
    intros t u Hu. eapply suffix_length, ends_suffix, Hu.
  - by rewrite map_app, filter_app, IH1, IH2.
  - rewrite (rep_ends_fuel _ (ends_suffix r) (mn + length x + 1)
                           (mn + length (x ++ y) + 1)) by (rewrite ?length_app; lia).
    apply rep_ends_app; [apply ends_suffix|apply IH].
Qed.
End truncation.

(** ** The first match is its own first match *)

Lemma first_some_Some_head (l : list (list ascii)) :
  first_some (fun rest => Some rest) l = head l.
Proof. by destruct l. Qed.

Lemma bt_Some_head r s rest :
  bt r s (fun rest => Some rest) = Some rest <-> head (ends r s) = Some rest.
Proof. by rewrite bt_first_some, first_some_Some_head. Qed.

(** When the matcher succeeds at [s] leaving [rest], the matched text
    [p] is matched whole, by the first path, when it is the input. *)
Lemma bt_matched_prefix r p rest :
  bt r (p ++ rest) (fun t => Some t) = Some rest ->
  bt r p (fun t => Some t) = Some [].
Proof.
  rewrite !bt_Some_head. intros Hhd.
  pose proof (ends_app rest r p) as Happ.
  destruct (ends r (p ++ rest)) as [|t tl] eqn:E; simplify_eq/=.
  rewrite filter_cons_True in Happ by (unfold long; lia).
  destruct (ends r p) as [|u ul]; simpl in *; [done|].
  injection Happ as Hu _. apply (f_equal length) in Hu. rewrite length_app in Hu.
  destruct u; [done|simpl in Hu; lia].
Qed.

Lemma exec_at_match r s rest :
  bt r s (fun t => Some t) = Some rest ->
  exec r (take (length s - length rest) s) = Some (take (length s - length rest) s).
Proof.
  intros Hbt.
  assert (rest `suffix_of` s) as [p ->]
    by (eapply ends_suffix, head_Some_elem_of, bt_Some_head, Hbt).
  rewrite length_app, Nat.add_sub, take_app_length.
  destruct p as [|c p]; simpl.
  - apply bt_matched_prefix in Hbt. simpl in Hbt. by rewrite Hbt.
  - apply bt_matched_prefix in Hbt. simpl in Hbt. rewrite Hbt. simpl.
    by rewrite take_ge by lia.
Qed.

(** [String.prototype.match] is idempotent: the text it returns is the
    first match of itself. *)
Theorem exec_idem r s m : exec r s = Some m -> exec r m = Some m.
Proof.
  induction s as [|c s IH]; simpl;
    destruct (bt r _ (fun rest => Some rest)) as [rest|] eqn:E.
  - intros [= <-]. apply (exec_at_match r [] rest E).
  - done.
  - intros [= <-]. apply (exec_at_match r (c :: s) rest E).
  - apply IH.
Qed.

(** The match is a piece of the input. *)
Theorem exec_infix r s m :
  exec r s = Some m -> exists pre post, s = pre ++ m ++ post.
Proof.
  induction s as [|c s IH]; simpl.
  - destruct (bt r [] _); [intros [= <-]; by exists [], []|done].
  - destruct (bt r (c :: s) _) eqn:E.
    + intros [= <-]. exists [], (drop (length (c :: s) - length l) (c :: s)).
      by rewrite take_drop.
    + intros (pre & post & ->)%IH. by exists (c :: pre), post.
Qed.

(** ** Characters no class accepts never appear in a match *)

Fixpoint rejects (c : ascii) (r : regex) : bool :=
  match r with
  | RClass p => negb (p c)
  | RSeq r1 r2 | RAlt r1 r2 => rejects c r1 && rejects c r2
  | RRep r0 _ _ => rejects c r0
  end.

(** The part of the input a path consumes avoids [c]. *)
Definition avoids (c : ascii) (e : list ascii -> list (list ascii)) : Prop :=
  forall s t, t ∈ e s -> exists p, s = p ++ t /\ c ∉ p.

Lemma avoids_bind c e s t u :
  avoids c e -> t ∈ e s -> (exists p, t = p ++ u /\ c ∉ p) ->
  exists p, s = p ++ u /\ c ∉ p.
Proof.
  intros He Ht (p2 & -> & Hp2). destruct (He _ _ Ht) as (p1 & -> & Hp1).
  exists (p1 ++ p2). rewrite <- app_assoc. split; [done|set_solver].
Qed.

Lemma avoids_refl c (s : list ascii) : exists p, s = p ++ s /\ c ∉ p.
Proof. exists []. split; [done|set_solver]. Qed.

Lemma rep_ends_avoids c e : avoids c e -> forall f mn mx, avoids c (rep_ends e f mn mx).
Proof.
  intros He f. induction f as [|f IH]; intros mn mx s t; simpl; [set_solver|].
  case_bool_decide; [intros ->%list_elem_of_singleton; apply avoids_refl|].
  destruct mn as [|mn]; rewrite ?elem_of_app, elem_of_flat_map'.
  - intros [(u & Hu & Ht)| ->%list_elem_of_singleton]; [|apply avoids_refl].
    destruct (Nat.eqb _ _); [set_solver|]. eapply avoids_bind; [done..|by eapply IH].
  - intros (u & Hu & Ht). eapply avoids_bind; [done..|by eapply IH].
Qed.

Lemma ends_avoids c r : rejects c r = true -> avoids c (ends r).
Proof.
  induction r as [p|r1 IH1 r2 IH2|r1 IH1 r2 IH2|r IH mn mx]; simpl; intros Hr s t.
  - destruct s as [|d s]; [set_solver|]. destruct (p d) eqn:Hd; [|set_solver].
    intros ->%list_elem_of_singleton. exists [d]. split; [done|].
    rewrite list_elem_of_singleton. intros ->. by rewrite Hd in Hr.
  - apply andb_true_iff in Hr as [H1 H2]. rewrite elem_of_flat_map'.
    intros (u & Hu & Ht). eapply avoids_bind; [by apply IH1|done|by apply IH2].
  - apply andb_true_iff in Hr as [H1 H2]. rewrite elem_of_app.
    intros [?|?]; [by apply IH1|by apply IH2].
  - apply rep_ends_avoids, IH, Hr.
Qed.

Theorem exec_avoids c r s m : rejects c r = true -> exec r s = Some m -> c ∉ m.
Proof.
  intros Hr. induction s as [|d s IH]; simpl;
    destruct (bt r _ (fun rest => Some rest)) as [rest|] eqn:E; try done.
  - intros [= <-]. simpl. set_solver.
  - intros [= <-]. apply bt_Some_head, head_Some_elem_of in E.
    destruct (ends_avoids c r Hr _ _ E) as (p & Hp & Hc).
    assert (Hl : length (d :: s) = length p + length rest) by (by rewrite Hp, length_app).
    simpl in Hl. by rewrite Hl, Nat.add_sub, Hp, take_app_length.
Qed.

(** The backtracking matcher of ECMA-262 computes the first
    success, in backtracking order, of the continuation over the end
    positions of all paths of the pattern. *)
Theorem bt_ends r s k : bt r s k = first_some k (ends r s).
Proof. apply bt_first_some. Qed.

#[export] Hint Resolve ends_suffix : emaildb.

End Regex.
