(* ===== verification/Normalizer.v ===== *)
(** * Normalizer: [EmailRegex], [filterEmail], [guessEmailLocale]

    part_001 l. 14 declares [EmailRegex]; [filterEmail] (l. 31-37)
    returns [line.match(EmailRegex)[0]] or [null]; [guessEmailLocale]
    (l. 68-73) tests [/\.ru$/]; [readEmailFile] (l. 39-58) splits a file
    on ['\n'] and keeps the lines' matches; [saveEmailFile] (l. 60-63)
    writes [emails.join('\n')].

    The [EmailFilter] class is the interface the directory operations
    rely on: a partial normaliser whose result normalises to itself.
    [filterEmail] implements it ([filterEmail_self]). *)

From Stdlib Require Import Ascii Lia.
From S2P Require Import Prelude Regex.
Import Regex.

Module Normalizer.

(** ** Character classes of [EmailRegex] over code units 0-255 *)

Definition code (c : ascii) : nat := nat_of_ascii c.

(** [\s]: WhiteSpace and LineTerminator code points below 256. *)
Definition is_space (c : ascii) : bool :=
  let n := code c in ((9 <=? n) && (n <=? 13)) || (n =? 32) || (n =? 160).

(** [.] matches everything but a LineTerminator. *)
Definition is_line_terminator (c : ascii) : bool :=
  (code c =? 10) || (code c =? 13).

(** [[^<>()\[\]\\.,;:\s@] extended with the double quote (code 34). *)
Definition local_char (c : ascii) : bool :=
  negb (existsb (Nat.eqb (code c)) [60; 62; 40; 41; 91; 93; 92; 46; 44; 59; 58; 64; 34]
        || is_space c).

Definition is_digit (c : ascii) : bool := (48 <=? code c) && (code c <=? 57).

Definition is_alpha (c : ascii) : bool :=
  ((65 <=? code c) && (code c <=? 90)) || ((97 <=? code c) && (code c <=? 122)).

(** [[a-zA-Z\-0-9]] *)
Definition is_label (c : ascii) : bool := is_alpha c || (code c =? 45) || is_digit c.

Definition chr (n : nat) : regex := RClass (fun c => code c =? n).
Definition plus (r : regex) : regex := RRep r 1 None.
Definition star (r : regex) : regex := RRep r 0 None.

(** ** The pattern, l. 14 *)

(** [([^...]+(\.[^...]+)* ) | (".+")] *)
Definition local_part : regex :=
  RAlt (RSeq (plus (RClass local_char)) (star (RSeq (chr 46) (plus (RClass local_char)))))
       (RSeq (chr 34) (RSeq (plus (RClass (fun c => negb (is_line_terminator c)))) (chr 34))).

(** [[0-9]{1,3}] *)
Definition octet : regex := RRep (RClass is_digit) 1 (Some 3).

(** [\[[0-9]{1,3}\.[0-9]{1,3}\.[0-9]{1,3}\.[0-9]{1,3}]] *)
Definition ip_literal : regex :=
  RSeq (chr 91) (RSeq octet (RSeq (chr 46) (RSeq octet (RSeq (chr 46)
    (RSeq octet (RSeq (chr 46) (RSeq octet (chr 93)))))))).

(** [([a-zA-Z\-0-9]+\.)+[a-zA-Z]{2,}] *)
Definition host_name : regex :=
  RSeq (plus (RSeq (plus (RClass is_label)) (chr 46))) (RRep (RClass is_alpha) 2 None).

(** [(local)@(ip|host)]; concatenation is associative in the
    continuation semantics, so the nesting of [RSeq] is immaterial. *)
Definition EmailRegex : regex :=
  RSeq local_part (RSeq (chr 64) (RAlt ip_literal host_name)).

(** ** [filterEmail], l. 31-37 *)

Definition filterEmail (line : string) : option string :=
  String.string_of_list_ascii <$> exec EmailRegex (String.list_ascii_of_string line).

(** ** [guessEmailLocale], l. 68-73 *)

(** [email.match(/\.ru$/)]: [$] without the [m] flag anchors at the
    end of the input, so the test is "ends with [.ru]". *)
Definition guessEmailLocale (email : string) : string :=
  if bool_decide (String.list_ascii_of_string ".ru" `suffix_of` String.list_ascii_of_string email)
  then "ru" else "en".

(** ** [String.prototype.split] and [Array.prototype.join] on a
    non-empty separator *)

(** The scan of SplitMatcher finds the leftmost occurrence; two
    occurrences of the same separator that overlap start in the same
    order as they end, so testing "the piece read so far ends with the
    separator" after every code unit finds the same occurrences. *)
Fixpoint split_go (sep cur s : list ascii) : list (list ascii) :=
  match s with
  | [] => [cur]
  | c :: s' =>
      if bool_decide (sep `suffix_of` (cur ++ [c]))
      then take (length (cur ++ [c]) - length sep) (cur ++ [c]) :: split_go sep [] s'
      else split_go sep (cur ++ [c]) s'
  end.

Definition js_split (sep s : string) : list string :=
  String.string_of_list_ascii <$>
    split_go (String.list_ascii_of_string sep) [] (String.list_ascii_of_string s).

Fixpoint join_go (sep : list ascii) (l : list (list ascii)) : list ascii :=
  match l with
  | [] => []
  | [x] => x
  | x :: l' => x ++ sep ++ join_go sep l'
  end.

Definition js_join (sep : string) (l : list string) : string :=
  String.string_of_list_ascii
    (join_go (String.list_ascii_of_string sep) (String.list_ascii_of_string <$> l)).

Definition newline : string := String (ascii_of_nat 10) EmptyString.

(** ** [readEmailFile], l. 39-58, and [saveEmailFile], l. 60-63 *)

(** [content] is [None] when [readFileSync] throws: the function then
    returns [[]]. *)
Definition readEmailFile (content : option string) : list string :=
  match content with
  | None => []
  | Some text => omap filterEmail (js_split newline text)
  end.

(** The text [saveEmailFile] writes. *)
Definition saveEmailFile (emails : list string) : string := js_join newline emails.

(** ** The interface the directory relies on *)

Class EmailFilter := {
  normalize : string -> option string;
  normalize_idem : forall line e, normalize line = Some e -> normalize e = Some e
}.

(** ** Properties *)

Lemma filterEmail_Some line e :
  filterEmail line = Some e ->
  exists m, exec EmailRegex (String.list_ascii_of_string line) = Some m /\
            e = String.string_of_list_ascii m.
Proof. unfold filterEmail. intros (m & ? & ?)%fmap_Some. by exists m. Qed.

Lemma filterEmail_self line e : filterEmail line = Some e -> filterEmail e = Some e.
Proof.
  intros (m & Hm & ->)%filterEmail_Some. unfold filterEmail.
  rewrite String.list_ascii_of_string_of_list_ascii, (exec_idem _ _ _ Hm). done.
Qed.

(** ** Export and import round trip *)

Section split_join.
Context (c : ascii).

Lemma split_go_piece cur x rest :
  c ∉ x -> split_go [c] cur (x ++ c :: rest) = (cur ++ x) :: split_go [c] [] rest.
Proof.
  revert cur. induction x as [|d x IH]; intros cur Hx; simpl.
  - rewrite bool_decide_true by (by exists cur).
    by rewrite length_app, Nat.add_sub, take_app_length, app_nil_r.
  - rewrite bool_decide_false.
    + rewrite IH by set_solver. by rewrite <- app_assoc.
    + intros [k Hk]. apply app_inj_tail in Hk as [_ ->]. set_solver.
Qed.

Lemma split_go_last cur x : c ∉ x -> split_go [c] cur x = [cur ++ x].
Proof.
  revert cur. induction x as [|d x IH]; intros cur Hx; simpl; [by rewrite app_nil_r|].
  rewrite bool_decide_false.
  - rewrite IH by set_solver. by rewrite <- app_assoc.
  - intros [k Hk]. apply app_inj_tail in Hk as [_ ->]. set_solver.
Qed.

(** Splitting a join on a one-character separator gives the pieces
    back when none of them contains the separator. *)
Lemma split_join_go l :
  l ≠ [] -> Forall (fun x => c ∉ x) l -> split_go [c] [] (join_go [c] l) = l.
Proof.
  induction l as [|x l IH]; intros Hne Hl; [done|]. inv Hl.
  destruct l as [|y l].
  - by apply split_go_last.
  - simpl. rewrite split_go_piece by done. f_equal. apply IH; [done|done].
Qed.
End split_join.

Lemma newline_code : nat_of_ascii (ascii_of_nat 10) = 10.
Proof. reflexivity. Qed.

(** No class of [EmailRegex] accepts a line feed. *)
Lemma EmailRegex_rejects_newline : rejects (ascii_of_nat 10) EmailRegex = true.
Proof. vm_compute. reflexivity. Qed.

Lemma filterEmail_no_newline line e :
  filterEmail line = Some e -> ascii_of_nat 10 ∉ String.list_ascii_of_string e.
Proof.
  intros (m & Hm & ->)%filterEmail_Some.
  rewrite String.list_ascii_of_string_of_list_ascii.
  exact (exec_avoids _ _ _ _ EmailRegex_rejects_newline Hm).
Qed.

(** Splitting the joined text on the newline gives the pieces back,
    since no normalised address holds a newline. *)
Lemma read_save_email_file emails :
  Forall (fun e => filterEmail e = Some e) emails ->
  readEmailFile (Some (saveEmailFile emails)) = emails.
Proof.
  intros Hall. destruct emails as [|e0 emails0] eqn:Hemails; [reflexivity|].
  rewrite <- Hemails in *.
  unfold readEmailFile, saveEmailFile, js_split, js_join.
  rewrite String.list_ascii_of_string_of_list_ascii. simpl String.list_ascii_of_string.
  rewrite split_join_go.
  - rewrite <- list_fmap_compose.
    erewrite (list_fmap_ext _ id), list_fmap_id by (intros; apply String.string_of_list_ascii_of_string).
    by apply omap_Some_id.
  - subst emails. done.
  - apply Forall_fmap, (Forall_impl _ _ _ Hall). intros e He. by eapply filterEmail_no_newline.
Qed.

(** C40: a list of normalised addresses written by [saveEmailFile]
    (the [export], [download_broken] and [update_delivered] commands)
    is read back unchanged by [readEmailFile] (the [mark_clean],
    [mark_broken] and [set_delivered_now] commands). *)
Theorem readEmailFile_saveEmailFile emails :
  Forall (fun e => filterEmail e = Some e) emails ->
  readEmailFile (Some (saveEmailFile emails)) = emails.
Proof. apply read_save_email_file. Qed.

#[export] Instance js_email_filter : EmailFilter :=
  {| normalize := filterEmail; normalize_idem := filterEmail_self |}.


End Normalizer.
