(* ===== verification/Store.v ===== *)
(** * Store: records, the directory, and its JSON persistence

    part_001 l. 20-29 declare [Status], [Record] and [DB]; [load] and
    [save] (l. 75-100) move [this.db] between memory and
    [data/db.json]; [totalEmails] (l. 252-254), [tags] (l. 174-179)
    and [lookupByRegexp] (l. 102-110) read it.

    The in-memory directory is a [gmap string Record]: the JS object's
    property order only matters to [cleanup], which is modelled over an
    arbitrary enumeration order in [Mutations].  A record keeps the
    legacy [broken] property because [load] never deletes it.

    The file holds the JSON value [JSON.stringify] produced; the text
    layer is not modelled: a file is [Parsed j] (its text parses to
    [j]) or [Corrupt] (JSON.parse throws: a file truncated by a failed write).  [JSON.stringify] writes a
    JS [Set] as [{}] since a Set has no own enumerable property, and
    [new Set(v)] throws a [TypeError] on a non-iterable [v]; both
    are modelled as the engine does them. *)

From Stdlib Require Import Ascii ZArith Lia.
From S2P Require Import Prelude Regex Normalizer.

Module Store.

(** ** Data, l. 15-29 *)

Inductive Status : Type := dirty | broken | clean.

#[export] Instance Status_eq_dec : EqDecision Status.
Proof. solve_decision. Defined.

Definition status_to_string (s : Status) : string :=
  match s with dirty => "dirty" | broken => "broken" | clean => "clean" end.

Definition status_of_string (s : string) : option Status :=
  if bool_decide (s = "dirty") then Some dirty
  else if bool_decide (s = "broken") then Some broken
  else if bool_decide (s = "clean") then Some clean
  else None.

(** JSON values as [JSON.parse] builds them. *)
#[warnings="-register-all"]
Inductive json : Type :=
| JNull
| JBool (b : bool)
| JNum (z : Z)
| JStr (s : string)
| JArr (l : list json)
| JObj (fields : list (string * json)).

(** [status] is [undefined] ([None]) for a legacy record that had
    neither flag; [broken_flag] is the legacy property [broken]. *)
Record Record : Type := mkRecord {
  tags : gset string;
  locale : option string;
  status : option Status;
  lastDelivered : option string;
  broken_flag : option json
}.

Abbreviation DB := (gmap string Record).

Definition set_status (st : Status) (r : Record) : Record :=
  mkRecord (tags r) (locale r) (Some st) (lastDelivered r) (broken_flag r).
Definition set_tags (t : gset string) (r : Record) : Record :=
  mkRecord t (locale r) (status r) (lastDelivered r) (broken_flag r).
Definition set_locale (l : string) (r : Record) : Record :=
  mkRecord (tags r) (Some l) (status r) (lastDelivered r) (broken_flag r).
Definition set_lastDelivered (d : string) (r : Record) : Record :=
  mkRecord (tags r) (locale r) (status r) (Some d) (broken_flag r).

(** ** JSON objects: duplicate keys and field access *)

(** [JSON.parse] keeps a key at its first position with the value of
    its last occurrence. *)
Fixpoint assoc_set (k : string) (v : json) (l : list (string * json)) : list (string * json) :=
  match l with
  | [] => [(k, v)]
  | (k', v') :: l' => if bool_decide (k = k') then (k, v) :: l' else (k', v') :: assoc_set k v l'
  end.

Definition json_object (fs : list (string * json)) : list (string * json) :=
  fold_left (fun acc kv => assoc_set kv.1 kv.2 acc) fs [].

Fixpoint assoc_get (k : string) (l : list (string * json)) : option json :=
  match l with
  | [] => None
  | (k', v) :: l' => if bool_decide (k = k') then Some v else assoc_get k l'
  end.

Definition json_field (fs : list (string * json)) (k : string) : option json :=
  assoc_get k (json_object fs).

(** Truthiness of a property value ([None] is [undefined]). *)
Definition truthy_json (v : option json) : bool :=
  match v with
  | None | Some JNull => false
  | Some (JBool b) => b
  | Some (JNum z) => bool_decide (z ≠ 0%Z)
  | Some (JStr s) => bool_decide (s ≠ "")
  | Some (JArr _) | Some (JObj _) => true
  end.

(** ** [save], l. 95-100: [JSON.stringify(this.db, null, 4)] *)

Definition opt_field (k : string) (v : option json) : list (string * json) :=
  match v with Some j => [(k, j)] | None => [] end.

(** Properties whose value is [undefined] are omitted; [tags] is a
    [Set], which [JSON.stringify] writes as [{}]. *)
Definition record_to_json (r : Record) : json :=
  JObj ([("tags", JObj [])]
        ++ opt_field "locale" (JStr <$> locale r)
        ++ opt_field "status" (JStr ∘ status_to_string <$> status r)
        ++ opt_field "lastDelivered" (JStr <$> lastDelivered r)
        ++ opt_field "broken" (broken_flag r)).

Definition db_to_json (db : DB) : json :=
  JObj ((fun kr => (kr.1, record_to_json kr.2)) <$> map_to_list db).

Inductive file : Type := Parsed (j : json) | Corrupt.

(** The two files the program touches: [data/db.json] and its backup
    [data/db.json.tmp]. *)
Record FS : Type := mkFS { db_file : option file; tmp_file : option file }.

(** The outcome of [fs.writeFileSync(DB_FILE, text)]: Node opens the
    file with flag ['w'], which creates and truncates it, then writes
    the text. *)
Inductive write_outcome : Type :=
| Written       (** the whole text is on disk *)
| OpenFailed    (** the open throws (EACCES, EROFS): no file is created *)
| WriteFailed.  (** the open succeeded and the write throws part-way
                    (ENOSPC, EIO): a truncated file is left *)

#[export] Instance write_outcome_eq_dec : EqDecision write_outcome.
Proof. solve_decision. Defined.

(** [if(fs.existsSync(DB_FILE)) fs.renameSync(DB_FILE, DB_FILE.tmp)],
    then [fs.writeFileSync]; a failed write throws with the renamed
    state left behind.  A proper prefix of the text of a JSON object
    is not JSON, so a truncated file is [Corrupt]. *)
Definition save_json (wo : write_outcome) (fs : FS) (j : json) : result FS FS :=
  let fs1 := match db_file fs with
             | Some f => mkFS None (Some f)
             | None => fs
             end in
  match wo with
  | Written => Ok (mkFS (Some (Parsed j)) (tmp_file fs1))
  | OpenFailed => Err fs1
  | WriteFailed => Err (mkFS (Some Corrupt) (tmp_file fs1))
  end.

Definition save (wo : write_outcome) (fs : FS) (db : DB) : result FS FS :=
  save_json wo fs (db_to_json db).

(** ** [load], l. 75-93 *)

Inductive load_error : Type :=
| LoadTypeError (email : string)     (** thrown by the engine *)
| LoadUnsupported (email : string).  (** a JSON shape the code never writes *)

Inductive field_error : Type := KTypeError | KUnsupported.

Fixpoint strings_of (l : list json) : option (list string) :=
  match l with
  | [] => Some []
  | JStr s :: l' => cons s <$> strings_of l'
  | _ :: _ => None
  end.

Definition chars_of (s : string) : list string :=
  (fun c => String c EmptyString) <$> String.list_ascii_of_string s.

(** [new Set(rec.tags)]: [undefined] and [null] give the empty set, an
    array its elements, a string its characters; any other value is
    not iterable and the constructor throws a [TypeError]. *)
Definition new_Set (v : option json) : result field_error (gset string) :=
  match v with
  | None | Some JNull => Ok ∅
  | Some (JArr l) =>
      match strings_of l with Some ss => Ok (list_to_set ss) | None => Err KUnsupported end
  | Some (JStr s) => Ok (list_to_set (chars_of s))
  | Some (JObj _) | Some (JNum _) | Some (JBool _) => Err KTypeError
  end.

Definition str_field (v : option json) : result field_error (option string) :=
  match v with
  | None => Ok None
  | Some (JStr s) => Ok (Some s)
  | Some _ => Err KUnsupported
  end.

Definition status_field (v : option json) : result field_error (option Status) :=
  match v with
  | None => Ok None
  | Some (JStr s) => match status_of_string s with Some st => Ok (Some st) | None => Err KUnsupported end
  | Some _ => Err KUnsupported
  end.

(** One iteration of the loop: [rec.tags = new Set(rec.tags)], then
    [if(rec.broken) status = 'broken' else if(rec.clean) status =
    'clean'], [delete rec.clean], [delete rec.dirty].  A primitive
    [rec] makes the property access or assignment throw (strict mode). *)
Definition record_of_json (v : json) : result field_error Record :=
  match v with
  | JObj fs =>
      t <- new_Set (json_field fs "tags") ;;
      loc <- str_field (json_field fs "locale") ;;
      st <- status_field (json_field fs "status") ;;
      ld <- str_field (json_field fs "lastDelivered") ;;
      let br := json_field fs "broken" in
      Ok (mkRecord t loc
            (if truthy_json br then Some broken
             else if truthy_json (json_field fs "clean") then Some clean else st)
            ld br)
  | JArr _ => Err KUnsupported
  | _ => Err KTypeError
  end.

Fixpoint load_records (l : list (string * json)) (db : DB) : result load_error DB :=
  match l with
  | [] => Ok db
  | (email, v) :: l' =>
      match record_of_json v with
      | Ok r => load_records l' (<[email := r]> db)
      | Err KTypeError => Err (LoadTypeError email)
      | Err KUnsupported => Err (LoadUnsupported email)
      end
  end.

(** A missing or unparsable file gives the empty directory (the
    [try/catch]); the rehydration loop runs outside the [try]. *)
Definition load (f : option file) : result load_error DB :=
  match f with
  | None | Some Corrupt => Ok ∅
  | Some (Parsed (JObj fs)) => load_records (json_object fs) ∅
  | Some (Parsed _) => Err (LoadUnsupported "")
  end.

(** ** Readers *)

(** [totalEmails], l. 252-254 *)
Definition totalEmails (db : DB) : nat := size db.

(** [tags(email)], l. 174-179 *)
Definition db_tags (db : DB) (email : string) : gset string :=
  match db !! email with Some r => tags r | None => ∅ end.

(** [lookupByRegexp(regexp)], l. 102-110, for a pattern in the modelled
    fragment: the records whose address matches. *)
Definition lookupByRegexp {A} (r : Regex.regex) (db : gmap string A) : gmap string A :=
  filter (fun kr => is_Some (Regex.exec r (String.list_ascii_of_string kr.1))) db.

(** ** The persisted form the specification describes *)

(** §4.3 and §6 of the specification: tags are re-flattened to an
    array on save.  This is not what [save] does; it is the contract
    [load] is checked against. *)
Definition record_to_json_spec (r : Record) : json :=
  JObj ([("tags", JArr (JStr <$> elements (tags r)))]
        ++ opt_field "locale" (JStr <$> locale r)
        ++ opt_field "status" (JStr ∘ status_to_string <$> status r)
        ++ opt_field "lastDelivered" (JStr <$> lastDelivered r)
        ++ opt_field "broken" (broken_flag r)).

Definition db_to_json_spec (db : DB) : json :=
  JObj ((fun kr => (kr.1, record_to_json_spec kr.2)) <$> map_to_list db).

(** ** Lemmas on JSON objects *)

Lemma assoc_set_fresh k v l :
  k ∉ l.*1 -> assoc_set k v l = l ++ [(k, v)].
Proof.
  induction l as [|[k' v'] l IH]; intros Hk; simpl; [done|].
  rewrite bool_decide_false by set_solver. rewrite IH by set_solver. done.
Qed.

Lemma fold_assoc_set_nodup acc fs :
  NoDup (acc ++ fs).*1 -> fold_left (fun acc kv => assoc_set kv.1 kv.2 acc) fs acc = acc ++ fs.
Proof.
  revert acc. induction fs as [|[k v] fs IH]; intros acc Hnd; simpl; [by rewrite app_nil_r|].
  rewrite assoc_set_fresh.
  - rewrite IH; [by rewrite <- app_assoc|]. by rewrite <- app_assoc.
  - rewrite fmap_app in Hnd. apply NoDup_app in Hnd as (_ & Hdis & _).
    intros Hk. apply (Hdis k Hk). simpl. set_solver.
Qed.

Lemma json_object_nodup fs : NoDup fs.*1 -> json_object fs = fs.
Proof. intros Hnd. by apply (fold_assoc_set_nodup []). Qed.

Lemma fst_encode_map_to_list {A} (enc : A -> json) (db : gmap string A) :
  ((fun kr => (kr.1, enc kr.2)) <$> map_to_list db).*1 = (map_to_list db).*1.
Proof. rewrite <- list_fmap_compose. by apply list_fmap_ext. Qed.

Lemma status_of_to_string st : status_of_string (status_to_string st) = Some st.
Proof. by destruct st. Qed.

Lemma strings_of_JStr (l : list string) : strings_of (JStr <$> l) = Some l.
Proof. induction l as [|x l IH]; [done|]. rewrite fmap_cons. cbn [strings_of]. by rewrite IH. Qed.

(** Inserting the records of a duplicate-free association list one by
    one builds the map of the list. *)
Lemma fold_insert_union (l : list (string * Record)) (acc : DB) :
  NoDup l.*1 -> fold_left (fun m kr => <[kr.1 := kr.2]> m) l acc = list_to_map l ∪ acc.
Proof.
  revert acc. induction l as [|[k r] l IH]; intros acc Hnd; simpl.
  - by rewrite map_empty_union.
  - apply NoDup_cons in Hnd as [Hk Hnd]. rewrite IH by done.
    rewrite <- insert_union_l, insert_union_r; [done|].
    by apply not_elem_of_list_to_map_1.
Qed.

Lemma load_records_ok (enc : Record -> json) (l : list (string * Record)) (acc : DB) :
  (forall kr, kr ∈ l -> record_of_json (enc kr.2) = Ok kr.2) ->
  load_records ((fun kr => (kr.1, enc kr.2)) <$> l) acc
  = Ok (fold_left (fun m kr => <[kr.1 := kr.2]> m) l acc).
Proof.
  revert acc. induction l as [|[k r] l IH]; intros acc Hdec; simpl; [done|].
  pose proof (Hdec (k, r) ltac:(set_solver)) as Hkr. simpl in Hkr. rewrite Hkr.
  apply IH. intros kr Hin. apply Hdec. set_solver.
Qed.

(** ** Persistence theorems *)

(** C23: the spec's persisted form round-trips through [load]: a
    directory without a truthy legacy [broken] flag, written with tag
    arrays, is loaded back exactly. *)
Theorem load_db_to_json_spec (db : DB) :
  map_Forall (fun _ r => truthy_json (broken_flag r) = false) db ->
  load (Some (Parsed (db_to_json_spec db))) = Ok db.
Proof.
  intros Hflags. unfold load, db_to_json_spec.
  rewrite json_object_nodup by (rewrite fst_encode_map_to_list; apply NoDup_fst_map_to_list).
  rewrite load_records_ok.
  - rewrite fold_insert_union by apply NoDup_fst_map_to_list.
    by rewrite list_to_map_to_list, map_union_empty.
  - intros [k [t loc st ld br]] Hin%elem_of_map_to_list. simpl.
    pose proof (Hflags _ _ Hin) as Hbr. simpl in Hbr.
    destruct loc, st as [st|], ld, br; simpl in *;
      rewrite ?strings_of_JStr, ?list_to_set_elements_L, ?status_of_to_string, ?Hbr; done.
Qed.

(** The first binding [load] rehydrates has [tags] written as [{}]. *)
Lemma load_db_to_json_TypeError (db : DB) :
  db ≠ ∅ ->
  exists email, email ∈ dom db /\ load (Some (Parsed (db_to_json db))) = Err (LoadTypeError email).
Proof.
  intros Hne. unfold load, db_to_json.
  rewrite json_object_nodup by (rewrite fst_encode_map_to_list; apply NoDup_fst_map_to_list).
  destruct (map_to_list db) as [|[k r] l] eqn:E.
  - by apply map_to_list_empty_iff in E.
  - exists k. split.
    + apply elem_of_dom. exists r. apply elem_of_map_to_list. rewrite E. set_solver.
    + simpl. destruct r as [t [loc|] [st|] [ld|] [br|]]; done.
Qed.

(** C1: what [save] writes cannot be loaded: every record's [tags]
    is serialised as [{}], and [new Set({})] throws.  Any non-empty
    directory saved by the program makes the next run's [load] fail
    with a [TypeError] on one of its addresses. *)
Theorem load_after_save_fails (db : DB) :
  db ≠ ∅ ->
  exists email, email ∈ dom db /\ load (Some (Parsed (db_to_json db))) = Err (LoadTypeError email).
Proof. apply load_db_to_json_TypeError. Qed.

(** C19: a failed write after the backup rename loses the data: the
    data file is absent (the open failed) or truncated (the write
    failed part-way), the next run's [load] silently starts from the
    empty directory, and only the [.tmp] backup holds the data.  After
    a truncated write, the next [save] renames the truncated file over
    that backup, whatever its own write does. *)
Theorem save_write_failure (fs : FS) (f : file) (db : DB) (wo : write_outcome) :
  db_file fs = Some f -> wo ≠ Written ->
  exists fs', save wo fs db = Err fs' /\ tmp_file fs' = Some f /\
    db_file fs' = (if decide (wo = OpenFailed) then None else Some Corrupt) /\
    load (db_file fs') = Ok ∅ /\
    (wo = WriteFailed -> forall wo' db',
       tmp_file (match save wo' fs' db' with Ok fs'' | Err fs'' => fs'' end) = Some Corrupt).
Proof.
  intros Hf Hw. unfold save, save_json. rewrite Hf.
  destruct wo; [done| |]; eexists; (split; [reflexivity|]); cbn;
    repeat split; try done; intros _ wo' db'; by destruct wo'.
Qed.

(** A truthy legacy [broken] property decides the status at every
    load, whatever [status] holds, and stays in the record, so it is
    written back by the next save: a record once flagged broken by the
    legacy scripts comes back broken after any status change. *)
Theorem load_legacy_broken (fs : list (string * json)) (r : Record) :
  record_of_json (JObj fs) = Ok r ->
  truthy_json (json_field fs "broken") = true ->
  status r = Some broken /\ broken_flag r = json_field fs "broken".
Proof.
  simpl. intros Hr Hbr.
  destruct (new_Set (json_field fs "tags")); [|done].
  destruct (str_field (json_field fs "locale")); [|done].
  destruct (status_field (json_field fs "status")); [|done].
  destruct (str_field (json_field fs "lastDelivered")); [|done].
  rewrite Hbr in Hr. by injection Hr as <-.
Qed.

End Store.
