(* ===== verification/Query.v ===== *)
(** * Query: [EmailDB.lookup], part_001 l. 112-158

    [lookup({tags, locale, statusOnly, coldDays})] walks [this.db] and
    keeps a record when it passes, in this order, the status gates
    (l. 129-135), the recency gate (l. 137-142), the tag gate
    (l. 144-147) and the locale gate (l. 148-151); a kept entry holds a
    copy of the tags and the resolved locale (l. 152-155).

    [statusOnly] is kept as the string the command line passes
    (l. 348-358 check it only when it is truthy), and [coldDays] as
    the number or the string it is given ([cold_days]): the CLI passes
    the option's text, whose truthiness is that of a string and which
    [d < coldDays] converts with [ToNumber].  The clock is a
    parameter: [days_since d] is [moment().diff(d, 'days')], [None]
    when [d] is not a valid date (the difference is [NaN] and every
    comparison with it is false).  So is [str_to_number s]: [ToNumber]
    of a string, [None] for [NaN], and otherwise the least integer not
    below the value, so that [d < s] holds exactly when [d] is below
    it for an integer [d].

    [admits] is the abstract query of the specification (§4.4), and
    [lookup_spec] proves that [lookup] returns exactly the admitted
    records with their resolved locale. *)

From Stdlib Require Import Ascii ZArith Lia.
From S2P Require Import Prelude Regex Normalizer Store.
Import Normalizer Store.

Module Query.

(** The argument object of [lookup]. *)
Inductive cold_days : Type := ColdNum (z : Z) | ColdStr (s : string).

(** A number is truthy when it is not [0]; a string when it is not
    empty. *)
Definition truthy_cold (c : cold_days) : bool :=
  match c with ColdNum z => negb (Z.eqb z 0) | ColdStr s => bool_decide (s ≠ "") end.

Record query : Type := mkQuery {
  q_tags : gset string;
  q_locale : option string;
  q_statusOnly : option string;
  q_coldDays : option cold_days
}.

(** An entry of the result: [{tags: new Set(recTags), locale:
    calculatedLocale}]. *)
Record result_entry : Type := mkEntry { e_tags : gset string; e_locale : string }.

(** [rec.locale || this.guessEmailLocale(email)], l. 148 *)
Definition calculatedLocale (email : string) (r : Record) : string :=
  if truthy_str (locale r) then default "" (locale r) else guessEmailLocale email.

(** [rec.status === s] for a string [s]; an [undefined] status equals
    no string. *)
Definition status_is (st : option Status) (s : string) : bool :=
  match st with Some st => bool_decide (status_to_string st = s) | None => false end.

Section lookup.
Context (days_since : string -> option Z) (str_to_number : string -> option Z).

(** The number [d < coldDays] compares with. *)
Definition cold_number (c : cold_days) : option Z :=
  match c with ColdNum z => Some z | ColdStr s => str_to_number s end.

(** The conditions under which the loop body runs [continue]. *)
Definition skip_status_only (q : query) (r : Record) : bool :=
  match q_statusOnly q with Some so => negb (status_is (status r) so) | None => false end.

Definition skip_broken (q : query) (r : Record) : bool :=
  match q_statusOnly q with None => true | Some so => bool_decide (so ≠ "broken") end
  && bool_decide (status r = Some broken).

Definition skip_recent (q : query) (r : Record) : bool :=
  match q_coldDays q, lastDelivered r with
  | Some c, Some ld =>
      truthy_cold c && truthy_str (Some ld) &&
      match days_since ld, cold_number c with
      | Some d, Some n => bool_decide (d < n)%Z
      | _, _ => false
      end
  | _, _ => false
  end.

(** [_.intersection(recTags, inputTags).length < tags.size] *)
Definition skip_tags (q : query) (r : Record) : bool :=
  bool_decide (size (tags r ∩ q_tags q) < size (q_tags q)).

Definition skip_locale (q : query) (email : string) (r : Record) : bool :=
  match q_locale q with
  | Some l => bool_decide (calculatedLocale email r ≠ l)
  | None => false
  end.

Definition lookup_one (q : query) (email : string) (r : Record) : option result_entry :=
  if skip_status_only q r then None
  else if skip_broken q r then None
  else if skip_recent q r then None
  else if skip_tags q r then None
  else if skip_locale q email r then None
  else Some (mkEntry (tags r) (calculatedLocale email r)).

Definition lookup (q : query) (db : DB) : gmap string result_entry :=
  map_imap (lookup_one q) db.

(** ** The abstract query of the specification *)

Definition admits (q : query) (email : string) (r : Record) : Prop :=
  (forall so, q_statusOnly q = Some so -> status_to_string <$> status r = Some so) /\
  (status r = Some broken -> q_statusOnly q = Some "broken") /\
  (forall c n ld d, q_coldDays q = Some c -> truthy_cold c = true -> cold_number c = Some n ->
      lastDelivered r = Some ld -> ld ≠ "" -> days_since ld = Some d -> (n <= d)%Z) /\
  q_tags q ⊆ tags r /\
  (forall l, q_locale q = Some l -> calculatedLocale email r = l).

(** ** Gate lemmas *)

Lemma skip_status_only_false q r :
  skip_status_only q r = false <->
  (forall so, q_statusOnly q = Some so -> status_to_string <$> status r = Some so).
Proof.
  unfold skip_status_only, status_is.
  destruct (q_statusOnly q) as [so|], (status r) as [st|]; simpl;
    try case_bool_decide; naive_solver.
Qed.

Lemma skip_broken_false q r :
  skip_broken q r = false <-> (status r = Some broken -> q_statusOnly q = Some "broken").
Proof.
  unfold skip_broken. destruct (q_statusOnly q) as [so|]; simpl;
    repeat case_bool_decide; simpl; naive_solver.
Qed.

Lemma skip_recent_false q r :
  skip_recent q r = false <->
  (forall c n ld d, q_coldDays q = Some c -> truthy_cold c = true -> cold_number c = Some n ->
      lastDelivered r = Some ld -> ld ≠ "" -> days_since ld = Some d -> (n <= d)%Z).
Proof.
  unfold skip_recent.
  destruct (q_coldDays q) as [c|], (lastDelivered r) as [ld|]; simpl; try naive_solver.
  destruct (truthy_cold c) eqn:Hc; simpl; [|split; [intros _ ? ? ? ? [= <-]; congruence|done]].
  destruct (days_since ld) as [d|] eqn:Hd, (cold_number c) as [n|] eqn:Hn;
    simpl; repeat case_bool_decide; simpl; try naive_solver lia.
  split; [done|]. intros Hall.
  specialize (Hall c n ld d eq_refl Hc Hn eq_refl ltac:(done) Hd). lia.
Qed.

(** The tag gate is the superset test. *)
Lemma skip_tags_false q r : skip_tags q r = false <-> q_tags q ⊆ tags r.
Proof.
  unfold skip_tags. rewrite bool_decide_eq_false. split.
  - intros Hsz. assert (Heq : tags r ∩ q_tags q = q_tags q).
    { apply set_subseteq_size_eq; [set_solver|lia]. }
    rewrite <- Heq. set_solver.
  - intros Hsub. replace (tags r ∩ q_tags q) with (q_tags q) by set_solver. lia.
Qed.

Lemma skip_locale_false q email r :
  skip_locale q email r = false <->
  (forall l, q_locale q = Some l -> calculatedLocale email r = l).
Proof.
  unfold skip_locale. destruct (q_locale q) as [l|]; simpl;
    try case_bool_decide; naive_solver.
Qed.

Lemma lookup_one_Some q email r e :
  lookup_one q email r = Some e <->
  admits q email r /\ e = mkEntry (tags r) (calculatedLocale email r).
Proof.
  unfold lookup_one, admits.
  rewrite <- skip_status_only_false, <- skip_broken_false, <- skip_recent_false,
    <- skip_tags_false, <- (skip_locale_false q email).
  destruct (skip_status_only q r), (skip_broken q r), (skip_recent q r),
    (skip_tags q r), (skip_locale q email r); naive_solver.
Qed.

(** ** Refinement *)

Lemma lookup_iff q db email e :
  lookup q db !! email = Some e <->
  exists r, db !! email = Some r /\ admits q email r /\
            e = mkEntry (tags r) (calculatedLocale email r).
Proof.
  unfold lookup. rewrite map_lookup_imap.
  destruct (db !! email) as [r|]; simpl; [rewrite lookup_one_Some|]; naive_solver.
Qed.

(** C3: [lookup] returns exactly the records the specification's
    query admits, each with its tags and its resolved locale. *)
Theorem lookup_spec q db email e :
  lookup q db !! email = Some e <->
  exists r, db !! email = Some r /\ admits q email r /\
            e = mkEntry (tags r) (calculatedLocale email r).
Proof. apply lookup_iff. Qed.

(** A query with no tag, no locale, no status and no recency
    filter returns every record that is not [broken], legacy records
    without a status included. *)
Corollary lookup_default_query db email :
  is_Some (lookup (mkQuery ∅ None None None) db !! email) <->
  exists r, db !! email = Some r /\ status r ≠ Some broken.
Proof.
  unfold is_Some. setoid_rewrite lookup_iff. unfold admits; simpl.
  split.
  - intros (e & r & Hr & (_ & Hb & _) & _). exists r. split; [done|]. naive_solver.
  - intros (r & Hr & Hb). eexists _, r. split; [done|].
    repeat split; try done; try set_solver.
Qed.

(** An explicit [status=broken] query returns only broken
    records, and every broken record passing the other gates. *)
Corollary lookup_broken_only q db email e :
  q_statusOnly q = Some "broken" ->
  lookup q db !! email = Some e ->
  exists r, db !! email = Some r /\ status r = Some broken.
Proof.
  intros Hq (r & Hr & (Hso & _) & _)%lookup_iff. exists r. split; [done|].
  specialize (Hso _ Hq). destruct (status r) as [[]|]; by simplify_eq/=.
Qed.

End lookup.

End Query.
