(* ===== verification/Mutations.v ===== *)
(** * Mutations: [insert], [setStatus], [setLastDelivered], [cleanup]

    part_001 l. 181-281.  Each operation is the loop of the source
    written as a [fold_left] over what the loop iterates: the lines of
    the imported file for [insert], the input list for
    [setLastDelivered], and the keys of [this.db] in for-in order for
    [setStatus] and [cleanup].  For-in order is the insertion order of
    the JS object, which the [gmap] does not record: the loops take
    the key enumeration [ks] as an argument, the theorems hold for any
    duplicate-free enumeration of the keys, and [for_in_keys] is the
    one the command handlers use.

    The operations are stated against the [EmailFilter] interface of
    [Normalizer]; its instance is [filterEmail].  [keys_normal] (every
    key is a normalised address) is the well-formedness of a
    directory; every operation here keeps it. *)

From Stdlib Require Import Ascii ZArith Lia.
From S2P Require Import Prelude Regex Normalizer Store.
Import Normalizer Store.

Module Mutations.

(** A key enumeration of the directory. *)
Definition for_in_keys {A} (db : gmap string A) : list string := (map_to_list db).*1.

(** [{ tags: new Set(), status: 'dirty' }], l. 204-207 *)
Definition fresh_record : Record := mkRecord ∅ None (Some dirty) None None.

Section with_filter.
Context `{!EmailFilter}.

(** ** [insert], l. 181-227 *)

Record counters : Type := mkCounters { inserted : nat; updated : nat }.

(** [res.tags = new Set([ ...res.tags, ...tags ])] and
    [if(locale) res.locale = locale]. *)
Definition merge_record (new_tags : gset string) (loc : option string) (res : Record) : Record :=
  let res1 := set_tags (tags res ∪ new_tags) res in
  if truthy_str loc then set_locale (default "" loc) res1 else res1.

(** The body of the loop for one address: create the record when it
    is absent ([inserted++]), add the tags one by one noting whether
    one was new, then [updated++] when a tag was added or a truthy
    [locale] differs from the stored one, and store the locale. *)
Definition insert_email (new_tags : gset string) (loc : option string)
    (st : DB * counters) (email : string) : DB * counters :=
  let '(db, c) := st in
  let '(res, ins) := match db !! email with
                     | Some r => (r, inserted c)
                     | None => (fresh_record, S (inserted c))
                     end in
  let addedTags := bool_decide (¬ new_tags ⊆ tags res) in
  let upd := if addedTags || (truthy_str loc && bool_decide (loc ≠ locale res))
             then S (updated c) else updated c in
  (<[email := merge_record new_tags loc res]> db, mkCounters ins upd).

(** Lines without an address are skipped ([continue]). *)
Definition insert_line (new_tags : gset string) (loc : option string)
    (st : DB * counters) (line : string) : DB * counters :=
  match normalize line with
  | Some email => insert_email new_tags loc st email
  | None => st
  end.

Definition insert (lines : list string) (new_tags : gset string) (loc : option string)
    (db : DB) : DB * counters :=
  fold_left (insert_line new_tags loc) lines (db, mkCounters 0 0).

(** [fs.readFileSync(filename, 'utf-8').split('\n')] *)
Definition insert_file (content : string) (new_tags : gset string) (loc : option string)
    (db : DB) : DB * counters :=
  insert (js_split newline content) new_tags loc db.

(** ** [setStatus], l. 256-268 *)

Definition setStatus_step (emails : list string) (s : Status)
    (st : DB * nat) (email : string) : DB * nat :=
  let '(db, res) := st in
  match db !! email with
  | Some r =>
      if bool_decide (email ∈ emails) then
        (<[email := set_status s r]> db, if bool_decide (status r ≠ Some s) then S res else res)
      else st
  | None => st
  end.

Definition setStatus_keys (ks : list string) (emails : list string) (s : Status)
    (db : DB) : DB * nat :=
  fold_left (setStatus_step emails s) ks (db, 0).

Definition setStatus (emails : list string) (s : Status) (db : DB) : DB * nat :=
  setStatus_keys (for_in_keys db) emails s db.

(** ** [setLastDelivered], l. 270-281 *)

(** [ts] is [lastDelivered.format()]. *)
Definition setLastDelivered_step (ts : string) (st : DB * nat) (email : string) : DB * nat :=
  let '(db, res) := st in
  match db !! email with
  | Some r => (<[email := set_lastDelivered ts r]> db, S res)
  | None => st
  end.

Definition setLastDelivered (emails : list string) (ts : string) (db : DB) : DB * nat :=
  fold_left (setLastDelivered_step ts) emails (db, 0).

(** ** [cleanup], l. 229-250 *)

Record cleanup_counters : Type := mkCleanup { deleted : nat; fixed : nat }.

(** A key deleted before the for-in loop reaches it is skipped. *)
Definition cleanup_step (st : DB * cleanup_counters) (email : string) : DB * cleanup_counters :=
  let '(db, c) := st in
  match db !! email with
  | None => st
  | Some r =>
      match normalize email with
      | None => (delete email db, mkCleanup (S (deleted c)) (fixed c))
      | Some f =>
          if bool_decide (f = email) then st
          else (delete email (<[f := r]> db), mkCleanup (deleted c) (S (fixed c)))
      end
  end.

Definition cleanup_keys (ks : list string) (db : DB) : DB * cleanup_counters :=
  fold_left cleanup_step ks (db, mkCleanup 0 0).

Definition cleanup (db : DB) : DB * cleanup_counters := cleanup_keys (for_in_keys db) db.

(** ** Properties of [insert] *)

(** An address is settled for a run when its record exists, holds
    the run's tags and, for a truthy locale, the run's locale. *)
Definition settled (T : gset string) (loc : option string) (db : DB) (email : string) : Prop :=
  exists r, db !! email = Some r /\ T ⊆ tags r /\ (truthy_str loc = true -> locale r = loc).

Lemma truthy_str_Some loc : truthy_str loc = true -> loc = Some (default "" loc).
Proof. by destruct loc. Qed.

Lemma insert_email_fst T loc db c email :
  (insert_email T loc (db, c) email).1
  = <[email := merge_record T loc (default fresh_record (db !! email))]> db.
Proof. unfold insert_email. by destruct (db !! email). Qed.

Lemma merge_record_settled T loc r :
  T ⊆ tags r -> (truthy_str loc = true -> locale r = loc) -> merge_record T loc r = r.
Proof.
  intros HT Hloc. destruct r as [t l st ld br]; unfold merge_record, set_tags, set_locale; simpl in *.
  replace (t ∪ T) with t by set_solver.
  destruct (truthy_str loc) eqn:Ht; [|done].
  rewrite (Hloc eq_refl). f_equal. symmetry. by apply truthy_str_Some.
Qed.

Lemma merge_record_settles T loc r :
  T ⊆ tags (merge_record T loc r) /\
  (truthy_str loc = true -> locale (merge_record T loc r) = loc).
Proof.
  unfold merge_record. destruct (truthy_str loc) eqn:Ht; simpl; split; try set_solver.
  intros _. symmetry. by apply truthy_str_Some.
Qed.

Lemma insert_email_settled T loc db c email :
  settled T loc db email -> insert_email T loc (db, c) email = (db, c).
Proof.
  intros (r & Hr & HT & Hloc). apply injective_projections.
  - rewrite insert_email_fst, Hr. simpl. rewrite merge_record_settled by done.
    by apply insert_id.
  - unfold insert_email. rewrite Hr. simpl.
    rewrite (bool_decide_false (¬ T ⊆ tags r)) by tauto.
    destruct (truthy_str loc) eqn:Ht; simpl; [|by destruct c].
    rewrite bool_decide_false by (rewrite Hloc; auto). by destruct c.
Qed.

Lemma insert_email_settles T loc db c email e :
  settled T loc db e \/ e = email -> settled T loc (insert_email T loc (db, c) email).1 e.
Proof.
  rewrite insert_email_fst. unfold settled. intros He.
  destruct (decide (e = email)) as [->|Hne].
  - rewrite lookup_insert_eq. eexists. split; [done|]. apply merge_record_settles.
  - destruct He as [(r & Hr & HT & Hl)|]; [|done].
    rewrite lookup_insert_ne by done. by exists r.
Qed.

Lemma insert_line_settled T loc st line :
  (forall e, normalize line = Some e -> settled T loc st.1 e) ->
  insert_line T loc st line = st.
Proof.
  destruct st as [db c]. unfold insert_line. intros Hs.
  destruct (normalize line) as [e|] eqn:He; [|done]. by apply insert_email_settled, Hs.
Qed.

(** After a run, every address of its lines is settled, and so is
    every address that was settled before. *)
Lemma insert_settles T loc lines st e :
  settled T loc st.1 e \/ Some e ∈ normalize <$> lines ->
  settled T loc (fold_left (insert_line T loc) lines st).1 e.
Proof.
  revert st. induction lines as [|line lines IH]; intros [db c] He; simpl.
  - destruct He as [He|He]; [done|set_solver].
  - apply IH. unfold insert_line. rewrite fmap_cons, elem_of_cons in He.
    destruct (normalize line) as [e'|] eqn:Hl.
    + destruct He as [He|[He|He]]; [left; by apply insert_email_settles; left
                                  |left; apply insert_email_settles; right; congruence
                                  |by right].
    + destruct He as [He|[He|He]]; [by left|done|by right].
Qed.

Lemma insert_all_settled T loc lines st :
  (forall e, Some e ∈ normalize <$> lines -> settled T loc st.1 e) ->
  fold_left (insert_line T loc) lines st = st.
Proof.
  revert st. induction lines as [|line lines IH]; intros st Hall; simpl; [done|].
  rewrite insert_line_settled; [apply IH|]; intros e He; apply Hall; set_solver.
Qed.

(** C4: importing the same file with the same tags and locale a
    second time changes nothing and reports [inserted=0, updated=0]. *)
Theorem insert_idempotent lines T loc db :
  insert lines T loc (insert lines T loc db).1 = ((insert lines T loc db).1, mkCounters 0 0).
Proof.
  unfold insert. apply (insert_all_settled T loc lines (_, _)).
  intros e He. apply insert_settles. by right.
Qed.

(** C18: a new address imported with a non-empty tag set is counted
    both as inserted and as updated, whereas the specification says a
    newly inserted address is never also counted as updated. *)
Theorem insert_new_counted_updated T loc db c email :
  db !! email = None -> T ≠ ∅ ->
  (insert_email T loc (db, c) email).2 = mkCounters (S (inserted c)) (S (updated c)).
Proof.
  intros Hnone HT. unfold insert_email. rewrite Hnone. simpl.
  rewrite bool_decide_true; [done|]. intros Hsub. apply HT. set_solver.
Qed.

(** A run over lines of which one holds an address leaves a
    non-empty directory. *)
Lemma insert_nonempty lines T loc db :
  omap normalize lines ≠ [] -> (insert lines T loc db).1 ≠ ∅.
Proof.
  intros Hne. destruct (omap normalize lines) as [|e es] eqn:Hom; [done|].
  assert (He : Some e ∈ normalize <$> lines).
  { assert (Hin : e ∈ omap normalize lines) by (rewrite Hom; left).
    apply list_elem_of_omap in Hin as (line & Hl & Hn).
    apply list_elem_of_fmap. by exists line. }
  destruct (insert_settles T loc lines (db, mkCounters 0 0) e (or_intror He)) as (r & Hr & _).
  unfold insert. intros Hemp. rewrite Hemp, lookup_empty in Hr. done.
Qed.

Lemma insert_email_size T loc db c email :
  size (insert_email T loc (db, c) email).1 + inserted c
  = size db + inserted (insert_email T loc (db, c) email).2.
Proof.
  unfold insert_email. destruct (db !! email) as [r|] eqn:Hd; simpl.
  - rewrite map_size_insert_Some by (by exists r). lia.
  - rewrite map_size_insert_None by done. lia.
Qed.

Lemma insert_fold_size T loc lines st :
  size (fold_left (insert_line T loc) lines st).1 + inserted st.2
  = size st.1 + inserted (fold_left (insert_line T loc) lines st).2.
Proof.
  revert st. induction lines as [|line lines IH]; intros [db c]; simpl; [lia|].
  specialize (IH (insert_line T loc (db, c) line)).
  assert (size (insert_line T loc (db, c) line).1 + inserted c
          = size db + inserted (insert_line T loc (db, c) line).2).
  { unfold insert_line. destruct (normalize line); [apply insert_email_size|done]. }
  lia.
Qed.

(** [inserted] counts exactly the addresses the run added to
    the directory. *)
Theorem insert_size lines T loc db :
  size (insert lines T loc db).1 = size db + inserted (insert lines T loc db).2.
Proof. pose proof (insert_fold_size T loc lines (db, mkCounters 0 0)). unfold insert. simpl in *. lia. Qed.

(** ** Properties of [setStatus] *)

Lemma set_status_idem s r : set_status s (set_status s r) = set_status s r.
Proof. done. Qed.

Lemma set_status_id s r : status r = Some s -> set_status s r = r.
Proof. destruct r; unfold set_status; simpl. by intros ->. Qed.

Lemma setStatus_step_fst emails s db n email :
  (setStatus_step emails s (db, n) email).1 =
  match db !! email with
  | Some r => if bool_decide (email ∈ emails) then <[email := set_status s r]> db else db
  | None => db
  end.
Proof. unfold setStatus_step. destruct (db !! email); [case_bool_decide|]; done. Qed.

Lemma setStatus_fold_lookup emails s ks db n k :
  (fold_left (setStatus_step emails s) ks (db, n)).1 !! k =
  if bool_decide (k ∈ ks /\ k ∈ emails) then set_status s <$> db !! k else db !! k.
Proof.
  revert db n. induction ks as [|k0 ks IH]; intros db n; cbn [fold_left].
  - rewrite bool_decide_false; [done|set_solver].
  - rewrite (surjective_pairing (setStatus_step _ _ _ _)), IH, setStatus_step_fst.
    destruct (decide (k = k0)) as [->|Hne].
    + destruct (db !! k0) as [r|] eqn:Hr;
        repeat case_bool_decide; simplify_map_eq; rewrite ?Hr; first [done|set_solver].
    + destruct (db !! k0) as [r|] eqn:Hr;
        repeat case_bool_decide; simplify_map_eq; first [done|set_solver].
Qed.

(** The addresses whose status the run changes. *)
Definition status_changes (emails : list string) (s : Status) (db : DB) (k : string) : Prop :=
  k ∈ emails /\ is_Some (db !! k) /\ status <$> db !! k ≠ Some (Some s).

Lemma setStatus_step_snd emails s db n k0 :
  (setStatus_step emails s (db, n) k0).2 =
  n + if decide (status_changes emails s db k0) then 1 else 0.
Proof.
  unfold setStatus_step, status_changes. destruct (db !! k0) as [r|]; simpl.
  - destruct (decide (k0 ∈ emails)) as [Hin|Hin].
    + rewrite bool_decide_true by done. destruct (decide (status r = Some s)) as [Hs|Hs].
      * rewrite bool_decide_false by tauto. rewrite decide_False; [cbn; lia|].
        intros (_ & _ & Hc). apply Hc. by rewrite Hs.
      * rewrite bool_decide_true by done. rewrite decide_True; [cbn; lia|].
        split; [done|]. split; [by eexists|]. by intros [= ?].
    + rewrite bool_decide_false by done. rewrite decide_False; [cbn; lia|]. tauto.
  - rewrite decide_False; [cbn; lia|]. intros (_ & [? ?] & _). done.
Qed.

Lemma setStatus_fold_count emails s ks db n :
  NoDup ks ->
  (fold_left (setStatus_step emails s) ks (db, n)).2 = n + count_if (status_changes emails s db) ks.
Proof.
  revert db n. induction ks as [|k0 ks IH]; intros db n Hnd; cbn [fold_left];
    [by rewrite count_if_nil|].
  apply NoDup_cons in Hnd as [Hk0 Hnd].
  rewrite (surjective_pairing (setStatus_step _ _ _ _)), IH by done.
  rewrite count_if_cons, setStatus_step_snd.
  rewrite (count_if_ext (status_changes emails s (setStatus_step emails s (db, n) k0).1)
                        (status_changes emails s db)); [lia|].
  intros k Hk. rewrite setStatus_step_fst. unfold status_changes.
  assert (k0 ≠ k) by set_solver.
  destruct (db !! k0) as [r|]; [destruct (bool_decide (k0 ∈ emails))|];
    rewrite ?lookup_insert_ne by done; done.
Qed.

Lemma for_in_keys_spec {A} (db : gmap string A) k : k ∈ for_in_keys db <-> is_Some (db !! k).
Proof.
  unfold for_in_keys. rewrite list_elem_of_fmap. split.
  - intros ([k' r] & -> & Hin%elem_of_map_to_list). by exists r.
  - intros [r Hr]. exists (k, r). split; [done|]. by apply elem_of_map_to_list.
Qed.

Lemma for_in_keys_NoDup {A} (db : gmap string A) : NoDup (for_in_keys db).
Proof. apply NoDup_fst_map_to_list. Qed.

Lemma setStatus_lookup emails s db k :
  (setStatus emails s db).1 !! k =
    if bool_decide (k ∈ emails) then set_status s <$> db !! k else db !! k.
Proof.
  unfold setStatus, setStatus_keys. rewrite setStatus_fold_lookup.
  pose proof (for_in_keys_spec db k) as Hks.
  destruct (db !! k) eqn:Hk; repeat case_bool_decide; naive_solver.
Qed.

Lemma setStatus_count emails s db :
  (setStatus emails s db).2 = count_if (status_changes emails s db) (for_in_keys db).
Proof. unfold setStatus, setStatus_keys. by rewrite setStatus_fold_count by apply for_in_keys_NoDup. Qed.

(** C10: [setStatus] sets the status of exactly the listed addresses
    present in the directory and counts those whose status was
    different ([undefined] included). *)
Theorem setStatus_spec emails s db k :
  (setStatus emails s db).1 !! k =
    (if bool_decide (k ∈ emails) then set_status s <$> db !! k else db !! k) /\
  (setStatus emails s db).2 = count_if (status_changes emails s db) (for_in_keys db).
Proof. split; [apply setStatus_lookup|apply setStatus_count]. Qed.

(** Re-applying a status changes nothing and counts nothing. *)
Theorem setStatus_twice emails s db :
  setStatus emails s (setStatus emails s db).1 = ((setStatus emails s db).1, 0).
Proof.
  set (db1 := (setStatus emails s db).1).
  assert (Hdb1 : forall k, db1 !! k =
            if bool_decide (k ∈ emails) then set_status s <$> db !! k else db !! k)
    by (intros k; apply setStatus_lookup).
  apply injective_projections; simpl.
  - apply map_eq. intros k. rewrite setStatus_lookup, Hdb1.
    case_bool_decide; [|done]. destruct (db !! k); [simpl; by rewrite set_status_idem|done].
  - rewrite setStatus_count. apply count_if_zero.
    intros k _ (Hk & [r Hr] & Hst). rewrite Hdb1 in Hr, Hst.
    rewrite bool_decide_true in Hr, Hst by done.
    destruct (db !! k); by simplify_eq/=.
Qed.

(** ** Properties of [setLastDelivered] *)

Lemma setLastDelivered_step_eq ts db n e :
  setLastDelivered_step ts (db, n) e =
  match db !! e with Some r => (<[e := set_lastDelivered ts r]> db, S n) | None => (db, n) end.
Proof. done. Qed.

Lemma setLastDelivered_fold emails ts db n k :
  (fold_left (setLastDelivered_step ts) emails (db, n)).1 !! k =
    (if bool_decide (k ∈ emails) then set_lastDelivered ts <$> db !! k else db !! k) /\
  (fold_left (setLastDelivered_step ts) emails (db, n)).2 =
    n + count_if (fun e => is_Some (db !! e)) emails.
Proof.
  revert db n. induction emails as [|e emails IH]; intros db n; cbn [fold_left].
  - rewrite bool_decide_false by set_solver. split; [done|by rewrite count_if_nil].
  - rewrite setLastDelivered_step_eq, count_if_cons.
    destruct (db !! e) as [r|] eqn:He.
    + destruct (IH (<[e := set_lastDelivered ts r]> db) (S n)) as [IH1 IH2].
      rewrite IH1, IH2. split.
      * destruct (decide (k = e)) as [->|Hne]; simplify_map_eq;
          repeat case_bool_decide; set_solver.
      * rewrite (count_if_ext _ (fun e => is_Some (db !! e))); [rewrite decide_True by (by eexists); cbn; lia|].
        intros x _. destruct (decide (x = e)) as [->|]; simplify_map_eq; naive_solver.
    + destruct (IH db n) as [IH1 IH2]. rewrite IH1, IH2. split.
      * repeat case_bool_decide; try set_solver. destruct (decide (k = e)); subst; [by rewrite He|set_solver].
      * rewrite decide_False by (intros [? ?]; done). cbn. lia.
Qed.

(** C25: [setLastDelivered] stamps every listed address present in
    the directory and counts one per list entry present, so an
    address listed twice is counted twice. *)
Theorem setLastDelivered_spec emails ts db k :
  (setLastDelivered emails ts db).1 !! k =
    (if bool_decide (k ∈ emails) then set_lastDelivered ts <$> db !! k else db !! k) /\
  (setLastDelivered emails ts db).2 = count_if (fun e => is_Some (db !! e)) emails.
Proof. apply setLastDelivered_fold. Qed.

(** ** Properties of [cleanup] *)

Lemma cleanup_step_fst db c email :
  (cleanup_step (db, c) email).1 =
  match db !! email with
  | None => db
  | Some r =>
      match normalize email with
      | None => delete email db
      | Some f => if bool_decide (f = email) then db else delete email (<[f := r]> db)
      end
  end.
Proof. unfold cleanup_step. destruct (db !! email), (normalize email); [case_bool_decide| | |]; done. Qed.

(** Every key is normalised or still to be visited. *)
Definition pending_or_normal (rest : list string) (db : DB) : Prop :=
  forall k r, db !! k = Some r -> normalize k = Some k \/ k ∈ rest.

Lemma cleanup_step_pending email rest db c :
  pending_or_normal (email :: rest) db ->
  pending_or_normal rest (cleanup_step (db, c) email).1.
Proof.
  intros Hinv k r. rewrite cleanup_step_fst.
  destruct (db !! email) as [r0|] eqn:He.
  - destruct (normalize email) as [f|] eqn:Hf; [case_bool_decide as Hfe|].
    + intros Hk. destruct (Hinv _ _ Hk) as [?|Hin%elem_of_cons]; [by left|].
      destruct Hin as [->|]; [left; congruence|by right].
    + destruct (decide (k = email)) as [->|Hne]; [by rewrite lookup_delete_eq|].
      rewrite lookup_delete_ne by done. destruct (decide (k = f)) as [->|Hkf].
      * intros _. left. by eapply normalize_idem.
      * rewrite lookup_insert_ne by done. intros Hk.
        destruct (Hinv _ _ Hk) as [?|[->|?]%elem_of_cons]; [by left|done|by right].
    + destruct (decide (k = email)) as [->|Hne]; [by rewrite lookup_delete_eq|].
      rewrite lookup_delete_ne by done. intros Hk.
      destruct (Hinv _ _ Hk) as [?|[->|?]%elem_of_cons]; [by left|done|by right].
  - intros Hk. destruct (Hinv _ _ Hk) as [?|[->|?]%elem_of_cons]; [by left|congruence|by right].
Qed.

Lemma cleanup_keys_self_normal ks db :
  (forall k, is_Some (db !! k) -> k ∈ ks) ->
  forall k r, (cleanup_keys ks db).1 !! k = Some r -> normalize k = Some k.
Proof.
  intros Hks. unfold cleanup_keys.
  assert (Hinv : pending_or_normal ks (db, mkCleanup 0 0).1)
    by (intros k r Hk; right; apply Hks; by exists r).
  revert Hinv. generalize (db, mkCleanup 0 0). clear Hks.
  induction ks as [|email ks IH]; intros [d c] Hinv k r Hk; simpl in *.
  - destruct (Hinv _ _ Hk) as [?|Hin]; [done|set_solver].
  - eapply IH; [|done]. by apply cleanup_step_pending.
Qed.

(** C8: after [cleanup], every key normalises to itself, whatever
    order the for-in loop visits the keys in. *)
Theorem cleanup_keys_normalized ks db :
  dom db ⊆ list_to_set ks ->
  forall k r, (cleanup_keys ks db).1 !! k = Some r -> normalize k = Some k.
Proof.
  intros Hdom. apply cleanup_keys_self_normal. intros k Hk%elem_of_dom.
  set_solver.
Qed.

(** On a directory whose keys all normalise to themselves, [cleanup]
    changes nothing and reports [deleted=0, fixed=0]. *)
Lemma cleanup_keys_noop ks db :
  (forall k r, db !! k = Some r -> normalize k = Some k) ->
  cleanup_keys ks db = (db, mkCleanup 0 0).
Proof.
  intros Hnorm. unfold cleanup_keys. generalize (mkCleanup 0 0).
  induction ks as [|email ks IH]; intros c; cbn [fold_left]; [done|].
  transitivity (fold_left cleanup_step ks (db, c)); [f_equal|apply IH].
  unfold cleanup_step. destruct (db !! email) as [r|] eqn:He; [|done].
  rewrite (Hnorm _ _ He). cbn. by rewrite bool_decide_true.
Qed.

(** C9: running [cleanup] on its own result is a no-op reporting
    [deleted=0, fixed=0]. *)
Corollary cleanup_twice db : cleanup (cleanup db).1 = ((cleanup db).1, mkCleanup 0 0).
Proof.
  apply cleanup_keys_noop. intros k r. apply cleanup_keys_self_normal.
  intros k' Hk'. by apply for_in_keys_spec.
Qed.

Lemma cleanup_step_snd db c email r :
  db !! email = Some r ->
  (cleanup_step (db, c) email).2 =
    mkCleanup (deleted c + if decide (normalize email = None) then 1 else 0)
              (fixed c + if decide (normalize email ≠ None /\ normalize email ≠ Some email)
                         then 1 else 0).
Proof.
  intros He. unfold cleanup_step. rewrite He.
  destruct (normalize email) as [f|] eqn:Hf; cbn.
  - rewrite decide_False by done. case_bool_decide; subst.
    + rewrite decide_False by tauto. destruct c; cbn; f_equal; lia.
    + rewrite decide_True by (split; [done|congruence]). destruct c; cbn; f_equal; lia.
  - rewrite decide_True, decide_False by tauto. destruct c; cbn; f_equal; lia.
Qed.

Lemma cleanup_step_keeps db c email k :
  k ≠ email -> is_Some (db !! k) -> is_Some ((cleanup_step (db, c) email).1 !! k).
Proof.
  intros Hne Hk. rewrite cleanup_step_fst.
  destruct (db !! email) as [r|]; [|done].
  destruct (normalize email) as [f|]; [case_bool_decide|]; [done| |];
    rewrite lookup_delete_ne by done; [|done].
  destruct (decide (k = f)) as [->|]; [by rewrite lookup_insert_eq|by rewrite lookup_insert_ne].
Qed.

(** When the for-in loop visits each key once, [deleted] counts
    the keys without an address and [fixed] the keys whose address
    differs from the key. *)
Theorem cleanup_keys_counts ks db :
  NoDup ks -> Forall (fun k => is_Some (db !! k)) ks ->
  deleted (cleanup_keys ks db).2 = count_if (fun k => normalize k = None) ks /\
  fixed (cleanup_keys ks db).2 =
    count_if (fun k => normalize k ≠ None /\ normalize k ≠ Some k) ks.
Proof.
  unfold cleanup_keys.
  cut (forall c, NoDup ks -> (forall k, k ∈ ks -> is_Some (db !! k)) ->
         deleted (fold_left cleanup_step ks (db, c)).2
           = deleted c + count_if (fun k => normalize k = None) ks /\
         fixed (fold_left cleanup_step ks (db, c)).2
           = fixed c + count_if (fun k => normalize k ≠ None /\ normalize k ≠ Some k) ks).
  { intros Hc Hnd Hks. apply (Hc (mkCleanup 0 0) Hnd), Forall_forall, Hks. }
  revert db. induction ks as [|email ks IH]; intros db c Hnd Hks; cbn [fold_left].
  - rewrite !count_if_nil. cbn. split; lia.
  - apply NoDup_cons in Hnd as [He Hnd].
    destruct (Hks email ltac:(set_solver)) as [r Hr].
    rewrite (surjective_pairing (cleanup_step _ _)).
    destruct (IH (cleanup_step (db, c) email).1 (cleanup_step (db, c) email).2 Hnd)
      as [IH1 IH2].
    { intros k Hk. apply cleanup_step_keeps; [set_solver|]. apply Hks. set_solver. }
    rewrite IH1, IH2, (cleanup_step_snd _ _ _ _ Hr), !count_if_cons. cbn. split; lia.
Qed.

(** ** Well-formed directories *)

(** Every key of the directory is a normalised address. *)
Definition keys_normal (db : DB) : Prop :=
  forall k r, db !! k = Some r -> normalize k = Some k.

(** Operations that only rewrite the records of existing keys keep
    it. *)
Lemma keys_normal_same_keys db db' :
  (forall k, is_Some (db' !! k) -> is_Some (db !! k)) -> keys_normal db -> keys_normal db'.
Proof. intros Hk Hn k r Hr. destruct (Hk k ltac:(by eexists)) as [r0 Hr0]. by eapply Hn. Qed.

Lemma keys_normal_insert db k r :
  normalize k = Some k -> keys_normal db -> keys_normal (<[k := r]> db).
Proof.
  intros Hk Hn k' r'. destruct (decide (k = k')) as [<-|Hne]; [done|].
  rewrite lookup_insert_ne by done. apply Hn.
Qed.

Lemma insert_keys_normal lines T loc st :
  keys_normal st.1 -> keys_normal (fold_left (insert_line T loc) lines st).1.
Proof.
  revert st. induction lines as [|line lines IH]; intros [db c] Hn; [done|]. cbn [fold_left].
  apply IH. unfold insert_line. destruct (normalize line) as [e|] eqn:He; [|done].
  rewrite insert_email_fst. apply keys_normal_insert; [|done]. by eapply normalize_idem.
Qed.

Lemma setStatus_keys_normal emails s db :
  keys_normal db -> keys_normal (setStatus emails s db).1.
Proof.
  apply keys_normal_same_keys. intros k. rewrite setStatus_lookup.
  case_bool_decide; [by rewrite fmap_is_Some|done].
Qed.

Lemma setLastDelivered_keys_normal emails ts db :
  keys_normal db -> keys_normal (setLastDelivered emails ts db).1.
Proof.
  apply keys_normal_same_keys. intros k. unfold setLastDelivered.
  rewrite (proj1 (setLastDelivered_fold emails ts db 0 k)).
  case_bool_decide; [by rewrite fmap_is_Some|done].
Qed.

Lemma cleanup_keys_normal db : keys_normal (cleanup db).1.
Proof. intros k r. apply cleanup_keys_self_normal. intros k' Hk'. by apply for_in_keys_spec. Qed.

End with_filter.

End Mutations.
