(* ===== verification/Paging.v ===== *)
(** * Paging: [pageAll], part_001 l. 447-471

    [pageAll(mg, fn, limit)] drains a cursor-paginated listing of the
    mail provider:
<<
    let result = []; let url
    while(true) {
        response = url ? await mg.get(url) : await fn({ limit })
        if(response.items.length === 0) break
        result = [ ...result, ...response.items ]
        url = response.paging.next.split('https://api.mailgun.net/v3')[1]
    }
>>
    The provider is explicit: [first_page] is [fn({limit})] and [get]
    is [mg.get]; both may reject.  The [while(true)] loop runs on
    fuel, and [OutOfFuel] is the outcome of a loop that has not
    stopped yet.  [chain] describes a provider whose cursors lead to an
    empty page after finitely many non-empty ones; the theorems say
    that [pageAll] returns exactly the concatenation of such a chain
    once the fuel exceeds its length, that nothing else is ever
    returned, and that a first page whose next link lacks the API base
    makes the loop fetch the first page forever. *)

From Stdlib Require Import Ascii Lia.
From S2P Require Import Prelude Regex Normalizer.
Import Normalizer.

Module Paging.

Record page (A : Type) : Type := mkPage { items : list A; paging_next : string }.
Arguments mkPage {A}. Arguments items {A}. Arguments paging_next {A}.

Record provider (A : Type) : Type := mkProvider {
  first_page : result string (page A);
  get : string -> result string (page A)
}.
Arguments mkProvider {A}. Arguments first_page {A}. Arguments get {A}.

Definition api_base : string := "https://api.mailgun.net/v3".

(** [response.paging.next.split(api_base)[1]]: the piece after the
    first occurrence of the base, [undefined] when there is none. *)
Definition next_url (next : string) : option string := js_split api_base next !! 1.

(** [url ? await mg.get(url) : await fn({ limit })] *)
Definition fetch {A} (p : provider A) (url : option string) : result string (page A) :=
  if truthy_str url then get p (default "" url) else first_page p.

Inductive drain_outcome (A : Type) : Type :=
| Drained (l : list A)
| Failed (e : string)
| OutOfFuel.
Arguments Drained {A}. Arguments Failed {A}. Arguments OutOfFuel {A}.

Fixpoint pageAll_loop {A} (p : provider A) (fuel : nat) (url : option string) (acc : list A)
    : drain_outcome A :=
  match fuel with
  | O => OutOfFuel
  | S fuel' =>
      match fetch p url with
      | Err e => Failed e
      | Ok pg =>
          match items pg with
          | [] => Drained acc
          | _ :: _ => pageAll_loop p fuel' (next_url (paging_next pg)) (acc ++ items pg)
          end
      end
  end.

Definition pageAll {A} (p : provider A) (fuel : nat) : drain_outcome A :=
  pageAll_loop p fuel None [].

(** ** Providers that end *)

(** [chain p url pages]: fetching from [url] and following the next
    links yields the non-empty pages [pages], then an empty page. *)
Inductive chain {A} (p : provider A) : option string -> list (list A) -> Prop :=
| chain_end url pg :
    fetch p url = Ok pg -> items pg = [] -> chain p url []
| chain_step url pg pages :
    fetch p url = Ok pg -> items pg ≠ [] ->
    chain p (next_url (paging_next pg)) pages -> chain p url (items pg :: pages).

Section paging.
Context {A : Type} (p : provider A).

(** C28: on a provider whose cursors end, [pageAll] returns the
    items of all pages in page order once the fuel exceeds the number
    of non-empty pages. *)
Theorem pageAll_chain url pages acc fuel :
  chain p url pages -> length pages < fuel ->
  pageAll_loop p fuel url acc = Drained (acc ++ concat pages).
Proof.
  intros Hc. revert acc fuel.
  induction Hc as [url pg Hf Hi|url pg pages Hf Hi Hc IH]; intros acc [|fuel] Hfuel;
    simpl in *; try lia; rewrite Hf.
  - by rewrite Hi, app_nil_r.
  - destruct (items pg) as [|x xs] eqn:E; [done|].
    rewrite IH by lia. by rewrite app_assoc.
Qed.

(** Whatever [pageAll] returns is the concatenation of a chain:
    it never returns a partial list. *)
Theorem pageAll_sound url acc fuel l :
  pageAll_loop p fuel url acc = Drained l ->
  exists pages, chain p url pages /\ l = acc ++ concat pages.
Proof.
  revert url acc. induction fuel as [|fuel IH]; intros url acc; simpl; [done|].
  destruct (fetch p url) as [pg|e] eqn:Hf; [|done].
  destruct (items pg) as [|x xs] eqn:E.
  - intros [= <-]. exists []. split; [by eapply chain_end|by rewrite app_nil_r].
  - intros (pages & Hc & ->)%IH. exists (items pg :: pages). split.
    + eapply chain_step; [done|by rewrite E|done].
    + by rewrite E, <- app_assoc.
Qed.

(** C29: when the first page is non-empty and its next link does not
    carry the API base (or carries nothing after it), [url] stays
    falsy, the loop fetches the first page again and again and never
    returns, whatever the fuel. *)
Theorem pageAll_diverges pg fuel :
  first_page p = Ok pg -> items pg ≠ [] ->
  truthy_str (next_url (paging_next pg)) = false ->
  pageAll p fuel = OutOfFuel.
Proof.
  intros Hf Hi Hn. unfold pageAll.
  assert (Hloop : forall n url acc, truthy_str url = false ->
                    pageAll_loop p n url acc = OutOfFuel); [|by apply Hloop].
  intros n. induction n as [|n IH]; intros url acc Hu; simpl; [done|].
  unfold fetch. rewrite Hu, Hf.
  destruct (items pg) as [|x xs] eqn:E; [done|]. by apply IH.
Qed.

End paging.

End Paging.
