(* ===== verification/Commands.v ===== *)
(** * Commands: the command-line program, part_001 l. 160-172, 283-299, 301-603

    At start-up the program runs [db.load()] (l. 305), before any
    handler is installed, and then the [commander] action of the
    command it was given.  The actions that change the directory end
    with [db.save()].  The actions that write an email file name it
    with [makeFilename] (l. 360-385).

    [world] is what a run sees: the two directory files of [Store]
    ([data/db.json] and its [.tmp] backup), the email files by name,
    and the clock.  Each action is its own definition ([insert_cmd]
    ... [find_emails_cmd]; [help_cmd] for a command the program does
    not declare); [handle] is commander's dispatch to one of them on
    a loaded directory; [run] is the whole program: load, action,
    save.  An action that
    throws inside its [async] body rejects its promise.  The
    [unhandledRejection] handler rethrows that, and the
    [uncaughtException] handler only logs it, so the action's
    remaining steps, and the save, never run.

    The clock is modelled by [moment]; [moment().format()] (the ISO
    text [setLastDelivered] stores) is a parameter [iso], and so are
    the day difference and [ToNumber] of [Query].  The mail provider
    is modelled by [Paging.provider]. *)

From Stdlib Require Import Ascii ZArith Lia.
From S2P Require Import Prelude Regex Normalizer Store Query Mutations Paging.
Import Regex Normalizer Store Query Mutations Paging.

Module Commands.

(** ** [allTags], l. 160-172 *)

(** What [result[tag]] reads on the object literal [result]: an own
    property, or a property inherited from [Object.prototype]. *)
Inductive jsv : Type :=
| VUndef             (** no property *)
| VNum (n : nat)     (** an own count *)
| VNaN               (** [NaN], what [++] makes of a non-number *)
| VInherited.        (** a method of [Object.prototype], or the prototype itself *)

Definition proto_names : list string :=
  ["constructor"; "hasOwnProperty"; "isPrototypeOf"; "propertyIsEnumerable";
   "toLocaleString"; "toString"; "valueOf"; "__defineGetter__"; "__defineSetter__";
   "__lookupGetter__"; "__lookupSetter__"; "__proto__"].

Definition get_prop (o : gmap string jsv) (t : string) : jsv :=
  match o !! t with
  | Some v => v
  | None => if bool_decide (t ∈ proto_names) then VInherited else VUndef
  end.

Definition truthy_jsv (v : jsv) : bool :=
  match v with VUndef | VNaN | VNum 0 => false | _ => true end.

(** [++] converts with [ToNumber]: a function or an object gives [NaN]. *)
Definition incr (v : jsv) : jsv :=
  match v with VNum n => VNum (S n) | VUndef => VNaN | VNaN | VInherited => VNaN end.

(** [if(!result[tag]) result[tag] = 0; result[tag]++].  Assigning a
    number to [__proto__] goes to its setter, which ignores it. *)
Definition count_tag (o : gmap string jsv) (t : string) : gmap string jsv :=
  let v := get_prop o t in
  let v0 := if truthy_jsv v then v else VNum 0 in
  if bool_decide (t = "__proto__") then o else <[t := incr v0]> o.

(** The outer loop walks the records, the inner one the record's
    tags. *)
Definition allTags (db : DB) : gmap string jsv :=
  foldl (fun o kr => foldl count_tag o (elements (tags kr.2))) ∅ (map_to_list db).

(** The count [allTags] reports for a tag carried by [n] records: an
    ordinary tag reads [n]; a method name of [Object.prototype] reads
    [NaN] for one record and [n - 1] for more, since the first [++]
    turns the inherited function into [NaN]; [__proto__] never
    appears. *)
Definition reported_count (t : string) (n : nat) : option jsv :=
  if bool_decide (t = "__proto__") then None
  else if bool_decide (t ∈ proto_names) then
    match n with 0 => None | 1 => Some VNaN | S m => Some (VNum m) end
  else match n with 0 => None | _ => Some (VNum n) end.

(** ** [emailToString], l. 283-299 *)

(** [`${rec.status}`]: an absent status prints [undefined]. *)
Definition status_text (st : option Status) : string :=
  match st with Some s => status_to_string s | None => "undefined" end.

(** [Array.from(rec.tags)] lists a set in insertion order; the model's
    sets keep no order and list their elements in a fixed order. *)
Definition emailToString (db : DB) (email : string) : string :=
  match db !! email with
  | None => email +:+ ": not found in db"
  | Some r =>
      let l := calculatedLocale email r in
      let loc := if bool_decide (l ≠ "") then l else "?" in
      email +:+ ":" +:+
      (if bool_decide (0 < size (tags r)) then "(" +:+ js_join "," (elements (tags r)) +:+ ")"
       else "") +:+
      "[" +:+ loc +:+ "]" +:+ "(" +:+ status_text (status r) +:+ ")" +:+
      (if truthy_str (lastDelivered r) then "[lastSent:" +:+ default "" (lastDelivered r) +:+ "]"
       else "")
  end.

(** ** [makeFilename], l. 360-385 *)

(** The clock's reading. *)
Record moment : Type := mkMoment {
  year : nat; month : nat; day : nat; hour : nat; minute : nat; second : nat
}.

Fixpoint digits_go (fuel n : nat) (acc : string) : string :=
  match fuel with
  | O => acc
  | S fuel' =>
      let acc' := String (ascii_of_nat (48 + n mod 10)) acc in
      if bool_decide (n < 10) then acc' else digits_go fuel' (n / 10) acc'
  end.

(** The decimal digits of [n]; [n + 1] steps are enough since each
    one divides by ten. *)
Definition digits (n : nat) : string := digits_go (S n) n "".

Definition pad (w : nat) (s : string) : string :=
  String.string_of_list_ascii
    (replicate (w - String.length s) "0"%char ++ String.list_ascii_of_string s).

(** [moment().format('YYYY-MM-DD-HH.MM')]: in moment's format strings
    [MM] is the month, so the last field repeats the month; the minute
    is [mm]. *)
Definition format_stamp (m : moment) : string :=
  pad 4 (digits (year m)) +:+ "-" +:+ pad 2 (digits (month m)) +:+ "-" +:+
  pad 2 (digits (day m)) +:+ "-" +:+ pad 2 (digits (hour m)) +:+ "." +:+
  pad 2 (digits (month m)).

(** The values of the [input] object: arrays, strings, booleans, and
    [undefined] ([== null], skipped). *)
Inductive input_val : Type := IArr (l : list string) | IStr (s : string) | IBool (b : bool) | IUndef.

Definition input_token (kv : string * input_val) : option string :=
  let '(k, v) := kv in
  match v with
  | IUndef => None
  | IArr l => Some (k +:+ "=" +:+ js_join "," l)
  | IStr s => Some (k +:+ "=" +:+ s)
  | IBool b => Some (k +:+ "=" +:+ if b then "true" else "false")
  end.

Definition opt_input (o : option string) : input_val :=
  match o with Some s => IStr s | None => IUndef end.

Definition makeFilename (base : string) (m : moment) (input : list (string * input_val)) : string :=
  base +:+ "/" +:+ js_join "," (format_stamp m :: omap input_token input) +:+ ".txt".

(** ** The program, l. 301-603 *)

(** What a run sees: the directory files, the email files by name,
    and the clock. *)
Record world : Type := mkWorld {
  w_fs : FS;
  w_files : gmap string string;
  w_clock : moment
}.

(** The commands and their arguments as [commander] passes them: the
    repeated [--tag] options as a list, the others as their text.  The
    mail provider's listings are the [download_broken] and
    [update_delivered] arguments; an item of [download_broken] is its
    [address], an event of [update_delivered] is its [recipient] and
    the [format()] text of its timestamp.  [send] composes and mails a
    message and touches no state; it is [Send.send_run].  [CUnknown]
    is a command the program does not declare, or none. *)
Inductive command : Type :=
| CInsert (filename : string) (tags : list string) (locale : option string)
| CQuery (tags : list string) (locale status coldDays : option string)
| CExport (tags : list string) (locale status coldDays : option string)
| CTags
| CCleanup
| CDownloadBroken (unsubscribes bounces complaints : provider string)
| CSetDeliveredNow (filename : string)
| CUpdateDelivered (events : provider (string * string))
| CMarkClean (filename : string)
| CMarkBroken (filename : string)
| CFindEmails (r : regex)
| CUnknown (argv : list string).

(** What an action logs that the tests of the specification look at. *)
Inductive report : Type :=
| RInsert (c : counters)
| RLines (lines : list string) (total : nat)
| RTags (t : gmap string jsv)
| RCleanup (c : cleanup_counters)
| RCount (n : nat)
| RNothing
| RHelp.            (** the usage text *)

(** A finished action: the directory it saves, if it calls
    [db.save()], the email file it writes, if any, and its report. *)
Record output : Type := mkOutput {
  o_db : option DB;
  o_file : option (string * string);
  o_report : report
}.

Inductive outcome : Type :=
| Finished (o : output)
| InvalidStatus    (** [process.exit(1)] on an unknown [--status] *)
| Rejected         (** the action threw: nothing after it runs *)
| Pending.         (** a listing has not been drained yet *)

(** [_.uniq]: the first occurrence of each value, in order. *)
Fixpoint uniq_go (seen : list string) (l : list string) : list string :=
  match l with
  | [] => []
  | x :: l' => if bool_decide (x ∈ seen) then uniq_go seen l' else x :: uniq_go (x :: seen) l'
  end.

Definition uniq (l : list string) : list string := uniq_go [] l.

Definition status_names : list string := ["clean"; "dirty"; "broken"].

(** [status && !['clean', 'dirty', 'broken'].includes(status)] *)
Definition invalid_status (status : option string) : bool :=
  truthy_str status && negb (bool_decide (default "" status ∈ status_names)).

Definition cli_query (tags : list string) (locale status coldDays : option string) : query :=
  mkQuery (list_to_set tags) locale status (ColdStr <$> coldDays).

(** The keys of an object in for-in order. *)
Definition keys {A} (m : gmap string A) : list string := (map_to_list m).*1.

Section handlers.
Context (days_since : string -> option Z) (str_to_number : string -> option Z).
Context (iso : moment -> string) (fuel : nat).

(** [for(const item of response) res += db.setLastDelivered([item.recipient], ts)] *)
Definition update_delivered_step (st : DB * nat) (ev : string * string) : DB * nat :=
  let '(db, res) := st in
  let '(db', n) := setLastDelivered [ev.1] ev.2 db in
  (db', res + n).

Definition update_delivered (events : list (string * string)) (db : DB) : DB * nat :=
  foldl update_delivered_step (db, 0) events.

(** [for(const supressType of ...) emails = [...emails, ...res.map(item => item.address)]] *)
Definition download_all (ps : list (provider string)) : drain_outcome string :=
  foldl (fun acc p =>
           match acc with
           | Drained es =>
               match pageAll p fuel with
               | Drained l => Drained (es ++ l)
               | Failed e => Failed e
               | OutOfFuel => OutOfFuel
               end
           | _ => acc
           end) (Drained []) ps.

Definition drained_or {A} (d : drain_outcome A) (k : list A -> outcome) : outcome :=
  match d with Drained l => k l | Failed _ => Rejected | OutOfFuel => Pending end.

(** The actions, one per [program.command(...).action(...)]. *)

(** [insert <filename>], l. 321-334. *)
Definition insert_cmd (files : gmap string string) (fname : string) (tags : list string)
    (loc : option string) (db : DB) : outcome :=
  match files !! fname with
  | None => Rejected
  | Some text =>
      let '(db', cnt) := insert_file text (list_to_set tags) loc db in
      Finished (mkOutput (Some db') None (RInsert cnt))
  end.

(** [query], l. 336-363: [process.exit(1)] on an unknown status. *)
Definition query_cmd (tags : list string) (loc status cold : option string) (db : DB) : outcome :=
  if invalid_status status then InvalidStatus else
  let res := lookup days_since str_to_number (cli_query tags loc status cold) db in
  Finished (mkOutput None None (RLines (emailToString db <$> keys res) (size res))).

(** [export], l. 393-426. *)
Definition export_cmd (now : moment) (tags : list string) (loc status cold : option string) (db : DB)
    : outcome :=
  if invalid_status status then InvalidStatus else
  let res := lookup days_since str_to_number (cli_query tags loc status cold) db in
  let name := makeFilename "export" now
                [("tags", IArr tags); ("locale", opt_input loc);
                 ("statusOnly", opt_input status); ("coldDays", opt_input cold)] in
  Finished (mkOutput None (Some (name, saveEmailFile (keys res))) RNothing).

(** [tags], l. 428-436. *)
Definition tags_cmd (db : DB) : outcome := Finished (mkOutput None None (RTags (allTags db))).

(** [cleanup], l. 438-445. *)
Definition cleanup_cmd (db : DB) : outcome :=
  let '(db', cnt) := cleanup db in Finished (mkOutput (Some db') None (RCleanup cnt)).

(** [download_broken], l. 473-492: no [db.save()]. *)
Definition download_broken_cmd (now : moment) (p1 p2 p3 : provider string) : outcome :=
  drained_or (download_all [p1; p2; p3]) (fun emails =>
    Finished (mkOutput None
      (Some (makeFilename "downloaded" now [("broken", IBool true)], saveEmailFile emails))
      RNothing)).

(** [set_delivered_now <filename>], l. 494-501. *)
Definition set_delivered_now_cmd (now : moment) (files : gmap string string) (fname : string)
    (db : DB) : outcome :=
  let '(db', n) := setLastDelivered (readEmailFile (files !! fname)) (iso now) db in
  Finished (mkOutput (Some db') None (RCount n)).

(** [update_delivered], l. 503-527. *)
Definition update_delivered_cmd (now : moment) (p : provider (string * string)) (db : DB) : outcome :=
  drained_or (pageAll p fuel) (fun evs =>
    let '(db', n) := update_delivered evs db in
    Finished (mkOutput (Some db')
      (Some (makeFilename "downloaded" now [("delivered", IBool true)],
             saveEmailFile (uniq (evs.*1))))
      (RCount n))).

(** [mark_clean <filename>] (l. 529-537) and [mark_broken <filename>]
    (l. 539-547) differ only in the status. *)
Definition mark_clean_cmd (files : gmap string string) (fname : string) (db : DB) : outcome :=
  let '(db', n) := setStatus (readEmailFile (files !! fname)) clean db in
  Finished (mkOutput (Some db') None (RCount n)).

Definition mark_broken_cmd (files : gmap string string) (fname : string) (db : DB) : outcome :=
  let '(db', n) := setStatus (readEmailFile (files !! fname)) broken db in
  Finished (mkOutput (Some db') None (RCount n)).

(** [find_emails <regexp>], l. 549-557. *)
Definition find_emails_cmd (r : regex) (db : DB) : outcome :=
  let res := lookupByRegexp r db in
  Finished (mkOutput None None (RLines (emailToString db <$> keys res) (size res))).

(** [program.on('command:*', () => program.help())] and, without a
    command, [program.outputHelp()], l. 595-604: the usage text, no
    [db.save()]. *)
Definition help_cmd : outcome := Finished (mkOutput None None RHelp).

(** The action commander dispatches [c] to. *)
Definition handle (now : moment) (files : gmap string string) (c : command) (db : DB) : outcome :=
  match c with
  | CInsert fname tags loc => insert_cmd files fname tags loc db
  | CQuery tags loc status cold => query_cmd tags loc status cold db
  | CExport tags loc status cold => export_cmd now tags loc status cold db
  | CTags => tags_cmd db
  | CCleanup => cleanup_cmd db
  | CDownloadBroken p1 p2 p3 => download_broken_cmd now p1 p2 p3
  | CSetDeliveredNow fname => set_delivered_now_cmd now files fname db
  | CUpdateDelivered p => update_delivered_cmd now p db
  | CMarkClean fname => mark_clean_cmd files fname db
  | CMarkBroken fname => mark_broken_cmd files fname db
  | CFindEmails r => find_emails_cmd r db
  | CUnknown _ => help_cmd
  end.

Inductive run_error : Type :=
| StartupCrash (e : load_error)   (** [db.load()] threw before any action *)
| InvalidStatusExit
| ActionRejected
| ActionPending
| SaveFailed (w : world).         (** [db.save()] threw after the rename *)

Definition write_file (f : option (string * string)) (files : gmap string string)
    : gmap string string :=
  match f with Some (n, t) => <[n := t]> files | None => files end.

(** One run of the program on [c]; [wo] is the outcome of the
    write in [db.save()]. *)
Definition run (wo : write_outcome) (w : world) (c : command) : result run_error (world * report) :=
  match load (db_file (w_fs w)) with
  | Err e => Err (StartupCrash e)
  | Ok db =>
      match handle (w_clock w) (w_files w) c db with
      | InvalidStatus => Err InvalidStatusExit
      | Rejected => Err ActionRejected
      | Pending => Err ActionPending
      | Finished o =>
          let files := write_file (o_file o) (w_files w) in
          match o_db o with
          | None => Ok (mkWorld (w_fs w) files (w_clock w), o_report o)
          | Some db' =>
              match save wo (w_fs w) db' with
              | Ok fs' => Ok (mkWorld fs' files (w_clock w), o_report o)
              | Err fs' => Err (SaveFailed (mkWorld fs' files (w_clock w)))
              end
          end
      end
  end.

End handlers.

(** ** Properties of [allTags] *)

Lemma count_tag_step o t t' n :
  o !! t = reported_count t n ->
  count_tag o t' !! t = reported_count t (n + if decide (t' = t) then 1 else 0).
Proof.
  intros Ho. unfold count_tag, get_prop.
  destruct (decide (t' = t)) as [<-|Hne].
  - rewrite Ho. unfold reported_count in *.
    case_bool_decide as Hp; [by rewrite Ho|]. rewrite lookup_insert.
    case_bool_decide as Hin; destruct n as [|[|n]]; simpl; rewrite ?Hin; try done;
      repeat case_bool_decide; try done; rewrite decide_True by done; repeat f_equal; lia.
  - rewrite Nat.add_0_r. case_bool_decide; [done|]. by rewrite lookup_insert_ne.
Qed.

Lemma foldl_count_tag o l t n :
  o !! t = reported_count t n ->
  foldl count_tag o l !! t = reported_count t (n + count_if (fun x => x = t) l).
Proof.
  revert o n. induction l as [|x l IH]; intros o n Ho; simpl.
  - by rewrite Nat.add_0_r.
  - rewrite (IH _ _ (count_tag_step o t x n Ho)), count_if_cons. f_equal. lia.
Qed.

Lemma foldl_allTags o (L : list (string * Record)) t n :
  o !! t = reported_count t n ->
  foldl (fun o kr => foldl count_tag o (elements (tags kr.2))) o L !! t =
    reported_count t (n + count_if (fun kr => t ∈ tags kr.2) L).
Proof.
  revert o n. induction L as [|[k r] L IH]; intros o n Ho; simpl.
  - by rewrite Nat.add_0_r.
  - rewrite (IH _ _ (foldl_count_tag _ _ _ _ Ho)), count_if_cons, count_if_eq_NoDup
      by apply NoDup_elements.
    f_equal. simpl. case_bool_decide as Hin; rewrite elem_of_elements in Hin;
      case_decide; first [lia | done].
Qed.


(** C26: what the [tags] command prints for a tag [t] is the number of
    addresses whose record carries [t], as [reported_count] reads it:
    the count itself for an ordinary tag, but [NaN] or one less for a
    tag named like a method of [Object.prototype] (e.g. [constructor]),
    and nothing for [__proto__]. *)
Theorem allTags_spec db t :
  allTags db !! t = reported_count t (size (filter (fun kr : string * Record => t ∈ tags kr.2) db)).
Proof.
  unfold allTags. rewrite size_map_filter.
  rewrite (foldl_allTags ∅ _ t 0); [done|].
  unfold reported_count. by repeat case_bool_decide.
Qed.

(** ** Properties of [update_delivered] *)

(** The timestamp of the last event for [k] in listing order. *)
Fixpoint last_ts (k : string) (evs : list (string * string)) : option string :=
  match evs with
  | [] => None
  | ev :: evs' =>
      match last_ts k evs' with
      | Some ts => Some ts
      | None => if bool_decide (ev.1 = k) then Some ev.2 else None
      end
  end.

Lemma set_lastDelivered_twice ts ts' r :
  set_lastDelivered ts (set_lastDelivered ts' r) = set_lastDelivered ts r.
Proof. by destruct r. Qed.

Lemma update_delivered_step_lookup db c ev k :
  (update_delivered_step (db, c) ev).1 !! k =
    if bool_decide (ev.1 = k) then set_lastDelivered ev.2 <$> db !! k else db !! k.
Proof.
  destruct ev as [e ts]. unfold update_delivered_step, setLastDelivered, setLastDelivered_step.
  cbn. destruct (db !! e) as [r|] eqn:He; cbn; case_bool_decide as Hek;
    try (subst; rewrite ?lookup_insert_eq, ?He; done).
  by rewrite lookup_insert_ne.
Qed.

Lemma update_delivered_step_count db c ev :
  (update_delivered_step (db, c) ev).2 = c + if decide (is_Some (db !! ev.1)) then 1 else 0.
Proof.
  destruct ev as [e ts]. unfold update_delivered_step, setLastDelivered, setLastDelivered_step.
  cbn. destruct (db !! e) as [r|] eqn:He; cbn; case_decide as Hs; try done;
    first [exfalso; by apply Hs | by destruct Hs].
Qed.

Lemma update_delivered_step_dom db c ev k :
  is_Some ((update_delivered_step (db, c) ev).1 !! k) <-> is_Some (db !! k).
Proof.
  rewrite update_delivered_step_lookup. case_bool_decide; [|done].
  by rewrite fmap_is_Some.
Qed.

Lemma update_delivered_fold_lookup evs db c k :
  (foldl update_delivered_step (db, c) evs).1 !! k =
    match last_ts k evs with Some ts => set_lastDelivered ts <$> db !! k | None => db !! k end.
Proof.
  revert db c. induction evs as [|ev evs IH]; intros db c; cbn [foldl last_ts]; [done|].
  destruct (update_delivered_step (db, c) ev) as [db1 c1] eqn:E1.
  rewrite IH. pose proof (update_delivered_step_lookup db c ev k) as Hl. rewrite E1 in Hl.
  simpl in Hl. rewrite Hl.
  destruct (last_ts k evs); case_bool_decide; try done.
  rewrite <- option_fmap_compose. apply option_fmap_ext. intros r. apply set_lastDelivered_twice.
Qed.

Lemma update_delivered_fold_count evs db c :
  (foldl update_delivered_step (db, c) evs).2 = c + count_if (fun ev => is_Some (db !! ev.1)) evs.
Proof.
  revert db c. induction evs as [|ev evs IH]; intros db c; cbn [foldl]; [rewrite count_if_nil; simpl; lia|].
  destruct (update_delivered_step (db, c) ev) as [db1 c1] eqn:E1.
  rewrite IH, count_if_cons.
  pose proof (update_delivered_step_count db c ev) as Hc. rewrite E1 in Hc. simpl in Hc.
  rewrite (count_if_ext _ (fun ev => is_Some (db !! ev.1))).
  - lia.
  - intros x _. pose proof (update_delivered_step_dom db c ev x.1) as Hd. by rewrite E1 in Hd.
Qed.

(** C24: [update_delivered] leaves on each address the timestamp of
    its last delivery event in the provider's listing order, whatever
    the timestamps are (a listing that is not in increasing time order
    leaves an older delivery than the latest), and counts every event
    whose recipient is in the directory, repeated recipients included. *)
Theorem update_delivered_spec evs db k :
  (update_delivered evs db).1 !! k =
    match last_ts k evs with Some ts => set_lastDelivered ts <$> db !! k | None => db !! k end /\
  (update_delivered evs db).2 = count_if (fun ev => is_Some (db !! ev.1)) evs.
Proof.
  unfold update_delivered. split; [apply update_delivered_fold_lookup|].
  apply update_delivered_fold_count.
Qed.

(** ** Well-formedness of the saved directory *)

Lemma update_delivered_keys_normal evs db :
  keys_normal db -> keys_normal (update_delivered evs db).1.
Proof.
  apply keys_normal_same_keys. intros k. unfold update_delivered.
  rewrite update_delivered_fold_lookup. destruct (last_ts k evs); [by rewrite fmap_is_Some|done].
Qed.

(** Every action that saves a directory keeps its keys normalised
    addresses. *)
Lemma handle_keys_normal ds sn iso fuel now files c db o db' :
  keys_normal db -> handle ds sn iso fuel now files c db = Finished o -> o_db o = Some db' ->
  keys_normal db'.
Proof.
  intros Hn Hh Ho. destruct c; cbn in Hh;
    unfold insert_cmd, query_cmd, export_cmd, tags_cmd, cleanup_cmd, download_broken_cmd,
      set_delivered_now_cmd, update_delivered_cmd, mark_clean_cmd, mark_broken_cmd,
      find_emails_cmd, help_cmd, drained_or in Hh;
    repeat match type of Hh with
    | context [match ?x with _ => _ end] => destruct x eqn:?
    end; simplify_eq/=.
  all: try match goal with H : ?e = (?d, _) |- keys_normal ?d => replace d with e.1 by (by rewrite H) end.
  all: unfold insert_file, insert;
    first [apply insert_keys_normal | apply cleanup_keys_normal | apply setLastDelivered_keys_normal
          | apply update_delivered_keys_normal | apply setStatus_keys_normal]; done.
Qed.

(** ** Whole runs *)

Section runs.
Context (days_since str_to_number : string -> option Z) (iso : moment -> string) (fuel : nat).

Lemma readEmailFile_normalize text :
  readEmailFile (Some text) = omap normalize (js_split newline text).
Proof. reflexivity. Qed.

(** C2: on a fresh installation (no [data/db.json]), the first
    [insert] of a file holding an address succeeds and saves, and
    from then on every run of the program, whatever its command,
    crashes at start-up in [db.load()] with a [TypeError]. *)
Theorem first_insert_then_crash w fname text T loc wo c :
  db_file (w_fs w) = None -> w_files w !! fname = Some text ->
  readEmailFile (Some text) ≠ [] ->
  exists w' rep, run days_since str_to_number iso fuel Written w (CInsert fname T loc) = Ok (w', rep) /\
    exists e, run days_since str_to_number iso fuel wo w' c = Err (StartupCrash (LoadTypeError e)).
Proof.
  intros Hdb Hf Hne. unfold run at 1. rewrite Hdb. cbn [load handle]. unfold insert_cmd. rewrite Hf.
  pose proof (insert_nonempty (js_split newline text) (list_to_set T) loc ∅) as Hnz.
  rewrite <- readEmailFile_normalize in Hnz. specialize (Hnz Hne).
  unfold insert_file. destruct (insert (js_split newline text) (list_to_set T) loc ∅) as [db' cnt].
  simpl in Hnz. cbn. unfold save, save_json. rewrite Hdb.
  eexists _, _. split; [reflexivity|].
  destruct (load_db_to_json_TypeError db' Hnz) as (e & _ & He).
  exists e. unfold run. cbn [w_fs db_file]. by rewrite He.
Qed.

End runs.

End Commands.
