(* ===== verification/Legacy.v ===== *)
(** * Legacy: the flag-based iterations and their migration

    Three earlier versions of the program keep the same directory
    with boolean flags in place of a status:
    - src/src/cli.js, whose [lookup] (l. 62-88) filters on tags and
      locale only;
    - src/unnamed/part_002, which adds [broken] and [clean] flags,
      [lookup] with [cleanOnly]/[dirtyOnly] (l. 66-105),
      [markAsBroken] (l. 200-210) and [markAsClean] (l. 211-221);
    - the first script of src/unnamed/part_000, with the same [lookup]
      (l. 78-117), a [markAsBroken] that also counts only newly broken
      addresses (l. 212-224), and a [markAsClean] that deletes the
      [broken] flag (l. 225-236).
    Their [insert] and [cleanup] are those of [Mutations].

    A flag absent from a record reads as [false], as its truthiness
    does.  [migrate] is what part_001's [load] makes of a legacy
    record: [legacy_json] is the record in the JSON shape the legacy
    data had (tags as an array), and [load_legacy] shows that [load]
    turns it into [migrate].  The refinement theorems compare the
    legacy queries with part_001's [lookup] on the migrated directory. *)

From Stdlib Require Import Ascii ZArith Lia.
From S2P Require Import Prelude Regex Normalizer Store Query Mutations.
Import Normalizer Store Query Mutations.

Module Legacy.

Record LRecord : Type := mkLRecord {
  l_tags : gset string;
  l_locale : option string;
  l_broken : bool;
  l_clean : bool
}.

Abbreviation LDB := (gmap string LRecord).

(** [rec.locale || this.guessEmailLocale(email)] *)
Definition l_calculatedLocale (email : string) (r : LRecord) : string :=
  if truthy_str (l_locale r) then default "" (l_locale r) else guessEmailLocale email.

(** ** [lookup] *)

(** cli.js l. 62-88: the tag gate, then the locale gate. *)
Definition cli_lookup_one (T : gset string) (loc : option string) (email : string) (r : LRecord)
    : option result_entry :=
  if bool_decide (size (l_tags r ∩ T) < size T) then None
  else if match loc with
          | Some l => bool_decide (l_calculatedLocale email r ≠ l)
          | None => false
          end then None
  else Some (mkEntry (l_tags r) (l_calculatedLocale email r)).

Definition cli_lookup (T : gset string) (loc : option string) (db : LDB) : gmap string result_entry :=
  map_imap (cli_lookup_one T loc) db.

(** part_002 l. 66-105 and part_000 l. 78-117: the flag gates come
    first. *)
Definition flag_lookup_one (cleanOnly dirtyOnly : bool) (T : gset string) (loc : option string)
    (email : string) (r : LRecord) : option result_entry :=
  if l_broken r then None
  else if negb (l_clean r) && cleanOnly then None
  else if l_clean r && dirtyOnly then None
  else cli_lookup_one T loc email r.

Definition flag_lookup (cleanOnly dirtyOnly : bool) (T : gset string) (loc : option string)
    (db : LDB) : gmap string result_entry :=
  map_imap (flag_lookup_one cleanOnly dirtyOnly T loc) db.

(** ** [markAsBroken] and [markAsClean] *)

Definition set_broken (b : bool) (r : LRecord) : LRecord :=
  mkLRecord (l_tags r) (l_locale r) b (l_clean r).
Definition set_clean (c : bool) (r : LRecord) : LRecord :=
  mkLRecord (l_tags r) (l_locale r) (l_broken r) c.

(** part_000 l. 212-224: [if(emails.includes(email)) { if(!rec.broken)
    res++; rec.broken = true }] *)
Definition markAsBroken0_step (emails : list string) (st : LDB * nat) (email : string) : LDB * nat :=
  let '(db, res) := st in
  match db !! email with
  | Some r =>
      if bool_decide (email ∈ emails)
      then (<[email := set_broken true r]> db, if l_broken r then res else S res)
      else st
  | None => st
  end.

(** part_002 l. 200-210: [if(!rec.broken && emails.includes(email))
    { res++; rec.broken = true }] *)
Definition markAsBroken2_step (emails : list string) (st : LDB * nat) (email : string) : LDB * nat :=
  let '(db, res) := st in
  match db !! email with
  | Some r =>
      if negb (l_broken r) && bool_decide (email ∈ emails)
      then (<[email := set_broken true r]> db, S res)
      else st
  | None => st
  end.

(** part_000 l. 225-236: [if(!rec.clean && emails.includes(email))
    { res++; rec.clean = true; delete rec.broken }] *)
Definition markAsClean0_step (emails : list string) (st : LDB * nat) (email : string) : LDB * nat :=
  let '(db, res) := st in
  match db !! email with
  | Some r =>
      if negb (l_clean r) && bool_decide (email ∈ emails)
      then (<[email := set_broken false (set_clean true r)]> db, S res)
      else st
  | None => st
  end.

(** part_002 l. 211-221: the same without [delete rec.broken]. *)
Definition markAsClean2_step (emails : list string) (st : LDB * nat) (email : string) : LDB * nat :=
  let '(db, res) := st in
  match db !! email with
  | Some r =>
      if negb (l_clean r) && bool_decide (email ∈ emails)
      then (<[email := set_clean true r]> db, S res)
      else st
  | None => st
  end.

(** The for-in loops over the directory's keys. *)
Definition mark (step : list string -> LDB * nat -> string -> LDB * nat)
    (emails : list string) (db : LDB) : LDB * nat :=
  fold_left (step emails) (map_to_list db).*1 (db, 0).

(** ** Migration by part_001's [load] *)

(** The legacy record as the legacy data held it. *)
Definition legacy_json (r : LRecord) : json :=
  JObj ([("tags", JArr (JStr <$> elements (l_tags r)))] ++
        opt_field "locale" (JStr <$> l_locale r) ++
        (if l_broken r then [("broken", JBool true)] else []) ++
        (if l_clean r then [("clean", JBool true)] else [])).

(** What [load] makes of it: [broken] wins over [clean], a record
    with neither flag gets no status, and the [broken] flag stays. *)
Definition migrate (r : LRecord) : Record :=
  mkRecord (l_tags r) (l_locale r)
    (if l_broken r then Some broken else if l_clean r then Some clean else None)
    None (if l_broken r then Some (JBool true) else None).

(** The legacy directory as the legacy data held it. *)
Definition ldb_json (db : LDB) : json :=
  JObj ((fun kr => (kr.1, legacy_json kr.2)) <$> map_to_list db).

(** ** Migration lemmas *)

Lemma load_legacy r : record_of_json (legacy_json r) = Ok (migrate r).
Proof.
  destruct r as [T loc b c]. unfold legacy_json, migrate. cbn [l_tags l_locale l_broken l_clean].
  destruct loc, b, c; unfold record_of_json, json_field, json_object; simpl;
    rewrite strings_of_JStr; simpl; by rewrite list_to_set_elements_L.
Qed.

Lemma load_records_legacy (l : list (string * LRecord)) (acc : DB) :
  load_records ((fun kr => (kr.1, legacy_json kr.2)) <$> l) acc =
  Ok (fold_left (fun m kr => <[kr.1 := kr.2]> m) (prod_map id migrate <$> l) acc).
Proof.
  revert acc. induction l as [|[k r] l IH]; intros acc; [done|].
  cbn [fmap list_fmap load_records fst snd]. rewrite load_legacy. apply IH.
Qed.

Lemma fst_prod_map_migrate (l : list (string * LRecord)) :
  (prod_map id migrate <$> l).*1 = l.*1.
Proof. rewrite <- list_fmap_compose. by apply list_fmap_ext. Qed.

Lemma map_imap_fmap {A B C} (f : string -> B -> option C) (g : A -> B) (m : gmap string A) :
  map_imap f (g <$> m) = map_imap (fun k x => f k (g x)) m.
Proof.
  apply map_eq. intros k. rewrite !map_lookup_imap, lookup_fmap.
  by destruct (m !! k).
Qed.

(** The step of the query over a migrated record, when the query has
    no [coldDays]: the recency gate never applies. *)
Lemma skip_recent_migrate ds sn T loc so r :
  skip_recent ds sn (mkQuery T loc so None) (migrate r) = false.
Proof. done. Qed.

Lemma lookup_one_migrate_default ds sn T loc email r :
  lookup_one ds sn (mkQuery T loc None None) email (migrate r) =
  flag_lookup_one false false T loc email r.
Proof.
  destruct r as [t l b c]. unfold lookup_one, flag_lookup_one, cli_lookup_one.
  rewrite skip_recent_migrate.
  destruct b, c; cbn; try done; destruct loc; done.
Qed.

Lemma lookup_one_migrate_clean ds sn T loc email r :
  lookup_one ds sn (mkQuery T loc (Some "clean") None) email (migrate r) =
  flag_lookup_one true false T loc email r.
Proof.
  destruct r as [t l b c]. unfold lookup_one, flag_lookup_one, cli_lookup_one.
  rewrite skip_recent_migrate.
  destruct b, c; cbn; try done; destruct loc; done.
Qed.

(** A property of one key that every step keeps holds after the
    whole loop. *)
Lemma mark_preserves step emails db e (P : option LRecord -> Prop) :
  (forall st email, P (st.1 !! e) -> P ((step emails st email).1 !! e)) ->
  P (db !! e) -> P ((mark step emails db).1 !! e).
Proof.
  intros Hstep. unfold mark. change db with (db, 0).1 at 1.
  generalize (db, 0). generalize (map_to_list db).*1.
  intros ks. induction ks as [|k ks IH]; intros st Hst; [done|]. apply IH, Hstep, Hst.
Qed.

Lemma markAsBroken_steps_agree emails st email :
  markAsBroken0_step emails st email = markAsBroken2_step emails st email.
Proof.
  destruct st as [db res]. unfold markAsBroken0_step, markAsBroken2_step.
  destruct (db !! email) as [[t l [] c]|] eqn:He; simpl; [|done|done].
  case_bool_decide; [|done]. f_equal. apply insert_id. by rewrite He.
Qed.

(** ** Theorems *)

(** C33: part_001's [load] migrates a legacy directory written in the
    legacy JSON shape into [migrate] of each record. *)
Theorem load_legacy_db (db : LDB) :
  load (Some (Parsed (ldb_json db))) = Ok (migrate <$> db).
Proof.
  unfold load, ldb_json.
  assert (Hfst : ((fun kr => (kr.1, legacy_json kr.2)) <$> map_to_list db).*1 = (map_to_list db).*1).
  { rewrite <- list_fmap_compose. by apply list_fmap_ext. }
  rewrite json_object_nodup by (rewrite Hfst; apply NoDup_fst_map_to_list).
  rewrite load_records_legacy, fold_insert_union
    by (rewrite fst_prod_map_migrate; apply NoDup_fst_map_to_list).
  by rewrite map_union_empty, list_to_map_fmap, list_to_map_to_list.
Qed.

(** C34: on a migrated directory, part_001's [lookup] without a status
    answers as the legacy [lookup] without flags, and with
    [status=clean] as the legacy [lookup] with [cleanOnly]. *)
Theorem lookup_refines_flag_lookup ds sn T loc (db : LDB) :
  lookup ds sn (mkQuery T loc None None) (migrate <$> db) = flag_lookup false false T loc db /\
  lookup ds sn (mkQuery T loc (Some "clean") None) (migrate <$> db) = flag_lookup true false T loc db.
Proof.
  unfold lookup, flag_lookup. rewrite !map_imap_fmap.
  split; apply map_imap_ext; intros k; destruct (db !! k) as [r|]; simpl; try done; f_equal.
  - apply lookup_one_migrate_default.
  - apply lookup_one_migrate_clean.
Qed.

(** C35: no migrated record has the status [dirty]: the legacy
    [--dirty-only] query, which returned every unflagged record, has no
    counterpart, and [--status dirty] on a migrated directory returns
    nothing. *)
Theorem dirty_query_after_migration ds sn T loc c (db : LDB) :
  lookup ds sn (mkQuery T loc (Some "dirty") c) (migrate <$> db) = ∅.
Proof.
  apply map_eq. intros k. unfold lookup. rewrite map_lookup_imap, lookup_fmap, lookup_empty.
  destruct (db !! k) as [[t l b cl]|]; [|done]. simpl.
  unfold lookup_one, skip_status_only. simpl. by destruct b, cl.
Qed.

(** The two versions of [markAsBroken] agree: part_000's, which
    sets the flag on every listed address and counts the newly broken
    ones, and part_002's, which touches only the unbroken ones. *)
Theorem markAsBroken_versions_agree emails db :
  mark markAsBroken0_step emails db = mark markAsBroken2_step emails db.
Proof.
  unfold mark. generalize (db, 0). generalize (map_to_list db).*1 as ks.
  induction ks as [|k ks IH]; intros st; [done|]. simpl. by rewrite markAsBroken_steps_agree.
Qed.

(** C36: neither legacy [markAsClean] can bring back a broken address:
    part_002's never clears the [broken] flag, and part_000's, which
    does, skips a record already flagged clean, so an address marked
    clean, then broken, stays broken. *)
Theorem markAsClean_keeps_broken emails db e r :
  l_broken <$> (mark markAsClean2_step emails db).1 !! e = l_broken <$> db !! e /\
  (db !! e = Some r -> l_clean r = true -> (mark markAsClean0_step emails db).1 !! e = Some r).
Proof.
  split.
  - apply (mark_preserves _ _ _ _ (fun o => l_broken <$> o = l_broken <$> db !! e)); [|done].
    intros [st res] email Hst. unfold markAsClean2_step. simpl.
    destruct (st !! email) as [r'|] eqn:Hr; [|done].
    destruct (negb (l_clean r') && bool_decide (email ∈ emails)); [|done]. simpl.
    destruct (decide (email = e)) as [<-|Hne].
    + simpl in Hst. rewrite Hr in Hst. rewrite lookup_insert_eq, <- Hst. done.
    + by rewrite lookup_insert_ne.
  - intros He Hc. apply (mark_preserves _ _ _ _ (fun o => o = Some r)); [|done].
    intros [st res] email Hst. unfold markAsClean0_step. simpl in Hst |- *.
    destruct (st !! email) as [r'|] eqn:Hr; [|done].
    destruct (decide (email = e)) as [<-|Hne].
    + rewrite Hst in Hr. injection Hr as <-. by rewrite Hc.
    + destruct (negb (l_clean r') && bool_decide (email ∈ emails)); [|done].
      simpl. by rewrite lookup_insert_ne.
Qed.

End Legacy.
