(* ===== verification/Cli.v ===== *)
(** * Cli: the first iteration of the program, src/src/cli.js

    cli.js keeps records [{tags, locale?, broken?}] (l. 17-21) and
    offers four commands (l. 200-254): [insert], [query], [tags] and
    [cleanup]; any other prints the help (l. 256-265).  Its [insert] (l. 111-154) and [cleanup] (l. 156-177)
    are the code that part_001 later extended; its [load] (l. 43-53)
    only rebuilds the tag sets, and its [save] (l. 55-60) writes
    [JSON.stringify(this.db)], so tag sets become [{}] here too.  Its
    [query] command ends with [db.save()] (l. 234).

    Records are [Legacy.LRecord]; a flag is kept as its truthiness.
    [agrees] relates a part_001 directory to a cli.js one when they
    have the same addresses with the same tags and locales.  The
    simulation theorems show that part_001's [insert] and [cleanup]
    keep that relation and report the same counts. *)

From Stdlib Require Import Ascii ZArith Lia.
From S2P Require Import Prelude Regex Normalizer Store Query Mutations Paging Commands Legacy.
Import Normalizer Store Query Mutations Commands Legacy.

Module Cli.

(** ** [insert], l. 111-154 *)

(** [{ tags: new Set() }], l. 135 *)
Definition l_fresh : LRecord := mkLRecord ∅ None false false.

Definition l_merge (T : gset string) (loc : option string) (res : LRecord) : LRecord :=
  let res1 := mkLRecord (l_tags res ∪ T) (l_locale res) (l_broken res) (l_clean res) in
  if truthy_str loc
  then mkLRecord (l_tags res1) (Some (default "" loc)) (l_broken res1) (l_clean res1)
  else res1.

Definition l_insert_email (T : gset string) (loc : option string)
    (st : LDB * counters) (email : string) : LDB * counters :=
  let '(db, c) := st in
  let '(res, ins) := match db !! email with
                     | Some r => (r, inserted c)
                     | None => (l_fresh, S (inserted c))
                     end in
  let addedTags := bool_decide (¬ T ⊆ l_tags res) in
  let upd := if addedTags || (truthy_str loc && bool_decide (loc ≠ l_locale res))
             then S (updated c) else updated c in
  (<[email := l_merge T loc res]> db, mkCounters ins upd).

(** [const email = this.filter(line)]; [filter] (l. 28-34) is
    [filterEmail]. *)
Definition l_insert_line (T : gset string) (loc : option string)
    (st : LDB * counters) (line : string) : LDB * counters :=
  match filterEmail line with
  | Some email => l_insert_email T loc st email
  | None => st
  end.

Definition l_insert (lines : list string) (T : gset string) (loc : option string) (db : LDB)
    : LDB * counters :=
  fold_left (l_insert_line T loc) lines (db, mkCounters 0 0).

(** ** [cleanup], l. 156-177 *)

Definition l_cleanup_step {A} (st : gmap string A * cleanup_counters) (email : string)
    : gmap string A * cleanup_counters :=
  let '(db, c) := st in
  match db !! email with
  | None => st
  | Some r =>
      match filterEmail email with
      | None => (delete email db, mkCleanup (S (deleted c)) (fixed c))
      | Some f =>
          if bool_decide (f = email) then st
          else (delete email (<[f := r]> db), mkCleanup (deleted c) (S (fixed c)))
      end
  end.

Definition l_cleanup_keys {A} (ks : list string) (db : gmap string A) : gmap string A * cleanup_counters :=
  fold_left l_cleanup_step ks (db, mkCleanup 0 0).

(** ** [allTags], l. 90-102 *)

Definition l_allTags (db : LDB) : gmap string jsv :=
  foldl (fun o kr => foldl count_tag o (elements (l_tags kr.2))) ∅ (map_to_list db).

(** ** [load] and [save], l. 43-60 *)

(** [rec.tags = new Set(rec.tags)]; the other properties stay as
    they are and are read by their truthiness. *)
Definition l_record_of_json (v : json) : result field_error LRecord :=
  match v with
  | JObj fs =>
      t <- new_Set (json_field fs "tags") ;;
      loc <- str_field (json_field fs "locale") ;;
      Ok (mkLRecord t loc (truthy_json (json_field fs "broken")) (truthy_json (json_field fs "clean")))
  | JArr _ => Err KUnsupported
  | _ => Err KTypeError
  end.

Fixpoint l_load_records (l : list (string * json)) (db : LDB) : result load_error LDB :=
  match l with
  | [] => Ok db
  | (email, v) :: l' =>
      match l_record_of_json v with
      | Ok r => l_load_records l' (<[email := r]> db)
      | Err KTypeError => Err (LoadTypeError email)
      | Err KUnsupported => Err (LoadUnsupported email)
      end
  end.

Definition l_load (f : option file) : result load_error LDB :=
  match f with
  | None | Some Corrupt => Ok ∅
  | Some (Parsed (JObj fs)) => l_load_records (json_object fs) ∅
  | Some (Parsed _) => Err (LoadUnsupported "")
  end.

(** [JSON.stringify]: the tag set as [{}], a set flag as [true]. *)
Definition l_record_to_json (r : LRecord) : json :=
  JObj ([("tags", JObj [])] ++ opt_field "locale" (JStr <$> l_locale r) ++
        (if l_broken r then [("broken", JBool true)] else []) ++
        (if l_clean r then [("clean", JBool true)] else [])).

Definition l_db_to_json (db : LDB) : json :=
  JObj ((fun kr => (kr.1, l_record_to_json kr.2)) <$> map_to_list db).

Definition l_save (wo : write_outcome) (fs : FS) (db : LDB) : result FS FS :=
  save_json wo fs (l_db_to_json db).

(** ** The commands, l. 184-254 *)

Inductive cli_command : Type :=
| LInsert (filename : string) (tags : list string) (locale : option string)
| LQuery (tags : list string) (locale : option string)
| LTags
| LCleanup
| LUnknown (argv : list string).   (** undeclared or no command, l. 256-265 *)

Inductive cli_report : Type :=
| LRInsert (c : counters)
| LRQuery (res : gmap string result_entry)
| LRTags (t : gmap string jsv)
| LRCleanup (c : cleanup_counters)
| LRHelp.

(** The directory each action saves (all but [tags] call
    [db.save()]), and its report; [None] when it throws. *)
Definition cli_handle (files : gmap string string) (c : cli_command) (db : LDB)
    : option (option LDB * cli_report) :=
  match c with
  | LInsert fname tags loc =>
      match files !! fname with
      | None => None
      | Some text =>
          let '(db', cnt) := l_insert (js_split newline text) (list_to_set tags) loc db in
          Some (Some db', LRInsert cnt)
      end
  | LQuery tags loc => Some (Some db, LRQuery (cli_lookup (list_to_set tags) loc db))
  | LTags => Some (None, LRTags (l_allTags db))
  | LCleanup =>
      let '(db', cnt) := l_cleanup_keys (map_to_list db).*1 db in Some (Some db', LRCleanup cnt)
  | LUnknown _ => Some (None, LRHelp)
  end.

Inductive cli_error : Type :=
| LStartupCrash (e : load_error)
| LActionRejected
| LSaveFailed (fs : FS).

Definition cli_run (wo : write_outcome) (fs : FS) (files : gmap string string) (c : cli_command)
    : result cli_error (FS * cli_report) :=
  match l_load (db_file fs) with
  | Err e => Err (LStartupCrash e)
  | Ok db =>
      match cli_handle files c db with
      | None => Err LActionRejected
      | Some (None, rep) => Ok (fs, rep)
      | Some (Some db', rep) =>
          match l_save wo fs db' with
          | Ok fs' => Ok (fs', rep)
          | Err fs' => Err (LSaveFailed fs')
          end
      end
  end.

(** ** Simulation of cli.js by part_001 *)

(** The same addresses, with the same tags and locales. *)
Definition agrees (db : DB) (ld : LDB) : Prop :=
  forall k, match db !! k, ld !! k with
            | Some r, Some lr => tags r = l_tags lr /\ locale r = l_locale lr
            | None, None => True
            | _, _ => False
            end.

Lemma agrees_insert db ld k r lr :
  agrees db ld -> tags r = l_tags lr -> locale r = l_locale lr ->
  agrees (<[k := r]> db) (<[k := lr]> ld).
Proof.
  intros Hag Ht Hl k'. destruct (decide (k = k')) as [<-|Hne].
  - by rewrite !lookup_insert_eq.
  - rewrite !lookup_insert_ne by done. apply Hag.
Qed.

Lemma agrees_delete db ld k : agrees db ld -> agrees (delete k db) (delete k ld).
Proof.
  intros Hag k'. destruct (decide (k = k')) as [<-|Hne].
  - by rewrite !lookup_delete_eq.
  - rewrite !lookup_delete_ne by done. apply Hag.
Qed.

Lemma agrees_migrate ld : agrees (migrate <$> ld) ld.
Proof. intros k. rewrite lookup_fmap. by destruct (ld !! k). Qed.

Lemma insert_email_simulates T loc db ld c email :
  agrees db ld ->
  (insert_email T loc (db, c) email).2 = (l_insert_email T loc (ld, c) email).2 /\
  agrees (insert_email T loc (db, c) email).1 (l_insert_email T loc (ld, c) email).1.
Proof.
  intros Hag. pose proof (Hag email) as He. unfold insert_email, l_insert_email.
  destruct (db !! email) as [r|], (ld !! email) as [lr|]; try done; simpl.
  - destruct He as [Ht Hl]. rewrite Ht, Hl. split; [done|].
    apply agrees_insert; [done|..]; unfold merge_record, l_merge; simpl;
      destruct (truthy_str loc); simpl; by rewrite ?Ht, ?Hl.
  - split; [done|]. apply agrees_insert; [done|..]; unfold merge_record, l_merge; simpl;
      by destruct (truthy_str loc).
Qed.

Lemma insert_fold_simulates T loc lines db ld c :
  agrees db ld ->
  (fold_left (insert_line T loc) lines (db, c)).2 = (fold_left (l_insert_line T loc) lines (ld, c)).2 /\
  agrees (fold_left (insert_line T loc) lines (db, c)).1 (fold_left (l_insert_line T loc) lines (ld, c)).1.
Proof.
  revert db ld c. induction lines as [|line lines IH]; intros db ld c Hag; [done|].
  cbn [fold_left]. unfold insert_line, l_insert_line. change normalize with filterEmail.
  destruct (filterEmail line) as [e|]; [|by apply IH].
  destruct (insert_email_simulates T loc db ld c e Hag) as [Hc Hag'].
  destruct (insert_email T loc (db, c) e) as [db1 c1], (l_insert_email T loc (ld, c) e) as [ld1 c1'].
  simpl in Hc, Hag'. subst c1'. by apply IH.
Qed.

Lemma cleanup_step_simulates db ld c email :
  agrees db ld ->
  (cleanup_step (db, c) email).2 = (l_cleanup_step (ld, c) email).2 /\
  agrees (cleanup_step (db, c) email).1 (l_cleanup_step (ld, c) email).1.
Proof.
  intros Hag. pose proof (Hag email) as He. unfold cleanup_step, l_cleanup_step.
  change normalize with filterEmail.
  destruct (db !! email) as [r|], (ld !! email) as [lr|]; try done.
  destruct (filterEmail email) as [f|]; [|split; [done|by apply agrees_delete]].
  case_bool_decide; [done|]. split; [done|].
  apply agrees_delete, agrees_insert; [done|apply He..].
Qed.

Lemma cleanup_fold_simulates ks db ld c :
  agrees db ld ->
  (fold_left cleanup_step ks (db, c)).2 = (fold_left l_cleanup_step ks (ld, c)).2 /\
  agrees (fold_left cleanup_step ks (db, c)).1 (fold_left l_cleanup_step ks (ld, c)).1.
Proof.
  revert db ld c. induction ks as [|k ks IH]; intros db ld c Hag; [done|]. cbn [fold_left].
  destruct (cleanup_step_simulates db ld c k Hag) as [Hc Hag'].
  destruct (cleanup_step (db, c) k) as [db1 c1], (l_cleanup_step (ld, c) k) as [ld1 c1'].
  simpl in Hc, Hag'. subst c1'. by apply IH.
Qed.

Lemma json_object_l_db (ld : LDB) :
  json_object ((fun kr => (kr.1, l_record_to_json kr.2)) <$> map_to_list ld)
  = (fun kr => (kr.1, l_record_to_json kr.2)) <$> map_to_list ld.
Proof. apply json_object_nodup. rewrite fst_encode_map_to_list. apply NoDup_fst_map_to_list. Qed.

(** What cli.js's [save] writes cannot be loaded by its [load]. *)
Lemma l_load_l_db_to_json (db : LDB) :
  db ≠ ∅ -> exists email, l_load (Some (Parsed (l_db_to_json db))) = Err (LoadTypeError email).
Proof.
  intros Hne. unfold l_load, l_db_to_json. rewrite json_object_l_db.
  destruct (map_to_list db) as [|[k r] l] eqn:E; [by apply map_to_list_empty_iff in E|].
  exists k. simpl. destruct r as [t [loc|] [] []]; done.
Qed.

(** Nor by part_001's [load], whose flag migration never runs on it. *)
Lemma load_l_db_to_json (db : LDB) :
  db ≠ ∅ -> exists email, load (Some (Parsed (l_db_to_json db))) = Err (LoadTypeError email).
Proof.
  intros Hne. unfold load, l_db_to_json. rewrite json_object_l_db.
  destruct (map_to_list db) as [|[k r] l] eqn:E; [by apply map_to_list_empty_iff in E|].
  exists k. simpl. destruct r as [t [loc|] [] []]; done.
Qed.

(** C30: part_001's [insert] refines cli.js's: run from directories
    that agree (e.g. a legacy directory and its migration), the two
    report the same counts and end in directories that agree. *)
Theorem insert_refines_cli lines T loc db ld :
  agrees db ld ->
  (insert lines T loc db).2 = (l_insert lines T loc ld).2 /\
  agrees (insert lines T loc db).1 (l_insert lines T loc ld).1.
Proof. apply insert_fold_simulates. Qed.

(** C31: part_001's [cleanup] refines cli.js's over the same key
    enumeration: the same [deleted] and [fixed] counts, and
    directories that agree. *)
Theorem cleanup_refines_cli ks db ld :
  agrees db ld ->
  (cleanup_keys ks db).2 = (l_cleanup_keys ks ld).2 /\
  agrees (cleanup_keys ks db).1 (l_cleanup_keys ks ld).1.
Proof. apply cleanup_fold_simulates. Qed.

(** C32: in the first version even the read-only [query] command
    saves, so querying any non-empty directory leaves a data file that
    every later run fails to load. *)
Theorem cli_query_bricks fs files tags loc ld b c :
  l_load (db_file fs) = Ok ld -> ld ≠ ∅ ->
  exists fs' rep, cli_run Written fs files (LQuery tags loc) = Ok (fs', rep) /\
    exists e, cli_run b fs' files c = Err (LStartupCrash (LoadTypeError e)).
Proof.
  intros Hl Hne. unfold cli_run at 1. rewrite Hl. simpl. eexists _, _. split; [reflexivity|].
  destruct (l_load_l_db_to_json ld Hne) as [e He]. exists e.
  unfold cli_run. cbn [db_file]. by rewrite He.
Qed.

End Cli.
