(* ===== verification/Classes.v ===== *)
(** * Classes: the [EmailDB] classes of the flag-based scripts

    part_002 (l. 29-222) and the first script of part_000 (l. 29-259)
    each declare their own class [EmailDB].  Their [load], [save],
    [lookup], [allTags], [insert] and [cleanup] are the code of cli.js
    (part_002 calls the method [this.filter], part_000 the function
    [filterEmail]); their [markAsBroken] and [markAsClean] differ
    ([Legacy]).

    [EmailDB] is the interface the command actions of [LegacyCli]
    call, one field per method.  [EmailDBLaws] states what the actions
    rely on: [save] writes [JSON.stringify] of the directory, which
    [load] rejects unless the directory is empty; [lookup] applies the
    flag and tag gates of [Legacy.flag_lookup]; [insert] adds only
    normalised addresses; [cleanup] leaves only normalised addresses;
    the two markers keep the set of addresses.  [p2_db] and [p0_db]
    are the two classes, their methods translated from each script's
    own lines with the loop bodies that are cli.js's shared with
    [Cli]; [p2_db_laws] and [p0_db_laws] discharge the laws. *)

From Stdlib Require Import ZArith.
From S2P Require Import Prelude Regex Normalizer Store Query Mutations Commands Legacy Cli.
Import Regex Normalizer Store Query Mutations Commands Legacy Cli.

Module Classes.

(** ** The interface *)

Class EmailDB := {
  db_load : option file -> result load_error LDB;
  db_save : write_outcome -> FS -> LDB -> result FS FS;
  db_lookup : bool -> bool -> gset string -> option string -> LDB -> gmap string result_entry;
  db_allTags : LDB -> gmap string jsv;
  db_insert : list string -> gset string -> option string -> LDB -> LDB * counters;
  db_cleanup : LDB -> LDB * cleanup_counters;
  db_markAsBroken : list string -> LDB -> LDB * nat;
  db_markAsClean : list string -> LDB -> LDB * nat
}.

Class EmailDBLaws (I : EmailDB) : Prop := {
  db_save_ok fs db : exists fs', db_save Written fs db = Ok fs';
  db_save_writes wo fs db fs' :
    db_save wo fs db = Ok fs' -> db_file fs' = Some (Parsed (l_db_to_json db));
  db_load_stringified db :
    db ≠ ∅ -> exists e, db_load (Some (Parsed (l_db_to_json db))) = Err (LoadTypeError e);
  db_lookup_gates co d T loc db : db_lookup co d T loc db = flag_lookup co d T loc db;
  db_insert_normal lines T loc db k r :
    (db_insert lines T loc db).1 !! k = Some r -> is_Some (db !! k) \/ filterEmail k = Some k;
  db_cleanup_normal db k r : (db_cleanup db).1 !! k = Some r -> filterEmail k = Some k;
  db_markAsBroken_dom emails db k :
    is_Some ((db_markAsBroken emails db).1 !! k) <-> is_Some (db !! k);
  db_markAsClean_dom emails db k :
    is_Some ((db_markAsClean emails db).1 !! k) <-> is_Some (db !! k)
}.

(** ** part_002, l. 29-222 *)

(** [filter(line)], l. 32-38. *)
Definition p2_filter (line : string) : option string :=
  String.string_of_list_ascii <$> exec EmailRegex (String.list_ascii_of_string line).

(** [load()], l. 47-57. *)
Definition p2_load (f : option file) : result load_error LDB :=
  match f with
  | None | Some Corrupt => Ok ∅
  | Some (Parsed (JObj fs)) => l_load_records (json_object fs) ∅
  | Some (Parsed _) => Err (LoadUnsupported "")
  end.

(** [save()], l. 59-64. *)
Definition p2_save (wo : write_outcome) (fs : FS) (db : LDB) : result FS FS :=
  save_json wo fs (l_db_to_json db).

(** [lookup({tags, locale, cleanOnly, dirtyOnly})], l. 66-105. *)
Definition p2_lookup (cleanOnly dirtyOnly : bool) (tags : gset string) (locale : option string)
    (db : LDB) : gmap string result_entry :=
  map_imap (flag_lookup_one cleanOnly dirtyOnly tags locale) db.

(** [allTags()], l. 107-119. *)
Definition p2_allTags (db : LDB) : gmap string jsv :=
  foldl (fun result kr => foldl count_tag result (elements (l_tags kr.2))) ∅ (map_to_list db).

(** [insert({filename, tags, locale})], l. 128-171, on the lines of
    the file. *)
Definition p2_insert (lines : list string) (tags : gset string) (locale : option string) (db : LDB)
    : LDB * counters :=
  fold_left (fun st line =>
      match p2_filter line with
      | Some email => l_insert_email tags locale st email
      | None => st
      end) lines (db, mkCounters 0 0).

(** [cleanup()], l. 173-194. *)
Definition p2_cleanup (db : LDB) : LDB * cleanup_counters :=
  fold_left (fun st email =>
      let '(db, result) := st in
      match db !! email with
      | None => st
      | Some rec =>
          match p2_filter email with
          | None => (delete email db, mkCleanup (S (deleted result)) (fixed result))
          | Some filtered =>
              if bool_decide (filtered = email) then st
              else (delete email (<[filtered := rec]> db), mkCleanup (deleted result) (S (fixed result)))
          end
      end) (for_in_keys db) (db, mkCleanup 0 0).

Definition p2_db : EmailDB := {|
  db_load := p2_load; db_save := p2_save; db_lookup := p2_lookup; db_allTags := p2_allTags;
  db_insert := p2_insert; db_cleanup := p2_cleanup;
  db_markAsBroken := mark markAsBroken2_step; db_markAsClean := mark markAsClean2_step
|}.

(** ** The first script of part_000, l. 29-259 *)

(** [filterEmail(line)], l. 29-35. *)
Definition p0_filterEmail (line : string) : option string :=
  String.string_of_list_ascii <$> exec EmailRegex (String.list_ascii_of_string line).

(** [load()], l. 49-59. *)
Definition p0_load (f : option file) : result load_error LDB :=
  match f with
  | None | Some Corrupt => Ok ∅
  | Some (Parsed (JObj fs)) => l_load_records (json_object fs) ∅
  | Some (Parsed _) => Err (LoadUnsupported "")
  end.

(** [save()], l. 61-66. *)
Definition p0_save (wo : write_outcome) (fs : FS) (db : LDB) : result FS FS :=
  save_json wo fs (l_db_to_json db).

(** [lookupByRegexp(regexp)], l. 68-77. *)
Definition p0_lookupByRegexp (regexp : regex) (db : LDB) : LDB :=
  filter (fun kr => is_Some (exec regexp (String.list_ascii_of_string kr.1))) db.

(** [allTags()], l. 119-131. *)
Definition p0_allTags (db : LDB) : gmap string jsv :=
  foldl (fun result kr => foldl count_tag result (elements (l_tags kr.2))) ∅ (map_to_list db).

(** [insert({filename, tags, locale})], l. 140-183. *)
Definition p0_insert (lines : list string) (tags : gset string) (locale : option string) (db : LDB)
    : LDB * counters :=
  fold_left (fun st line =>
      match p0_filterEmail line with
      | Some email => l_insert_email tags locale st email
      | None => st
      end) lines (db, mkCounters 0 0).

(** [cleanup()], l. 185-206. *)
Definition p0_cleanup (db : LDB) : LDB * cleanup_counters :=
  fold_left (fun st email =>
      let '(db, result) := st in
      match db !! email with
      | None => st
      | Some rec =>
          match p0_filterEmail email with
          | None => (delete email db, mkCleanup (S (deleted result)) (fixed result))
          | Some filtered =>
              if bool_decide (filtered = email) then st
              else (delete email (<[filtered := rec]> db), mkCleanup (deleted result) (S (fixed result)))
          end
      end) (for_in_keys db) (db, mkCleanup 0 0).

(** Its [lookup] (l. 78-117) is [Legacy.flag_lookup]. *)
Definition p0_db : EmailDB := {|
  db_load := p0_load; db_save := p0_save; db_lookup := flag_lookup; db_allTags := p0_allTags;
  db_insert := p0_insert; db_cleanup := p0_cleanup;
  db_markAsBroken := mark markAsBroken0_step; db_markAsClean := mark markAsClean0_step
|}.

(** ** The laws of cli.js's methods *)

Lemma save_json_ok fs j : exists fs', save_json Written fs j = Ok fs'.
Proof. by eexists. Qed.

Lemma save_json_writes wo fs j fs' : save_json wo fs j = Ok fs' -> db_file fs' = Some (Parsed j).
Proof. unfold save_json. destruct wo; intros H; by simplify_eq/=. Qed.

Lemma l_insert_keys lines T loc st k r :
  (fold_left (l_insert_line T loc) lines st).1 !! k = Some r ->
  is_Some (st.1 !! k) \/ filterEmail k = Some k.
Proof.
  revert st. induction lines as [|line lines IH]; intros [db c] Hk; [by left|].
  destruct (IH _ Hk) as [Hs|]; [|by right]. unfold l_insert_line in Hs.
  destruct (filterEmail line) as [e|] eqn:He; [|by left].
  unfold l_insert_email in Hs. destruct (db !! e); simpl in Hs;
    (destruct (decide (e = k)) as [<-|Hne];
     [right; by eapply filterEmail_self|left; by rewrite lookup_insert_ne in Hs]).
Qed.

Lemma l_cleanup_normal (db : LDB) k r :
  (l_cleanup_keys (for_in_keys db) db).1 !! k = Some r -> filterEmail k = Some k.
Proof.
  intros Hk. destruct (cleanup_fold_simulates (for_in_keys db) (migrate <$> db) db
                         (mkCleanup 0 0) (agrees_migrate db)) as [_ Hag].
  specialize (Hag k). unfold l_cleanup_keys in Hk. rewrite Hk in Hag.
  destruct ((fold_left cleanup_step _ _).1 !! k) as [r'|] eqn:Hr; [|done].
  change filterEmail with normalize. refine (cleanup_keys_self_normal _ _ _ _ _ Hr).
  intros k' Hk'. apply for_in_keys_spec. by rewrite lookup_fmap, fmap_is_Some in Hk'.
Qed.

(** A marker that rewrites only present records keeps the addresses. *)
Lemma mark_dom step emails db k :
  (forall st email k, is_Some ((step emails st email).1 !! k) <-> is_Some (st.1 !! k)) ->
  is_Some ((mark step emails db).1 !! k) <-> is_Some (db !! k).
Proof.
  intros Hstep. apply (mark_preserves _ _ _ _ (fun o => is_Some o <-> is_Some (db !! k)));
    [|done]. intros st email Hst. by rewrite Hstep.
Qed.

Ltac mark_step_dom :=
  intros [db n] email k; cbn [fst];
  repeat (case_match || case_bool_decide); simplify_eq/=; try done;
  rewrite lookup_insert_is_Some'; naive_solver.

Lemma markAsBroken2_dom emails st email k :
  is_Some ((markAsBroken2_step emails st email).1 !! k) <-> is_Some (st.1 !! k).
Proof. revert st email k. unfold markAsBroken2_step. mark_step_dom. Qed.

Lemma markAsBroken0_dom emails st email k :
  is_Some ((markAsBroken0_step emails st email).1 !! k) <-> is_Some (st.1 !! k).
Proof. revert st email k. unfold markAsBroken0_step. mark_step_dom. Qed.

Lemma markAsClean2_dom emails st email k :
  is_Some ((markAsClean2_step emails st email).1 !! k) <-> is_Some (st.1 !! k).
Proof. revert st email k. unfold markAsClean2_step. mark_step_dom. Qed.

Lemma markAsClean0_dom emails st email k :
  is_Some ((markAsClean0_step emails st email).1 !! k) <-> is_Some (st.1 !! k).
Proof. revert st email k. unfold markAsClean0_step. mark_step_dom. Qed.

(** A class whose shared methods are cli.js's satisfies the laws. *)
Lemma laws_of_cli (I : EmailDB) :
  @db_load I = l_load -> @db_save I = l_save -> @db_lookup I = flag_lookup ->
  @db_insert I = l_insert -> (forall db, @db_cleanup I db = l_cleanup_keys (for_in_keys db) db) ->
  (forall emails db k, is_Some ((@db_markAsBroken I emails db).1 !! k) <-> is_Some (db !! k)) ->
  (forall emails db k, is_Some ((@db_markAsClean I emails db).1 !! k) <-> is_Some (db !! k)) ->
  EmailDBLaws I.
Proof.
  intros Hl Hs Hk Hi Hc Hb Hm. split; rewrite ?Hl, ?Hs, ?Hk, ?Hi; try done.
  - intros. apply save_json_ok.
  - intros ????. apply save_json_writes.
  - apply l_load_l_db_to_json.
  - intros ??????. apply l_insert_keys.
  - intros db ??. rewrite Hc. apply l_cleanup_normal.
Qed.

(** Discharges [EmailDBLaws] for a class made of cli.js's methods and
    the markers [markers]. *)
Ltac cli_laws markers :=
  apply laws_of_cli; try reflexivity; intros; apply mark_dom; apply markers.

(** C16: the classes of part_002 and of part_000's first script satisfy
    the interface their commands rely on: [save] writes
    [JSON.stringify] of the directory (and succeeds when the write
    does), [load] rejects that text for a non-empty directory, [lookup]
    is [flag_lookup], [insert] adds only normalised addresses,
    [cleanup] leaves only normalised addresses, and [markAsBroken] and
    [markAsClean] keep the set of addresses. *)
Theorem legacy_classes_lawful : EmailDBLaws p2_db /\ EmailDBLaws p0_db.
Proof.
  split; [cli_laws (markAsBroken2_dom, markAsClean2_dom)
         |cli_laws (markAsBroken0_dom, markAsClean0_dom)].
Qed.

End Classes.
