(* ===== verification/Origin.v ===== *)
(** * Origin: the second script of src/unnamed/part_000 (l. 520-755)

    The oldest script of the repository: records [{tags, locale?,
    broken?}] (l. 536-540), [filter] (l. 547-553, the [EmailRegex]
    match, i.e. [filterEmail]), [guessEmailLocale] (l. 555-560),
    [load]/[save] (l. 562-575), [lookup] (l. 577-603), [allTags]
    (l. 605-617), [insert] (l. 626-650), [cleanup] (l. 652-673) and
    the commands [insert], [query], [tags] and [cleanup] (l. 696-745).

    Unlike every later iteration, [load] is [this.db = JSON.parse(...)]
    and nothing more: a record read back keeps whatever [JSON.stringify]
    wrote for its tag [Set], namely [{}].  The script then reads
    [rec.tags] in three ways, each with its own JavaScript semantics:
    spread [[...res.tags]] and [for (tag of rec.tags)] need an
    iterable, [Array.from(rec.tags)] also accepts array-likes.  A
    record is therefore either a parsed JSON value untouched since
    [load] ([RJson]) or an object whose [tags] property [insert]
    replaced by a [Set] ([RSet], its other properties and their order
    kept).  Set elements are JSON values in insertion order, compared
    with SameValueZero.

    [Array.from] of an object with a [length] property (an array-like
    written by hand into [data/db.json]) is the parameter
    [array_like]; every theorem holds for every choice of it. *)

From Stdlib Require Import ZArith Lia.
From S2P Require Import Prelude Normalizer Store Mutations Commands Legacy Cli.
Import Normalizer Store Mutations Commands Legacy Cli.

Module Origin.

(** ** Values *)

(** A record of [this.db]. *)
Inductive orec : Type :=
| RJson (v : json)
| RSet (fs : list (string * json)) (s : list json).

Abbreviation ODB := (gmap string orec).

(** The two [TypeError]s the engine throws here. *)
Inductive js_error : Type :=
| NotIterable       (** spread or [for-of] of a value without [Symbol.iterator] *)
| NullToObject.     (** a property of [null], or [Array.from(null/undefined)] *)

(** The value of [rec.tags]: a [Set] or a JSON value ([None] is
    [undefined]). *)
Inductive tagval : Type :=
| TSet (s : list json)
| TJson (v : option json).

Definition get_tags (r : orec) : result js_error tagval :=
  match r with
  | RJson JNull => Err NullToObject
  | RJson (JObj fs) => Ok (TJson (json_field fs "tags"))
  | RJson _ => Ok (TJson None)
  | RSet _ s => Ok (TSet s)
  end.

(** [rec.locale], read after [rec.tags]. *)
Definition get_locale (r : orec) : option json :=
  match r with
  | RJson (JObj fs) | RSet fs _ => json_field fs "locale"
  | RJson _ => None
  end.

(** A string iterates over its code units, each a one-character string. *)
Definition js_chars (s : string) : list json :=
  (fun c => JStr (String c EmptyString)) <$> String.list_ascii_of_string s.

(** [[...v]] and [for (x of v)]. *)
Definition js_iter (v : tagval) : result js_error (list json) :=
  match v with
  | TSet s => Ok s
  | TJson (Some (JArr l)) => Ok l
  | TJson (Some (JStr s)) => Ok (js_chars s)
  | TJson _ => Err NotIterable
  end.

(** SameValueZero; two parsed arrays or objects are distinct references. *)
Definition same_value_zero (a b : json) : bool :=
  match a, b with
  | JNull, JNull => true
  | JBool x, JBool y => Bool.eqb x y
  | JNum x, JNum y => Z.eqb x y
  | JStr x, JStr y => String.eqb x y
  | _, _ => false
  end.

(** [new Set(l)]: the first occurrence of each value, in order. *)
Definition set_add {A} (same : A -> A -> bool) (s : list A) (v : A) : list A :=
  if existsb (same v) s then s else s ++ [v].

Definition js_new_Set {A} (same : A -> A -> bool) (l : list A) : list A :=
  foldl (set_add same) [] l.

(** [res.tags = s] on a record whose [tags] was iterable. *)
Definition with_tags (r : orec) (s : list json) : orec :=
  match r with
  | RSet fs _ => RSet fs s
  | RJson (JObj fs) => RSet (json_object fs) s
  | RJson v => RJson v      (** not reached: [js_iter] threw *)
  end.

(** ** [load] and [save], l. 562-575 *)

(** [JSON.parse], or [{}] when the file is missing or unparsable;
    [None] is a [data/db.json] that is valid JSON but not an object,
    which this script never writes. *)
Definition o_load (f : option file) : option ODB :=
  match f with
  | None | Some Corrupt => Some ∅
  | Some (Parsed (JObj fs)) => Some (RJson <$> list_to_map (json_object fs))
  | Some (Parsed _) => None
  end.

(** [JSON.stringify]: a [Set] is written as [{}] in the place of the
    [tags] property ([{ tags: new Set() }] puts it first). *)
Definition o_rec_to_json (r : orec) : json :=
  match r with
  | RJson v => v
  | RSet fs _ => JObj (assoc_set "tags" (JObj []) fs)
  end.

Definition o_db_to_json (db : ODB) : json :=
  JObj ((fun kr => (kr.1, o_rec_to_json kr.2)) <$> map_to_list db).

Definition o_save (wo : write_outcome) (fs : FS) (db : ODB) : result FS FS :=
  save_json wo fs (o_db_to_json db).

(** ** [insert], l. 625-650 *)

Definition o_insert_email (T : list json) (st : ODB * counters) (email : string)
    : result js_error (ODB * counters) :=
  let '(db, c) := st in
  let '(res, c') := match db !! email with
                    | None | Some (RJson JNull) => (RSet [] [], mkCounters (S (inserted c)) (updated c))
                    | Some r => (r, mkCounters (inserted c) (S (updated c)))
                    end in
  t <- get_tags res ;;
  old <- js_iter t ;;
  Ok (<[email := with_tags res (js_new_Set same_value_zero (old ++ T))]> db, c').

Definition o_insert_line (T : list json) (st : ODB * counters) (line : string)
    : result js_error (ODB * counters) :=
  match filterEmail line with
  | Some email => o_insert_email T st email
  | None => Ok st
  end.

(** [T] is the [Set] of tags the command builds. *)
Definition o_insert (lines : list string) (T : list json) (db : ODB)
    : result js_error (ODB * counters) :=
  fold_result (o_insert_line T) lines (db, mkCounters 0 0).

(** ** [cleanup], l. 652-673: the code of cli.js, [Cli.l_cleanup_keys] *)

Definition o_cleanup (db : ODB) : ODB * cleanup_counters := l_cleanup_keys (for_in_keys db) db.

(** ** [allTags], l. 605-617 *)

(** The decimal text of an integer. *)
Definition z_digits (z : Z) : string :=
  if bool_decide (z < 0)%Z then "-" +:+ digits (Z.to_nat (- z)) else digits (Z.to_nat z).

(** [String(v)], the property key [result[tag]] reads: an array is
    joined with [","], its [null]s written as the empty string. *)
Fixpoint js_key (v : json) : string :=
  match v with
  | JNull => "null"
  | JBool b => if b then "true" else "false"
  | JNum z => z_digits z
  | JStr s => s
  | JArr l => js_join "," (List.map (fun x => match x with JNull => "" | _ => js_key x end) l)
  | JObj _ => "[object Object]"
  end.

(** [for (tag of rec.tags)] with the counting of [Commands.count_tag]. *)
Definition o_allTags (db : ODB) : result js_error (gmap string jsv) :=
  fold_result (fun o email =>
      match db !! email with
      | None => Ok o
      | Some r => t <- get_tags r ;; l <- js_iter t ;; Ok (foldl count_tag o (js_key <$> l))
      end) (for_in_keys db) ∅.

(** ** [lookup], l. 577-603 *)

(** SameValueZero on the elements [Array.from] returns ([None] is
    [undefined]). *)
Definition same_elem (a b : option json) : bool :=
  match a, b with
  | None, None => true
  | Some x, Some y => same_value_zero x y
  | _, _ => false
  end.

(** The string elements of [recTags]: no other value is SameValueZero
    to a string of [inputTags]. *)
Definition tag_strings (l : list (option json)) : list string :=
  omap (fun v => match v with Some (JStr s) => Some s | _ => None end) l.

(** [_.intersection(a, b)]: the distinct values of [a] found in [b],
    in the order of [a]. *)
Definition lodash_intersection (a b : list string) : list string :=
  js_new_Set String.eqb (filter (fun x => x ∈ b) a).

(** [rec.locale || this.guessEmailLocale(email)] *)
Definition calculated_locale (email : string) (r : orec) : json :=
  if truthy_json (get_locale r) then default JNull (get_locale r) else JStr (guessEmailLocale email).

(** [{ tags: new Set(recTags), locale: calculatedLocale }] *)
Record oentry : Type := mkOEntry { oe_tags : list (option json); oe_locale : json }.

Section with_array_like.

(** [Array.from(o)] for an object [o] with a [length] property. *)
Context (array_like : json -> list (string * json) -> list (option json)).

Definition array_from (v : tagval) : result js_error (list (option json)) :=
  match v with
  | TSet s => Ok (Some <$> s)
  | TJson (Some (JArr l)) => Ok (Some <$> l)
  | TJson (Some (JStr s)) => Ok (Some <$> js_chars s)
  | TJson (Some (JObj fs)) =>
      Ok (match json_field fs "length" with None => [] | Some len => array_like len fs end)
  | TJson (Some (JNum _)) | TJson (Some (JBool _)) => Ok []
  | TJson None | TJson (Some JNull) => Err NullToObject
  end.

Definition o_lookup_one (T : list string) (loc : option string) (email : string) (r : orec)
    : result js_error (option oentry) :=
  t <- get_tags r ;;
  recTags <- array_from t ;;
  if bool_decide (length (lodash_intersection (tag_strings recTags) T) < length T) then Ok None
  else
    let cl := calculated_locale email r in
    let e := mkOEntry (js_new_Set same_elem recTags) cl in
    match loc with
    | Some l => if same_value_zero cl (JStr l) then Ok (Some e) else Ok None
    | None => Ok (Some e)
    end.

(** [T] is [Array.from(tags)], the elements of the query's [Set]. *)
Definition o_lookup (T : list string) (loc : option string) (db : ODB)
    : result js_error (gmap string oentry) :=
  fold_result (fun res email =>
      match db !! email with
      | None => Ok res
      | Some r =>
          o <- o_lookup_one T loc email r ;;
          Ok (match o with Some e => <[email := e]> res | None => res end)
      end) (for_in_keys db) ∅.

(** ** The commands, l. 680-755 *)

Inductive o_command : Type :=
| OInsert (filename : string) (tags : list string)
| OQuery (tags : list string) (locale : option string)
| OTags
| OCleanup
| OUnknown (argv : list string).   (** undeclared or no command, l. 747-755 *)

Inductive o_report : Type :=
| ORInsert (c : counters)
| ORQuery (res : gmap string oentry) (total : nat)
| ORTags (t : gmap string jsv)
| ORCleanup (c : cleanup_counters)
| ORHelp.

(** How a run ends badly: the process prints the error through the
    [uncaughtException] handler (l. 684-694) and saves nothing. *)
Inductive o_exit : Type :=
| OBadDB                         (** [data/db.json] is JSON but not an object *)
| ONoSuchFile (filename : string)  (** [fs.readFileSync] threw *)
| OThrew (e : js_error)
| OSaveFailed (fs : FS).

Definition o_finish (wo : write_outcome) (fs : FS) (db : ODB) (rep : o_report)
    : result o_exit (FS * o_report) :=
  match o_save wo fs db with
  | Ok fs' => Ok (fs', rep)
  | Err fs' => Err (OSaveFailed fs')
  end.

(** [db.load()] at start-up (l. 682), then the action. *)
Definition o_run (wo : write_outcome) (fs : FS) (files : gmap string string) (c : o_command)
    : result o_exit (FS * o_report) :=
  match o_load (db_file fs) with
  | None => Err OBadDB
  | Some db =>
      match c with
      | OInsert fname tags =>
          match files !! fname with
          | None => Err (ONoSuchFile fname)
          | Some text =>
              match o_insert (js_split newline text) (js_new_Set same_value_zero (JStr <$> tags)) db with
              | Ok (db', cnt) => o_finish wo fs db' (ORInsert cnt)
              | Err e => Err (OThrew e)
              end
          end
      | OQuery tags loc =>
          match o_lookup (js_new_Set String.eqb tags) loc db with
          | Ok res => o_finish wo fs db (ORQuery res (size res))
          | Err e => Err (OThrew e)
          end
      | OTags =>
          match o_allTags db with
          | Ok t => Ok (fs, ORTags t)
          | Err e => Err (OThrew e)
          end
      | OCleanup => let '(db', cnt) := o_cleanup db in o_finish wo fs db' (ORCleanup cnt)
      | OUnknown _ => Ok (fs, ORHelp)
      end
  end.

End with_array_like.

(** ** Property lists *)

Lemma assoc_set_keys_sub k v l : (assoc_set k v l).*1 ⊆ k :: l.*1.
Proof. induction l as [|[k' v'] l IH]; simpl; [set_solver|]. case_bool_decide; set_solver. Qed.

Lemma assoc_set_NoDup k v l : NoDup l.*1 -> NoDup (assoc_set k v l).*1.
Proof.
  induction l as [|[k' v'] l IH]; simpl; intros Hnd; [by repeat constructor; set_solver|].
  apply NoDup_cons in Hnd as [Hk' Hnd]. case_bool_decide; simpl; [subst; by constructor|].
  constructor; [|by apply IH]. pose proof (assoc_set_keys_sub k v l). set_solver.
Qed.

Lemma fold_assoc_set_NoDup fs acc :
  NoDup acc.*1 -> NoDup (fold_left (fun acc kv => assoc_set kv.1 kv.2 acc) fs acc).*1.
Proof. revert acc. induction fs as [|kv fs IH]; intros acc Hacc; simpl; [done|]. by apply IH, assoc_set_NoDup. Qed.

Lemma json_object_NoDup fs : NoDup (json_object fs).*1.
Proof. apply fold_assoc_set_NoDup. constructor. Qed.

Lemma assoc_get_assoc_set k v l : assoc_get k (assoc_set k v l) = Some v.
Proof.
  induction l as [|[k' v'] l IH]; simpl; [by rewrite bool_decide_true|].
  case_bool_decide; simpl; [by rewrite bool_decide_true|]. by rewrite bool_decide_false.
Qed.

(** ** What [load] reads back *)

(** The property lists of the records [insert] built have no
    duplicate names (they come from [JSON.parse]). *)
Definition o_wf (db : ODB) : Prop :=
  forall k fs s, db !! k = Some (RSet fs s) -> NoDup fs.*1.

(** A record whose [tags] can be read but not iterated. *)
Definition stale (r : orec) : Prop :=
  exists t, get_tags r = Ok t /\ js_iter t = Err NotIterable.

Definition o_reload (db : ODB) : ODB := (RJson ∘ o_rec_to_json) <$> db.

Lemma o_load_wf f db : o_load f = Some db -> o_wf db.
Proof.
  intros Hl k fs s Hk. destruct f as [[[]|]|]; simplify_eq/=; try by rewrite lookup_empty in Hk.
  rewrite lookup_fmap in Hk. by destruct (_ !! k) in Hk.
Qed.

Lemma o_load_save db : o_load (Some (Parsed (o_db_to_json db))) = Some (o_reload db).
Proof.
  unfold o_load, o_db_to_json.
  rewrite json_object_nodup by (rewrite fst_encode_map_to_list; apply NoDup_fst_map_to_list).
  f_equal. unfold o_reload. rewrite map_fmap_compose. f_equal.
  rewrite <- (list_to_map_to_list db) at 2. rewrite <- list_to_map_fmap. done.
Qed.

(** JSON.stringify of a [Set] read back by JSON.parse is [{}]. *)
Lemma o_reload_tags fs s :
  NoDup fs.*1 -> get_tags (RJson (o_rec_to_json (RSet fs s))) = Ok (TJson (Some (JObj []))).
Proof.
  intros Hnd. cbn. unfold json_field.
  rewrite json_object_nodup by (by apply assoc_set_NoDup). by rewrite assoc_get_assoc_set.
Qed.

Lemma o_reload_stale fs s : NoDup fs.*1 -> stale (RJson (o_rec_to_json (RSet fs s))).
Proof. intros Hnd. exists (TJson (Some (JObj []))). split; [by apply o_reload_tags|done]. Qed.

(** ** [insert] *)

Lemma js_iter_Err t e : js_iter t = Err e -> e = NotIterable.
Proof. destruct t as [|[[]|]]; cbn; congruence. Qed.

Lemma o_insert_email_Err T st e err : o_insert_email T st e = Err err -> err = NotIterable.
Proof.
  destruct st as [db c]. unfold o_insert_email.
  repeat case_match; intros; simplify_eq; eauto using js_iter_Err.
Qed.

Lemma o_insert_email_stale T db c e r :
  db !! e = Some r -> stale r -> o_insert_email T (db, c) e = Err NotIterable.
Proof.
  intros Hdb (t & Ht & Hi). unfold o_insert_email. rewrite Hdb.
  destruct r as [[]|]; try discriminate; cbn -[get_tags js_iter]; by rewrite Ht, Hi.
Qed.

Lemma o_insert_email_other T db c e db' c' e' :
  o_insert_email T (db, c) e = Ok (db', c') -> e ≠ e' -> db' !! e' = db !! e'.
Proof.
  unfold o_insert_email. repeat case_match; intros; simplify_eq; by rewrite lookup_insert_ne.
Qed.

Lemma o_wf_insert db k fs s : o_wf db -> NoDup fs.*1 -> o_wf (<[k := RSet fs s]> db).
Proof.
  intros Hwf Hnd k' fs' s'. destruct (decide (k = k')) as [->|Hne].
  - rewrite lookup_insert_eq. by intros [= <- _].
  - rewrite lookup_insert_ne by done. apply Hwf.
Qed.

(** An address [insert] went through holds a record with a [Set]. *)
Lemma o_insert_email_wf T db c e db' c' :
  o_wf db -> o_insert_email T (db, c) e = Ok (db', c') ->
  o_wf db' /\ exists fs s, db' !! e = Some (RSet fs s).
Proof.
  intros Hwf. unfold o_insert_email. repeat case_match; intros; simplify_eq/=; simpl in *; simplify_eq/=;
    (split; [apply o_wf_insert; [done|] | rewrite lookup_insert_eq; by eauto]).
  all: first [by constructor | apply json_object_NoDup | by eapply Hwf].
Qed.

Definition hits (lines : list string) (e : string) : Prop :=
  exists line, line ∈ lines /\ filterEmail line = Some e.

Lemma hits_cons line lines e : hits (line :: lines) e <-> filterEmail line = Some e \/ hits lines e.
Proof. unfold hits. setoid_rewrite elem_of_cons. naive_solver. Qed.

Lemma hits_readEmailFile text e : e ∈ readEmailFile (Some text) <-> hits (js_split newline text) e.
Proof. rewrite readEmailFile_normalize, list_elem_of_omap. unfold hits. naive_solver. Qed.

Lemma o_insert_fold T lines db c db' c' :
  o_wf db -> fold_result (o_insert_line T) lines (db, c) = Ok (db', c') ->
  o_wf db' /\ forall e, hits lines e \/ (exists fs s, db !! e = Some (RSet fs s)) ->
                        exists fs s, db' !! e = Some (RSet fs s).
Proof.
  revert db c. induction lines as [|l lines IH]; intros db c Hwf; cbn [fold_result].
  - intros [= <- <-]. split; [done|]. intros e [(? & Hin & _)|He]; [by apply elem_of_nil in Hin|done].
  - unfold o_insert_line at 1. destruct (filterEmail l) as [e0|] eqn:Hf.
    + destruct (o_insert_email T (db, c) e0) as [[db1 c1]|] eqn:Hi; [|done]. intros Hl.
      destruct (o_insert_email_wf _ _ _ _ _ _ Hwf Hi) as [Hwf1 Hset].
      destruct (IH db1 c1 Hwf1 Hl) as [Hwf' Hhit]. split; [done|].
      intros e He. apply Hhit. destruct (decide (e0 = e)) as [<-|Hne]; [by right|].
      rewrite hits_cons, Hf in He. rewrite (o_insert_email_other _ _ _ _ _ _ _ Hi Hne). naive_solver.
    + intros Hl. destruct (IH db c Hwf Hl) as [Hwf' Hhit]. split; [done|].
      intros e He. apply Hhit. rewrite hits_cons, Hf in He. naive_solver.
Qed.

Lemma o_insert_stale T lines st e r :
  hits lines e -> st.1 !! e = Some r -> stale r ->
  fold_result (o_insert_line T) lines st = Err NotIterable.
Proof.
  revert st. induction lines as [|l lines IH]; intros [db c] He Hdb Hst.
  { destruct He as (? & Hin & _). by apply elem_of_nil in Hin. }
  cbn [fold_result]. unfold o_insert_line at 1. rewrite hits_cons in He.
  destruct (filterEmail l) as [e0|] eqn:Hf; [|apply IH; naive_solver].
  destruct (decide (e0 = e)) as [->|Hne]; [by rewrite (o_insert_email_stale T db c e r)|].
  destruct (o_insert_email T (db, c) e0) as [[db1 c1]|err] eqn:Hi.
  - apply IH; [naive_solver| |done]. simpl. by rewrite (o_insert_email_other _ _ _ _ _ _ _ Hi Hne).
  - by apply o_insert_email_Err in Hi as ->.
Qed.

Lemma o_insert_counts_fold T lines db c db' c' :
  fold_result (o_insert_line T) lines (db, c) = Ok (db', c') ->
  inserted c' + updated c' = inserted c + updated c + count_if (fun l => is_Some (filterEmail l)) lines.
Proof.
  revert db c. induction lines as [|l lines IH]; intros db c; cbn [fold_result].
  - intros [= <- <-]. rewrite count_if_nil. lia.
  - rewrite count_if_cons. unfold o_insert_line at 1.
    destruct (filterEmail l) as [e0|] eqn:Hf; rewrite ?Hf; case_decide as Hs; try by destruct Hs.
    + destruct (o_insert_email T (db, c) e0) as [[db1 c1]|] eqn:Hi; [|done].
      intros Hl. rewrite (IH _ _ Hl). unfold o_insert_email in Hi.
      repeat case_match; simplify_eq/=; lia.
    + intros Hl. rewrite (IH _ _ Hl). lia.
Qed.

(** ** The query *)

Section new_Set.
Context {A} (same : A -> A -> bool) (Hsame : forall a b, same a b = true <-> a = b).

Lemma set_add_spec s v : NoDup s -> NoDup (set_add same s v) /\ forall x, x ∈ set_add same s v <-> x ∈ s \/ x = v.
Proof.
  intros Hnd. unfold set_add. destruct (existsb (same v) s) eqn:E.
  - apply existsb_exists in E as (y & Hy%list_elem_of_In & Hv%Hsame). subst. naive_solver.
  - split; [|set_solver]. apply NoDup_app. split; [done|]. split; [|apply NoDup_singleton].
    intros x Hx Hxv%list_elem_of_singleton. subst x. rewrite <- not_true_iff_false, existsb_exists in E.
    apply E. exists v. split; [by apply list_elem_of_In|by apply Hsame].
Qed.

Lemma js_new_Set_spec l : NoDup (js_new_Set same l) /\ forall x, x ∈ js_new_Set same l <-> x ∈ l.
Proof.
  unfold js_new_Set. cut (forall s, NoDup s -> NoDup (foldl (set_add same) s l) /\
                                   forall x, x ∈ foldl (set_add same) s l <-> x ∈ s \/ x ∈ l).
  { intros H. destruct (H [] (NoDup_nil_2)) as [? Hx]. split; [done|]. intros x. rewrite Hx. set_solver. }
  induction l as [|v l IH]; intros s Hnd; simpl; [set_solver|].
  destruct (set_add_spec s v Hnd) as [Hnd' Hs]. destruct (IH _ Hnd') as [? Hx]. split; [done|].
  intros x. rewrite Hx, Hs. set_solver.
Qed.

End new_Set.

Lemma String_eqb_spec' a b : String.eqb a b = true <-> a = b.
Proof. apply String.eqb_eq. Qed.

(** [_.intersection(recTags, inputTags).length < tags.size] is the
    negation of "every tag of the query is a string of [recTags]". *)
Lemma intersection_short a T :
  NoDup T -> length (lodash_intersection a T) < length T <-> ~ (forall t, t ∈ T -> t ∈ a).
Proof.
  intros HT. destruct (js_new_Set_spec _ String_eqb_spec' (filter (fun x => x ∈ T) a)) as [Hnd Hin].
  unfold lodash_intersection. split.
  - intros Hlt Hsub. apply (Nat.lt_irrefl (length T)). eapply Nat.le_lt_trans; [|exact Hlt].
    apply NoDup_incl_length; [by apply NoDup_ListNoDup|]. intros t Ht%list_elem_of_In. apply list_elem_of_In, Hin.
    apply list_elem_of_filter. auto.
  - intros Hnot. assert (length (js_new_Set String.eqb (filter (fun x => x ∈ T) a)) <= length T) as Hle.
    { apply NoDup_incl_length; [by apply NoDup_ListNoDup|]. intros t Ht%list_elem_of_In. apply list_elem_of_In.
      apply Hin, list_elem_of_filter in Ht. naive_solver. }
    destruct (decide (length (js_new_Set String.eqb (filter (fun x => x ∈ T) a)) = length T)) as [Heq|]; [|lia].
    exfalso. apply Hnot. intros t Ht.
    assert (incl T (js_new_Set String.eqb (filter (fun x => x ∈ T) a))) as Hincl.
    { apply NoDup_length_incl; [by apply NoDup_ListNoDup|lia|].
      intros y Hy%list_elem_of_In. apply list_elem_of_In. apply Hin, list_elem_of_filter in Hy. naive_solver. }
    apply list_elem_of_In, Hincl, list_elem_of_In, Hin, list_elem_of_filter in Ht. naive_solver.
Qed.

(** Every entry of a finished [lookup] is the verdict of
    [o_lookup_one] on the record of its address. *)
Lemma o_lookup_sound al T loc db res e x :
  o_lookup al T loc db = Ok res -> res !! e = Some x ->
  exists r, db !! e = Some r /\ o_lookup_one al T loc e r = Ok (Some x).
Proof.
  intros Hl. revert e x. unfold o_lookup in Hl. pattern res.
  eapply fold_result_ind; [|clear Hl|exact Hl]; [intros e x; by rewrite lookup_empty|].
  intros acc k acc' _ IH Hstep e x. cbv beta in Hstep. destruct (db !! k) as [r|] eqn:Hk; [|injection Hstep as <-; apply IH].
  destruct (o_lookup_one al T loc k r) as [[y|]|] eqn:Ho; simplify_eq; [|apply IH].
  destruct (decide (k = e)) as [<-|Hne].
  - rewrite lookup_insert_eq. intros [= <-]. eauto.
  - rewrite lookup_insert_ne by done. apply IH.
Qed.

(** A query with a tag skips a record read back from the disk. *)
Lemma o_lookup_one_reloaded al T loc e fs s :
  NoDup fs.*1 -> T ≠ [] -> o_lookup_one al T loc e (RJson (o_rec_to_json (RSet fs s))) = Ok None.
Proof.
  intros Hnd HT. unfold o_lookup_one. rewrite o_reload_tags by done. cbn.
  rewrite bool_decide_true; [done|]. destruct T; [done|]. simpl. lia.
Qed.

Lemma o_reload_lookup db e fs s :
  db !! e = Some (RSet fs s) -> o_reload db !! e = Some (RJson (o_rec_to_json (RSet fs s))).
Proof. intros Hdb. unfold o_reload. by rewrite lookup_fmap, Hdb. Qed.

(** ** Runs *)

(** After a successful [insert], the directory file holds every
    address of the file, each with a record whose tag [Set] was
    written as [{}]. *)
Lemma o_run_insert_saved al fs files fname T fs' rep text e :
  o_run al Written fs files (OInsert fname T) = Ok (fs', rep) -> files !! fname = Some text ->
  e ∈ readEmailFile (Some text) ->
  exists db fsx s, o_load (db_file fs') = Some (o_reload db) /\ db !! e = Some (RSet fsx s) /\ NoDup fsx.*1.
Proof.
  unfold o_run. destruct (o_load (db_file fs)) as [db0|] eqn:Hl; [|done]. intros Hr Hf He.
  rewrite Hf in Hr. destruct (o_insert _ _ db0) as [[db c]|] eqn:Hi; [|done].
  unfold o_finish, o_save, save_json in Hr. injection Hr as <- _.
  destruct (o_insert_fold _ _ _ _ _ _ (o_load_wf _ _ Hl) Hi) as [Hwf Hhit].
  destruct (Hhit e) as (fsx & s & Hdb); [left; by apply hits_readEmailFile|].
  exists db, fsx, s. split; [apply o_load_save|]. split; [done|]. by eapply Hwf.
Qed.

(** ** What the script does *)

(** C37: [insert] reports [inserted] plus [updated] equal to the number
    of lines of the file that hold an address: an address already in
    the directory counts as updated whether or not its tags change. *)
Theorem o_insert_counts lines T db db' c :
  o_insert lines T db = Ok (db', c) ->
  inserted c + updated c = count_if (fun l => is_Some (filterEmail l)) lines.
Proof. intros H. rewrite (o_insert_counts_fold _ _ _ _ _ _ H). simpl. lia. Qed.

(** C38: [lookup] lets a record through its tag test,
    [_.intersection(recTags, inputTags).length < tags.size], exactly
    when every tag of the query is a string of [Array.from(rec.tags)]:
    otherwise the record is skipped whatever the locale; with no
    [--locale] a record that passes is listed with its tags as a new
    [Set] and its calculated locale. *)
Theorem lookup_tag_test al T loc email r t recTags :
  NoDup T -> get_tags r = Ok t -> array_from al t = Ok recTags ->
  (~ (forall x, x ∈ T -> x ∈ tag_strings recTags) -> o_lookup_one al T loc email r = Ok None) /\
  ((forall x, x ∈ T -> x ∈ tag_strings recTags) ->
     o_lookup_one al T None email r
       = Ok (Some (mkOEntry (js_new_Set same_elem recTags) (calculated_locale email r)))).
Proof.
  intros HT Ht Ha. unfold o_lookup_one. rewrite Ht. cbn. rewrite Ha. cbn.
  pose proof (intersection_short (tag_strings recTags) T HT) as Hs.
  split; intros Hsub.
  - by rewrite bool_decide_true by (by apply Hs).
  - rewrite bool_decide_false; [done|]. intros Hlt. by apply (proj1 Hs Hlt).
Qed.

(** C11: once [insert] has saved an address, every later [insert] of a
    file holding it throws [TypeError: res.tags is not iterable] (the
    [Set] came back from the disk as [{}]) and saves nothing. *)
Theorem origin_reinsert_throws al fs files fname T fs' rep text e wo files' fname' T' text' :
  o_run al Written fs files (OInsert fname T) = Ok (fs', rep) -> files !! fname = Some text ->
  e ∈ readEmailFile (Some text) ->
  files' !! fname' = Some text' -> e ∈ readEmailFile (Some text') ->
  o_run al wo fs' files' (OInsert fname' T') = Err (OThrew NotIterable).
Proof.
  intros Hr Hf He Hf' He'.
  destruct (o_run_insert_saved _ _ _ _ _ _ _ _ _ Hr Hf He) as (db & fsx & s & Hl & Hdb & Hnd).
  unfold o_run. rewrite Hl, Hf'. unfold o_insert.
  erewrite o_insert_stale; [done|by apply hits_readEmailFile| |by apply o_reload_stale].
  by apply o_reload_lookup.
Qed.

(** C20: after an [insert] has saved an address, a later [query] with
    at least one [--tag] never lists it: [Array.from({})] is empty. *)
Theorem origin_tagged_query_misses al fs files fname T fs' rep text e wo files' T' loc fs'' res n :
  o_run al Written fs files (OInsert fname T) = Ok (fs', rep) -> files !! fname = Some text ->
  e ∈ readEmailFile (Some text) -> T' ≠ [] ->
  o_run al wo fs' files' (OQuery T' loc) = Ok (fs'', ORQuery res n) -> res !! e = None.
Proof.
  intros Hr Hf He HT Hq.
  destruct (o_run_insert_saved _ _ _ _ _ _ _ _ _ Hr Hf He) as (db & fsx & s & Hl & Hdb & Hnd).
  unfold o_run in Hq. rewrite Hl in Hq.
  destruct (o_lookup al _ loc (o_reload db)) as [res'|] eqn:Hlk; [|done].
  unfold o_finish in Hq. destruct (o_save _ _ _) in Hq; simplify_eq.
  destruct (res !! e) as [x|] eqn:Hx; [|done].
  destruct (o_lookup_sound _ _ _ _ _ _ _ Hlk Hx) as (r & Hr' & Ho).
  rewrite (o_reload_lookup _ _ _ _ Hdb) in Hr'. injection Hr' as <-.
  assert (js_new_Set String.eqb T' ≠ []) as HT'.
  { destruct T' as [|t T'']; [done|]. intros Hnil.
    destruct (js_new_Set_spec _ String_eqb_spec' (t :: T'')) as [_ Hin].
    specialize (Hin t). rewrite Hnil in Hin. set_solver. }
  pose proof (o_lookup_one_reloaded al _ loc e fsx s Hnd HT') as Hn. cbn [o_rec_to_json] in Hn.
  congruence.
Qed.

(** C21: after an [insert] has saved an address, the [tags] command
    throws on every later run. *)
Theorem origin_tags_throws al fs files fname T fs' rep text e wo files' :
  o_run al Written fs files (OInsert fname T) = Ok (fs', rep) -> files !! fname = Some text ->
  e ∈ readEmailFile (Some text) ->
  exists err, o_run al wo fs' files' OTags = Err (OThrew err).
Proof.
  intros Hr Hf He.
  destruct (o_run_insert_saved _ _ _ _ _ _ _ _ _ Hr Hf He) as (db & fsx & s & Hl & Hdb & Hnd).
  unfold o_run. rewrite Hl. destruct (o_allTags (o_reload db)) as [t|err] eqn:Ht; [|by eauto].
  exfalso. unfold o_allTags in Ht. pose proof (o_reload_lookup _ _ _ _ Hdb) as Hk.
  destruct (fold_result_Ok_step _ _ _ _ e Ht) as (a & a' & Hs); [apply for_in_keys_spec; by rewrite Hk|].
  cbv beta in Hs. rewrite Hk in Hs. cbv iota in Hs. by rewrite o_reload_tags in Hs.
Qed.

End Origin.
