(* ===== verification/LegacyCli.v ===== *)
(** * LegacyCli: the commands of part_002 and of the first script of part_000

    Both scripts keep the directory of [Legacy] (records with [broken]
    and [clean] flags) in their own class [EmailDB] ([Classes]):
    [script_db] gives each script its class, and [script_db_laws]
    its laws.  The scripts differ in their [markAsBroken]/[markAsClean]
    ([Legacy]), in their file names, and in their commands:
    - src/unnamed/part_002 (l. 243-400): [insert], [query], [export],
      [tags], [cleanup], [download_broken], [download_clean];
    - src/unnamed/part_000, first script (l. 280-513): the same but
      [download_delivered] in place of [download_clean], and
      [mark_clean], [mark_broken], [find_emails]; its query prints
      each address with [emailToString] (l. 238-258), its file names
      come from [makeFilename] (l. 319-345) and its address files are
      read by its own [readEmailFile] (l. 347-364).

    The actions ([x_insert] ... [x_find_emails]) are written against
    any class [edb]; [x_handle] is commander's dispatch (an undeclared
    command prints the help), [x_run] one process: [db.load()], the
    action, the file it writes, [db.save()].  Both [export]s pass
    neither [cleanOnly] nor [dirtyOnly] to [lookup], though their file
    names record them.  The theorems on saved directories use only the
    laws of the classes. *)

From Stdlib Require Import ZArith Lia.
From S2P Require Import Prelude Regex Normalizer Store Query Mutations Paging Commands Legacy Cli Classes.
Import Regex Normalizer Store Query Mutations Paging Commands Legacy Cli Classes.

Module LegacyCli.

Inductive script : Type := Part002 | Part000.

#[export] Instance script_eq_dec : EqDecision script.
Proof. solve_decision. Defined.

(** The class [EmailDB] each script declares ([Classes]). *)
Definition script_db (sc : script) : EmailDB :=
  match sc with Part002 => p2_db | Part000 => p0_db end.

#[export] Instance script_db_laws sc : EmailDBLaws (script_db sc).
Proof.
  destruct sc; [cli_laws (markAsBroken2_dom, markAsClean2_dom)
               |cli_laws (markAsBroken0_dom, markAsClean0_dom)].
Qed.

(** ** Output *)

(** [emailToString], part_000 l. 238-258. *)
Definition l_emailToString (db : LDB) (email : string) : string :=
  match db !! email with
  | None => email +:+ ": not found in db"
  | Some r =>
      let loc := l_calculatedLocale email r in
      let locale := if bool_decide (loc = "") then "?" else loc in
      email +:+ ":"
        +:+ (if bool_decide (0 < size (l_tags r)) then "(" +:+ js_join "," (elements (l_tags r)) +:+ ")" else "")
        +:+ "[" +:+ locale +:+ "]"
        +:+ (if l_clean r then "(clean!)" else "(dirty)")
        +:+ (if l_broken r then "[ !! BROKEN !! ]" else "")
  end.

(** part_002 l. 276-279: [${email}: (${tags}), ${rec.locale || '?'}]. *)
Definition p2_entry_line (email : string) (e : result_entry) : string :=
  email +:+ ": (" +:+ js_join "," (elements (e_tags e)) +:+ "), "
    +:+ (if bool_decide (e_locale e = "") then "?" else e_locale e).

Definition query_lines (sc : script) (db : LDB) (res : gmap string result_entry) : list string :=
  match sc with
  | Part002 => (fun kr => p2_entry_line kr.1 kr.2) <$> map_to_list res
  | Part000 => l_emailToString db <$> for_in_keys res
  end.

(** ** File names *)

(** [moment().format('YYYY-MM-DD:HH.MM')]: [MM] is the month in both
    places. *)
Definition l_format_stamp (m : moment) : string :=
  pad 4 (digits (year m)) +:+ "-" +:+ pad 2 (digits (month m)) +:+ "-" +:+
  pad 2 (digits (day m)) +:+ ":" +:+ pad 2 (digits (hour m)) +:+ "." +:+
  pad 2 (digits (month m)).

(** part_002 l. 299-315. *)
Definition p2_export_name (now : moment) (tags : list string) (loc : option string)
    (cleanOnly dirtyOnly : bool) : string :=
  "export/" +:+ (if bool_decide (0 < length tags) then js_join "," tags else "")
    +:+ (if truthy_str loc then "-" +:+ default "" loc else "")
    +:+ (if cleanOnly then "-clean" else "")
    +:+ (if dirtyOnly then "-dirty" else "")
    +:+ "@" +:+ l_format_stamp now +:+ ".txt".

(** part_000 l. 329-340: [${inputId}:${str.toString()}], skipping
    [null] and [undefined]. *)
Definition l_input_token (kv : string * input_val) : option string :=
  let '(k, v) := kv in
  match v with
  | IUndef => None
  | IArr l => Some (k +:+ ":" +:+ js_join "," l)
  | IStr s => Some (k +:+ ":" +:+ s)
  | IBool b => Some (k +:+ ":" +:+ if b then "true" else "false")
  end.

(** [makeFilename], part_000 l. 319-345. *)
Definition makeFilename0 (base : string) (m : moment) (input : list (string * input_val)) : string :=
  base +:+ "/" +:+ js_join "-" (l_format_stamp m :: omap l_input_token input) +:+ ".txt".

(** [readEmailFile], part_000 l. 347-364: part_001's function with
    the script's own [filterEmail]; a file that cannot be read gives
    [[]]. *)
Definition readEmailFile0 (content : option string) : list string :=
  match content with
  | None => []
  | Some text => omap p0_filterEmail (js_split newline text)
  end.

(** A [--clean-only] flag: [true] when given, [undefined] otherwise. *)
Definition flag_input (b : bool) : input_val := if b then IBool true else IUndef.

Definition export_name (sc : script) (now : moment) (tags : list string) (loc : option string)
    (cleanOnly dirtyOnly : bool) : string :=
  match sc with
  | Part002 => p2_export_name now tags loc cleanOnly dirtyOnly
  | Part000 => makeFilename0 "export" now
                 [("tags", IArr tags); ("locale", opt_input loc);
                  ("cleanOnly", flag_input cleanOnly); ("dirtyOnly", flag_input dirtyOnly)]
  end.

(** ** The commands *)

Inductive legacy_command : Type :=
| XInsert (filename : string) (tags : list string) (locale : option string)
| XQuery (tags : list string) (locale : option string) (cleanOnly dirtyOnly : bool)
| XExport (tags : list string) (locale : option string) (cleanOnly dirtyOnly : bool)
| XTags
| XCleanup
| XDownloadBroken (unsubscribes bounces complaints : provider string)
| XDownloadClean (events : provider (string * string))      (** part_002 *)
| XDownloadDelivered (events : provider (string * string))  (** part_000 *)
| XMarkClean (filename : string)                            (** part_000 *)
| XMarkBroken (filename : string)                           (** part_000 *)
| XFindEmails (r : regex).                                  (** part_000 *)

Inductive x_report : Type :=
| XRInsert (c : counters)
| XRLines (lines : list string) (total : nat)
| XRTags (t : gmap string jsv)
| XRCleanup (c : cleanup_counters)
| XRCount (n : nat)
| XRNothing.

Record x_output : Type := mkXOutput {
  x_db : option LDB;                  (** the directory [db.save()] writes *)
  x_file : option (string * string);  (** the file [fs.writeFileSync] writes *)
  x_rep : x_report
}.

Inductive x_outcome : Type :=
| XFinished (o : x_output)
| XRejected      (** the action threw *)
| XPending       (** [pageAll] never returned *)
| XHelp.         (** an undeclared command: [program.help()] *)

Section handlers.
Context (fuel : nat) `{edb : EmailDB}.

Definition x_drained {A} (d : drain_outcome A) (k : list A -> x_outcome) : x_outcome :=
  match d with Drained l => k l | Failed _ => XRejected | OutOfFuel => XPending end.

(** The actions; the line numbers are those of part_000's first
    script, whose part_002 counterparts (l. 243-337, 365-384) are the
    same code. *)

(** [insert <filename>], l. 280-293. *)
Definition x_insert (files : gmap string string) (fname : string) (tags : list string)
    (loc : option string) (db : LDB) : x_outcome :=
  match files !! fname with
  | None => XRejected
  | Some text =>
      let '(db', cnt) := db_insert (js_split newline text) (list_to_set tags) loc db in
      XFinished (mkXOutput (Some db') None (XRInsert cnt))
  end.

(** [query], l. 295-317. *)
Definition x_query (sc : script) (tags : list string) (loc : option string) (co d : bool) (db : LDB)
    : x_outcome :=
  let res := db_lookup co d (list_to_set tags) loc db in
  XFinished (mkXOutput None None (XRLines (query_lines sc db res) (size res))).

(** [export], l. 366-394: [lookup({tags, locale})] without the flags. *)
Definition x_export (sc : script) (now : moment) (tags : list string) (loc : option string)
    (co d : bool) (db : LDB) : x_outcome :=
  let res := db_lookup false false (list_to_set tags) loc db in
  XFinished (mkXOutput None
    (Some (export_name sc now tags loc co d, saveEmailFile (for_in_keys res))) XRNothing).

(** [tags], l. 396-404. *)
Definition x_tags (db : LDB) : x_outcome := XFinished (mkXOutput None None (XRTags (db_allTags db))).

(** [cleanup], l. 406-413. *)
Definition x_cleanup (db : LDB) : x_outcome :=
  let '(db', cnt) := db_cleanup db in
  XFinished (mkXOutput (Some db') None (XRCleanup cnt)).

(** [download_broken], l. 441-460: the addresses are marked, not
    written to a file. *)
Definition x_download_broken (p1 p2 p3 : provider string) (db : LDB) : x_outcome :=
  x_drained (download_all fuel [p1; p2; p3]) (fun emails =>
    let '(db', n) := db_markAsBroken emails db in
    XFinished (mkXOutput (Some db') None (XRCount n))).

(** [download_clean], part_002 l. 386-400. *)
Definition x_download_clean (p : provider (string * string)) (db : LDB) : x_outcome :=
  x_drained (pageAll p fuel) (fun evs =>
    let emails := uniq evs.*1 in
    XFinished (mkXOutput (Some (db_markAsClean emails db).1) None (XRCount (length emails)))).

(** [download_delivered], l. 462-479: a file, no [db.save()]. *)
Definition x_download_delivered (now : moment) (p : provider (string * string)) : x_outcome :=
  x_drained (pageAll p fuel) (fun evs =>
    let emails := uniq evs.*1 in
    XFinished (mkXOutput None
      (Some (makeFilename0 "downloaded" now [("delivered", IBool true)], saveEmailFile emails))
      (XRCount (length emails)))).

(** [mark_clean <filename>], l. 481-489. *)
Definition x_mark_clean (files : gmap string string) (fname : string) (db : LDB) : x_outcome :=
  let emails := readEmailFile0 (files !! fname) in
  XFinished (mkXOutput (Some (db_markAsClean emails db).1) None (XRCount (length emails))).

(** [mark_broken <filename>], l. 491-499. *)
Definition x_mark_broken (files : gmap string string) (fname : string) (db : LDB) : x_outcome :=
  let emails := readEmailFile0 (files !! fname) in
  XFinished (mkXOutput (Some (db_markAsBroken emails db).1) None (XRCount (length emails))).

(** [find_emails <regexp>], l. 501-509. *)
Definition x_find_emails (r : regex) (db : LDB) : x_outcome :=
  let res := p0_lookupByRegexp r db in
  XFinished (mkXOutput None None (XRLines (l_emailToString db <$> for_in_keys res) (size res))).

(** The action commander dispatches [c] to in script [sc], or
    [program.help()] for a command the script does not declare. *)
Definition x_handle (sc : script) (now : moment) (files : gmap string string)
    (c : legacy_command) (db : LDB) : x_outcome :=
  match c, sc with
  | XInsert fname tags loc, _ => x_insert files fname tags loc db
  | XQuery tags loc co d, _ => x_query sc tags loc co d db
  | XExport tags loc co d, _ => x_export sc now tags loc co d db
  | XTags, _ => x_tags db
  | XCleanup, _ => x_cleanup db
  | XDownloadBroken p1 p2 p3, _ => x_download_broken p1 p2 p3 db
  | XDownloadClean p, Part002 => x_download_clean p db
  | XDownloadDelivered p, Part000 => x_download_delivered now p
  | XMarkClean fname, Part000 => x_mark_clean files fname db
  | XMarkBroken fname, Part000 => x_mark_broken files fname db
  | XFindEmails r, Part000 => x_find_emails r db
  | _, _ => XHelp
  end.

Inductive x_error : Type :=
| XStartupCrash (e : load_error)
| XActionRejected
| XActionPending
| XHelpExit
| XSaveFailed (w : world).

(** One process: [db.load()] (part_002 l. 229, part_000 l. 266), the
    action, then its file and its [db.save()]. *)
Definition x_run (sc : script) (wo : write_outcome) (w : world) (c : legacy_command)
    : result x_error (world * x_report) :=
  match db_load (db_file (w_fs w)) with
  | Err e => Err (XStartupCrash e)
  | Ok db =>
      match x_handle sc (w_clock w) (w_files w) c db with
      | XRejected => Err XActionRejected
      | XPending => Err XActionPending
      | XHelp => Err XHelpExit
      | XFinished o =>
          let files := write_file (x_file o) (w_files w) in
          match x_db o with
          | None => Ok (mkWorld (w_fs w) files (w_clock w), x_rep o)
          | Some db' =>
              match db_save wo (w_fs w) db' with
              | Ok fs' => Ok (mkWorld fs' files (w_clock w), x_rep o)
              | Err fs' => Err (XSaveFailed (mkWorld fs' files (w_clock w)))
              end
          end
      end
  end.

End handlers.

(** ** Properties *)

(** C13: in both legacy scripts the export's file name depends on the
    clock only through the year, month, day and hour ([MM] in the
    format is the month): two exports of the same query within one
    hour write the same file, the second over the first. *)
Lemma export_name_same_hour sc m1 m2 T loc co d :
  year m1 = year m2 -> month m1 = month m2 -> day m1 = day m2 -> hour m1 = hour m2 ->
  export_name sc m1 T loc co d = export_name sc m2 T loc co d.
Proof.
  intros Hy Hm Hd Hh. assert (l_format_stamp m1 = l_format_stamp m2) as Hs.
  { unfold l_format_stamp. by rewrite Hy, Hm, Hd, Hh. }
  unfold export_name, p2_export_name, makeFilename0. destruct sc; by rewrite Hs.
Qed.

(** C12: in both legacy scripts, [export --clean-only] writes a dirty
    address that the same query answers, in a file whose name says
    [clean], while [query --clean-only] omits it: the action passes
    neither flag to [lookup]. *)
Theorem export_clean_only_lists_dirty fuel sc now files T loc d db e r :
  db !! e = Some r -> l_clean r = false ->
  is_Some (flag_lookup false false (list_to_set T) loc db !! e) ->
  flag_lookup true false (list_to_set T) loc db !! e = None /\
  exists emails,
    x_handle fuel (edb := script_db sc) sc now files (XExport T loc true d) db
      = XFinished (mkXOutput None (Some (export_name sc now T loc true d, saveEmailFile emails)) XRNothing)
    /\ e ∈ emails.
Proof.
  intros Hdb Hc Hx. split.
  - unfold flag_lookup. rewrite map_lookup_imap, Hdb. simpl. unfold flag_lookup_one. rewrite Hc.
    by destruct (l_broken r).
  - eexists. split; [reflexivity|]. apply for_in_keys_spec. by rewrite db_lookup_gates.
Qed.

(** A legacy action that saves a directory leaves [JSON.stringify] of
    it in [data/db.json] when the write succeeds. *)
Lemma x_run_saves fuel sc w c db o db' :
  db_load (EmailDB := script_db sc) (db_file (w_fs w)) = Ok db ->
  x_handle fuel (edb := script_db sc) sc (w_clock w) (w_files w) c db = XFinished o ->
  x_db o = Some db' ->
  exists w', x_run fuel (edb := script_db sc) sc Written w c = Ok (w', x_rep o) /\
    db_file (w_fs w') = Some (Parsed (l_db_to_json db')).
Proof.
  intros Hl Hh Ho. destruct (db_save_ok (I := script_db sc) (w_fs w) db') as [fs' Hs].
  unfold x_run. rewrite Hl, Hh, Ho, Hs. eexists. split; [reflexivity|].
  exact (db_save_writes _ _ _ _ Hs).
Qed.

(** C14: in both legacy scripts, an action that saves a non-empty
    directory ([insert], [cleanup], [download_broken], [download_clean],
    [mark_clean], [mark_broken]) succeeds, and from then on every run
    of either script crashes at start-up: [load] runs
    [new Set(rec.tags)] on the [{}] that [save] wrote.  The proof uses
    only the laws of the two classes. *)
Theorem legacy_save_then_crash fuel sc w c db o db' fuel' sc' wo c' :
  db_load (EmailDB := script_db sc) (db_file (w_fs w)) = Ok db ->
  x_handle fuel (edb := script_db sc) sc (w_clock w) (w_files w) c db = XFinished o ->
  x_db o = Some db' -> db' ≠ ∅ ->
  exists w', x_run fuel (edb := script_db sc) sc Written w c = Ok (w', x_rep o) /\
    exists e, x_run fuel' (edb := script_db sc') sc' wo w' c' = Err (XStartupCrash (LoadTypeError e)).
Proof.
  intros Hl Hh Ho Hne. destruct (x_run_saves _ _ _ _ _ _ _ Hl Hh Ho) as (w' & Hr & Hf).
  exists w'. split; [done|].
  destruct (db_load_stringified (I := script_db sc') db' Hne) as [e He]. exists e.
  unfold x_run. by rewrite Hf, He.
Qed.

(** C15: the upgrade from a legacy script to part_001 fails on the
    legacy script's own data: once an action of part_002 or of
    part_000's first script has saved a non-empty directory, every run
    of part_001, whatever its command, crashes in [db.load()] with a
    [TypeError] on the saved [{}], before the migration of the
    [broken]/[clean] flags (part_001 l. 83-91) is reached. *)
Theorem legacy_save_bricks_part001 fuel sc w c db o db' ds sn iso fuel' wo c' :
  db_load (EmailDB := script_db sc) (db_file (w_fs w)) = Ok db ->
  x_handle fuel (edb := script_db sc) sc (w_clock w) (w_files w) c db = XFinished o ->
  x_db o = Some db' -> db' ≠ ∅ ->
  exists w', x_run fuel (edb := script_db sc) sc Written w c = Ok (w', x_rep o) /\
    exists e, run ds sn iso fuel' wo w' c' = Err (StartupCrash (LoadTypeError e)).
Proof.
  intros Hl Hh Ho Hne. destruct (x_run_saves _ _ _ _ _ _ _ Hl Hh Ho) as (w' & Hr & Hf).
  exists w'. split; [done|].
  destruct (load_l_db_to_json db' Hne) as [e He]. exists e.
  unfold run. by rewrite Hf, He.
Qed.

(** ** The directories the actions save *)

(** Every key is a normalised address. *)
Definition lkeys_normal (db : LDB) : Prop :=
  forall k r, db !! k = Some r -> filterEmail k = Some k.

Section laws.
Context (I : EmailDB) `{!EmailDBLaws I}.

Lemma lkeys_normal_insert lines T loc db :
  lkeys_normal db -> lkeys_normal (db_insert lines T loc db).1.
Proof.
  intros Hn k r Hk. destruct (db_insert_normal _ _ _ _ _ _ Hk) as [[r0 Hr0]|]; [|done].
  by eapply Hn.
Qed.

Lemma lkeys_normal_dom (db db' : LDB) :
  (forall k, is_Some (db' !! k) -> is_Some (db !! k)) -> lkeys_normal db -> lkeys_normal db'.
Proof. intros Hd Hn k r Hk. destruct (Hd k ltac:(by eexists)) as [r0 Hr0]. by eapply Hn. Qed.

(** C17: in both legacy scripts, every directory an action saves keeps
    its keys normalised addresses when the loaded one did: [insert]
    adds only [filterEmail] results, [cleanup] drops or renames every
    other key, and the markers touch only the records. *)
Theorem legacy_saved_keys_normal fuel sc now files c db o db' :
  lkeys_normal db -> x_handle fuel (edb := I) sc now files c db = XFinished o ->
  x_db o = Some db' -> lkeys_normal db'.
Proof.
  intros Hn Hh Ho. destruct c, sc; cbn in Hh;
    unfold x_insert, x_query, x_export, x_tags, x_cleanup, x_download_broken, x_download_clean,
      x_download_delivered, x_mark_clean, x_mark_broken, x_find_emails, x_drained in Hh;
    repeat match type of Hh with
    | context [match ?x with _ => _ end] => destruct x eqn:?
    end; simplify_eq/=.
  all: try match goal with H : ?e = (?d, _) |- lkeys_normal ?d => replace d with e.1 by (by rewrite H) end.
  all: first [by apply lkeys_normal_insert | intros ??; apply db_cleanup_normal
             | apply (lkeys_normal_dom db); [intros k; rewrite ?db_markAsBroken_dom, ?db_markAsClean_dom|]];
    done.
Qed.

End laws.

End LegacyCli.
