(* ===== verification/Send.v ===== *)
(** * Send: the [send] command of src/unnamed/part_001 (l. 559-593)

    [send <listName> <subject> <htmlFile>] reads the HTML body, checks
    [process.env.MAILGUN_DOMAIN], composes the recipient
    [listName@MAILGUN_DOMAIN] and the mail options (sender
    [FROM_ADDRESS], empty text part), compiles the MIME message with
    [MailComposer] and posts it with [mg.messages().sendMime].  It
    neither reads nor writes the directory, but it runs after the
    start-up [db.load()] (l. 307) like every command.

    The MIME compiler is the parameter [compile] and the provider's
    answer the flag [delivered]: MIME assembly and delivery are the
    provider's (the specification's collaborator), the recipient and
    the content handed to it are the program's. *)

From Stdlib Require Import ZArith.
From S2P Require Import Prelude Normalizer Store Mutations Commands.
Import Normalizer Store Mutations Commands.

Module Send.

(** The variables of [process.env] the command reads ([None] is
    [undefined]). *)
Record env : Type := mkEnv { MAILGUN_DOMAIN : option string; FROM_ADDRESS : option string }.

(** [mailOptions], l. 570-576. *)
Record mail_options : Type := mkMailOptions {
  mo_from : option string;
  mo_to : string;
  mo_subject : string;
  mo_text : string;
  mo_html : string
}.

(** [dataToSend], l. 581-584. *)
Record mime : Type := mkMime { mime_to : string; mime_message : string }.

Inductive send_outcome : Type :=
| SendNoDomain                 (** [log.error(...); return], l. 564-567 *)
| SendPosted (m : mime)        (** [sendMime] resolved *)
| SendRejected.                (** [readFileSync] or [sendMime] threw *)

Section send.

(** [new MailComposer(o).compile().build()], then [toString('ascii')]. *)
Context (compile : mail_options -> string).

(** [`${listName}@${process.env.MAILGUN_DOMAIN}`], l. 569. *)
Definition recipient (listName domain : string) : string := listName +:+ "@" +:+ domain.

(** The action, l. 561-593; [delivered] is the outcome of [sendMime]. *)
Definition send_action (e : env) (files : gmap string string)
    (listName subject htmlFile : string) (delivered : bool) : send_outcome :=
  match files !! htmlFile with
  | None => SendRejected
  | Some html =>
      match MAILGUN_DOMAIN e with
      | None => SendNoDomain
      | Some dom =>
          let to := recipient listName dom in
          let opts := mkMailOptions (FROM_ADDRESS e) to subject "" html in
          if delivered then SendPosted (mkMime to (compile opts)) else SendRejected
      end
  end.

(** One process running [send]: [db.load()] at start-up, then the
    action; nothing is saved and no file is written. *)
Definition send_run (e : env) (delivered : bool) (w : world)
    (listName subject htmlFile : string) : result run_error (world * option mime) :=
  match load (db_file (w_fs w)) with
  | Err err => Err (StartupCrash err)
  | Ok _ =>
      match send_action e (w_files w) listName subject htmlFile delivered with
      | SendRejected => Err ActionRejected
      | SendNoDomain => Ok (w, None)
      | SendPosted m => Ok (w, Some m)
      end
  end.

End send.

(** ** Properties *)

(** [send] leaves the world as it found it: nothing is saved and no
    file is written, whatever the outcome. *)
Lemma send_run_world compile e delivered w l s h w' m :
  send_run compile e delivered w l s h = Ok (w', m) -> w' = w.
Proof.
  unfold send_run. destruct (load _); [|done].
  by destruct (send_action _ _ _ _ _ _ _); intros [= <- _].
Qed.

(** [fs.readFileSync(htmlFile)] runs before the [MAILGUN_DOMAIN]
    check: a missing body rejects the command whatever the
    environment. *)
Lemma send_missing_body compile e delivered w l s h db :
  load (db_file (w_fs w)) = Ok db -> w_files w !! h = None ->
  send_run compile e delivered w l s h = Err ActionRejected.
Proof. intros Hl Hh. unfold send_run, send_action. by rewrite Hl, Hh. Qed.

(** C27: once the directory has been loaded, [send] reads the HTML
    body first (a missing file rejects the command whatever the
    environment); with the body and [MAILGUN_DOMAIN] present it hands
    the provider the compiled body with the subject, the sender
    [FROM_ADDRESS] and an empty text part, addressed to the string
    [listName ++ "@" ++ MAILGUN_DOMAIN] (an empty domain gives
    [listName@]), and succeeds exactly when the provider accepts;
    without a domain it posts nothing and ends normally. *)
Theorem send_posts compile e delivered w l s h db :
  load (db_file (w_fs w)) = Ok db ->
  (w_files w !! h = None -> send_run compile e delivered w l s h = Err ActionRejected) /\
  (forall html dom, w_files w !! h = Some html -> MAILGUN_DOMAIN e = Some dom ->
     send_run compile e delivered w l s h =
       if delivered
       then Ok (w, Some (mkMime (l +:+ "@" +:+ dom)
                          (compile (mkMailOptions (FROM_ADDRESS e) (l +:+ "@" +:+ dom) s "" html))))
       else Err ActionRejected) /\
  (forall html, w_files w !! h = Some html -> MAILGUN_DOMAIN e = None ->
     send_run compile e delivered w l s h = Ok (w, None)).
Proof.
  intros Hl. unfold send_run, send_action. rewrite Hl.
  split; [intros Hh; by rewrite Hh|]. split; intros html; [intros dom|]; intros Hh Hd; rewrite Hh, Hd; [|done].
  by destruct delivered.
Qed.

(** C22: [send] runs after the start-up [db.load()]: once the program has
    saved a non-empty directory, [send] crashes with a [TypeError]
    before reading its arguments, like every other command. *)
Theorem send_crashes_after_save compile e delivered w l s h db :
  db_file (w_fs w) = Some (Parsed (db_to_json db)) -> db ≠ ∅ ->
  exists email, send_run compile e delivered w l s h = Err (StartupCrash (LoadTypeError email)).
Proof.
  intros Hf Hne. destruct (load_db_to_json_TypeError db Hne) as (email & _ & He).
  exists email. unfold send_run. by rewrite Hf, He.
Qed.

End Send.
