(* ===== verification/Program.v ===== *)
(** * Program: the runs of src/unnamed/part_001 as a transition system

    Each invocation of the script is one [Commands.run] (or one
    [Send.send_run] for [send]): it loads [data/db.json], performs one
    command and saves.  A run that ends in an error terminates the
    process through the [unhandledRejection] / [uncaughtException]
    handlers (l. 309-319); only a [db.save()] that
    threw after its rename has changed the directory files.  Between
    runs the user may edit the email files and the clock moves on;
    nobody else touches [data/].

    [step] is that labelled system without its labels and [reachable]
    its reachable worlds from a fresh installation.  The invariant
    [fs_ok] says that each of the two directory files is absent,
    truncated by a failed write ([Corrupt]), or the serialisation
    [db_to_json db] of a directory whose keys are normalised
    addresses; it holds in every reachable world.  Its
    consequence is that no run ever starts from a non-empty directory:
    whatever was inserted is lost (see [Store.load_after_save_fails]). *)

From Stdlib Require Import ZArith.
From S2P Require Import Prelude Normalizer Store Mutations Commands Send.
Import Normalizer Store Mutations Commands Send.

Module Program.

Section program.
Context (days_since str_to_number : string -> option Z) (iso : moment -> string) (fuel : nat).
Context (compile : mail_options -> string).

(** The world a failed run leaves behind: only a failed save has
    touched the disk (with the email file of the action written). *)
Definition after_error (e : run_error) (w : world) : world :=
  match e with SaveFailed w' => w' | _ => w end.

(** One invocation of the script, or a change of the environment. *)
Inductive step : world -> world -> Prop :=
| step_run_ok wo w c w' rep :
    run days_since str_to_number iso fuel wo w c = Ok (w', rep) -> step w w'
| step_run_err wo w c e :
    run days_since str_to_number iso fuel wo w c = Err e -> step w (after_error e w)
| step_send e delivered w l s h r :
    send_run compile e delivered w l s h = r ->
    step w (match r with Ok (w', _) => w' | Err _ => w end)
| step_env w files clk :
    step w (mkWorld (w_fs w) files clk).

(** A fresh installation has neither [data/db.json] nor its backup. *)
Inductive reachable : world -> Prop :=
| reach_init files clk : reachable (mkWorld (mkFS None None) files clk)
| reach_step w w' : reachable w -> step w w' -> reachable w'.

End program.

(** ** The invariant of the directory files *)

(** A file is absent, truncated by a failed write, or the
    serialisation of a directory keyed by normalised addresses. *)
Definition file_ok (f : option file) : Prop :=
  match f with
  | None => True
  | Some (Parsed j) => exists db, j = db_to_json db /\ keys_normal db
  | Some Corrupt => True
  end.

Definition fs_ok (fs : FS) : Prop := file_ok (db_file fs) /\ file_ok (tmp_file fs).

Lemma keys_normal_empty : keys_normal (∅ : DB).
Proof. intros k r. by rewrite lookup_empty. Qed.

Lemma load_db_to_json_empty : load (Some (Parsed (db_to_json ∅))) = Ok ∅.
Proof. unfold db_to_json. by rewrite map_to_list_empty. Qed.

(** A well-formed file loads to the empty directory or fails. *)
Lemma file_ok_load f db : file_ok f -> load f = Ok db -> db = ∅.
Proof.
  destruct f as [[j|]|]; [|by intros _ [=]|by intros _ [=]].
  intros (db0 & -> & _) Hl. destruct (decide (db0 = ∅)) as [->|Hne].
  - rewrite load_db_to_json_empty in Hl. by simplify_eq.
  - destruct (load_db_to_json_TypeError db0 Hne) as (e & _ & He). congruence.
Qed.

Lemma save_fs_ok wo fs db :
  fs_ok fs -> keys_normal db ->
  match save wo fs db with Ok fs' | Err fs' => fs_ok fs' end.
Proof.
  intros [Hd Ht] Hn. unfold save, save_json.
  destruct (db_file fs) eqn:E, wo; split; cbn; rewrite ?E; eauto.
Qed.

Lemma run_ok_fs_ok ds sn iso fuel wo w c w' rep :
  fs_ok (w_fs w) -> run ds sn iso fuel wo w c = Ok (w', rep) -> fs_ok (w_fs w').
Proof.
  intros Hok. unfold run.
  destruct (load _) as [db|] eqn:Hl; [|done].
  pose proof (file_ok_load _ _ (proj1 Hok) Hl) as ->.
  destruct (handle _ _ _ _ _ _ c ∅) as [o| | |] eqn:Hh; try done.
  destruct (o_db o) as [db'|] eqn:Ho; [|by intros [=<-]].
  pose proof (save_fs_ok wo (w_fs w) db' Hok
                (handle_keys_normal _ _ _ _ _ _ _ _ _ _ keys_normal_empty Hh Ho)) as Hs.
  destruct (save wo (w_fs w) db'); by intros [=<-].
Qed.

Lemma run_err_fs_ok ds sn iso fuel wo w c e :
  fs_ok (w_fs w) -> run ds sn iso fuel wo w c = Err e -> fs_ok (w_fs (after_error e w)).
Proof.
  intros Hok. unfold run.
  destruct (load _) as [db|] eqn:Hl; [|by intros [=<-]].
  pose proof (file_ok_load _ _ (proj1 Hok) Hl) as ->.
  destruct (handle _ _ _ _ _ _ c ∅) as [o| | |] eqn:Hh; try by intros [=<-].
  destruct (o_db o) as [db'|] eqn:Ho; [|done].
  pose proof (save_fs_ok wo (w_fs w) db' Hok
                (handle_keys_normal _ _ _ _ _ _ _ _ _ _ keys_normal_empty Hh Ho)) as Hs.
  destruct (save wo (w_fs w) db'); by intros [=<-].
Qed.

Lemma step_fs_ok ds sn iso fuel cp w w' :
  fs_ok (w_fs w) -> step ds sn iso fuel cp w w' -> fs_ok (w_fs w').
Proof.
  intros Hok Hs. destruct Hs as [| |e d w l s h [[w' m]|] Hr|]; [eapply run_ok_fs_ok|eapply run_err_fs_ok|..];
    eauto; by rewrite (send_run_world _ _ _ _ _ _ _ _ _ Hr).
Qed.

Lemma reachable_fs_ok_aux ds sn iso fuel cp w :
  reachable ds sn iso fuel cp w -> fs_ok (w_fs w).
Proof.
  induction 1 as [files clk|w w' _ IH Hs]; [done|]. by eapply step_fs_ok.
Qed.

Lemma reachable_load_empty_aux ds sn iso fuel cp w db :
  reachable ds sn iso fuel cp w -> load (db_file (w_fs w)) = Ok db -> db = ∅.
Proof. intros Hr. apply file_ok_load, reachable_fs_ok_aux with ds sn iso fuel cp, Hr. Qed.

(** ** Properties of every reachable world *)

(** C6: the directory files are well formed in every world the program
    can reach from a fresh installation: [data/db.json] and its backup
    are absent, truncated by a failed write, or hold [JSON.stringify]
    of a directory keyed by normalised addresses, whatever commands
    ran, failed or were interrupted by a failed write, and whatever the
    user did to the email files between runs: no run ever writes a
    parsable file that is not such a serialisation. *)
Theorem reachable_files_well_formed ds sn iso fuel cp w :
  reachable ds sn iso fuel cp w -> fs_ok (w_fs w).
Proof. apply reachable_fs_ok_aux. Qed.

(** C5: no run ever starts from a non-empty directory: in every
    reachable world, [db.load()] either throws or yields the empty
    directory, so nothing the program inserts is ever seen again. *)
Theorem reachable_load_empty ds sn iso fuel cp w db :
  reachable ds sn iso fuel cp w -> load (db_file (w_fs w)) = Ok db -> db = ∅.
Proof. apply reachable_load_empty_aux. Qed.

(** A [query] that completes in a reachable world prints no
    address and reports [Total: 0]. *)
Theorem reachable_query_empty ds sn iso fuel cp wo w T loc st cold w' lines n :
  reachable ds sn iso fuel cp w ->
  run ds sn iso fuel wo w (CQuery T loc st cold) = Ok (w', RLines lines n) ->
  lines = [] /\ n = 0.
Proof.
  intros Hr. unfold run.
  destruct (load _) as [db|] eqn:Hl; [|done].
  rewrite (reachable_load_empty_aux _ _ _ _ _ _ _ Hr Hl). cbn. unfold query_cmd.
  destruct (invalid_status st); [done|]. cbn.
  unfold Query.Query.lookup. rewrite map_imap_empty. by intros [=<- <-].
Qed.

End Program.
