(* ===== verification/Versions.v ===== *)
(** * Versions: the five iterations of the tool on one [data/db.json]

    The scripts of the repository are successive versions of one tool
    and read and write the same [data/db.json] and its backup: cli.js
    ([Cli.cli_run]), part_002 and the first script of part_000
    ([LegacyCli.x_run] with the script's class), the second script of
    part_000 ([Origin.o_run]) and part_001 ([Program.step]: its runs,
    [send] and the user's edits).  [vstep] lets the user run any
    version at any time; [vreachable] are the worlds reachable from a
    fresh installation.

    Every version writes a record's tag [Set] as [{}].  [file_erased]
    says that each record of a file has [tags: {}]; every version
    keeps it ([vstep_erased]), Origin included, which never rebuilds
    the sets it loads.  Hence no version but Origin ever loads a
    non-empty directory, and Origin sees no tag of any record it
    loads: whatever the order in which the versions are run, no tag
    written to the file is ever read back. *)

From Stdlib Require Import ZArith.
From S2P Require Import Prelude Regex Normalizer Store Query Mutations Paging Commands Legacy Cli Classes Origin LegacyCli Send Program.
Import Normalizer Store Mutations Commands Legacy Cli Classes Origin LegacyCli Send Program.

Module Versions.

(** ** Files whose records all have [tags: {}] *)

Definition rec_erased (v : json) : Prop :=
  exists fs, v = JObj fs /\ json_field fs "tags" = Some (JObj []).

Definition json_erased (j : json) : Prop :=
  match j with JObj fs => Forall (fun kv => rec_erased kv.2) fs | _ => False end.

(** A file is absent, truncated by a failed write, or a JSON object
    whose records all have [tags: {}]. *)
Definition file_erased (f : option file) : Prop :=
  match f with None => True | Some (Parsed j) => json_erased j | Some Corrupt => True end.

Definition vfs_ok (fs : FS) : Prop := file_erased (db_file fs) /\ file_erased (tmp_file fs).

Lemma assoc_set_Forall (P : string * json -> Prop) k v l :
  Forall P l -> P (k, v) -> Forall P (assoc_set k v l).
Proof.
  intros Hl Hkv. induction Hl as [|[k' v'] l Hx Hl IH]; simpl; [by constructor|].
  case_bool_decide; by constructor.
Qed.

Lemma json_object_Forall (P : string * json -> Prop) fs : Forall P fs -> Forall P (json_object fs).
Proof.
  intros Hfs. unfold json_object.
  assert (Hacc : Forall P (@nil (string * json))) by constructor. revert Hacc.
  generalize (@nil (string * json)) as acc.
  induction Hfs as [|[k v] fs Hkv Hfs IH]; intros acc Hacc; [done|].
  cbn [fold_left]. apply IH. by apply assoc_set_Forall.
Qed.

Lemma assoc_get_assoc_set_ne k k' v l : k ≠ k' -> assoc_get k (assoc_set k' v l) = assoc_get k l.
Proof.
  intros Hne. induction l as [|[k'' v''] l IH]; simpl; [by rewrite bool_decide_false|].
  case_bool_decide as Hk; subst; simpl; [by rewrite !bool_decide_false|].
  case_bool_decide; [done|apply IH].
Qed.

Lemma assoc_get_fold k fs acc :
  k ∉ fs.*1 ->
  assoc_get k (fold_left (fun acc kv => assoc_set kv.1 kv.2 acc) fs acc) = assoc_get k acc.
Proof.
  revert acc. induction fs as [|[k' v'] fs IH]; intros acc Hk; [done|].
  rewrite fmap_cons, not_elem_of_cons in Hk. destruct Hk as [Hne Hk]. cbn [fold_left].
  rewrite IH by done. by apply assoc_get_assoc_set_ne.
Qed.

(** A property given first and never repeated is read back. *)
Lemma json_field_head k v fs : k ∉ fs.*1 -> json_field ((k, v) :: fs) k = Some v.
Proof.
  intros Hk. unfold json_field, json_object. cbn [fold_left].
  rewrite assoc_get_fold by done. apply assoc_get_assoc_set.
Qed.

(** ** What the versions read *)

Lemma erased_record_of_json v : rec_erased v -> record_of_json v = Err KTypeError.
Proof. intros (fs & -> & Ht). unfold record_of_json. by rewrite Ht. Qed.

Lemma erased_l_record_of_json v : rec_erased v -> l_record_of_json v = Err KTypeError.
Proof. intros (fs & -> & Ht). unfold l_record_of_json. by rewrite Ht. Qed.

(** part_001's [load] of such a file is empty or throws. *)
Lemma erased_load f db : file_erased f -> load f = Ok db -> db = ∅.
Proof.
  destruct f as [[[| | | | |fs]|]|]; cbn; try done; try by intros _ [=].
  intros Hfs%json_object_Forall. destruct (json_object fs) as [|[k v] l]; [by intros [=]|].
  apply Forall_cons in Hfs as [Hv _]. cbn. by rewrite erased_record_of_json.
Qed.

(** cli.js's, part_002's and part_000's [load]: the same. *)
Lemma erased_l_load f ld : file_erased f -> l_load f = Ok ld -> ld = ∅.
Proof.
  destruct f as [[[| | | | |fs]|]|]; cbn; try done; try by intros _ [=].
  intros Hfs%json_object_Forall. destruct (json_object fs) as [|[k v] l]; [by intros [=]|].
  apply Forall_cons in Hfs as [Hv _]. cbn. by rewrite erased_l_record_of_json.
Qed.

(** ** What the versions write *)

Ltac tags_first :=
  apply json_field_head; match goal with |- ?P => apply (bool_decide_unpack P); vm_compute; exact I end.

Lemma record_to_json_erased r : rec_erased (record_to_json r).
Proof. eexists. split; [reflexivity|]. destruct r as [t [] [] [] []]; tags_first. Qed.

Lemma l_record_to_json_erased r : rec_erased (l_record_to_json r).
Proof. eexists. split; [reflexivity|]. destruct r as [t [] [] []]; tags_first. Qed.

Lemma encode_erased {A} (enc : A -> json) (db : gmap string A) :
  (forall r, rec_erased (enc r)) -> json_erased (JObj ((fun kr => (kr.1, enc kr.2)) <$> map_to_list db)).
Proof. intros Henc. cbn. apply Forall_fmap, Forall_true. intros kr. apply Henc. Qed.

Lemma db_to_json_erased db : json_erased (db_to_json db).
Proof. apply encode_erased, record_to_json_erased. Qed.

Lemma l_db_to_json_erased ld : json_erased (l_db_to_json ld).
Proof. apply encode_erased, l_record_to_json_erased. Qed.

(** Origin's records: a parsed record keeps its [{}], a record with a
    [Set] is written with [{}] in place of its tags. *)
Definition orec_ok (r : orec) : Prop :=
  match r with RJson v => rec_erased v | RSet fs _ => NoDup fs.*1 end.

Definition o_ok (db : ODB) : Prop := map_Forall (fun _ => orec_ok) db.

Lemma o_rec_to_json_erased r : orec_ok r -> rec_erased (o_rec_to_json r).
Proof.
  destruct r as [v|fs s]; [done|]. intros Hnd. eexists. split; [reflexivity|].
  unfold json_field. rewrite json_object_nodup by (by apply assoc_set_NoDup).
  apply assoc_get_assoc_set.
Qed.

Lemma o_db_to_json_erased db : o_ok db -> json_erased (o_db_to_json db).
Proof.
  intros Hok. cbn. apply Forall_fmap, Forall_forall. intros [k r] Hin%elem_of_map_to_list.
  apply o_rec_to_json_erased, (Hok k r Hin).
Qed.

Lemma o_load_ok f db : file_erased f -> o_load f = Some db -> o_ok db.
Proof.
  destruct f as [[[| | | | |fs]|]|]; cbn; try done; intros Hf [= <-]; try apply map_Forall_empty.
  apply map_Forall_fmap. intros k v Hk%elem_of_list_to_map_2. cbn.
  apply json_object_Forall in Hf. by apply (proj1 (Forall_forall _ _) Hf _ Hk).
Qed.

Lemma with_tags_ok r s : orec_ok r -> orec_ok (with_tags r s).
Proof. destruct r as [[| | | | |fs]|fs s']; cbn; try done. intros _. apply json_object_NoDup. Qed.

Lemma o_insert_email_ok T db c e db' c' :
  o_ok db -> o_insert_email T (db, c) e = Ok (db', c') -> o_ok db'.
Proof.
  intros Hok. unfold o_insert_email.
  repeat case_match; intros; simplify_eq/=; simpl in *; simplify_eq/=;
    apply map_Forall_insert_2; try done.
  all: cbn; first [apply NoDup_nil_2 | apply json_object_NoDup
                  | match goal with H : _ !! _ = Some _ |- _ => apply (Hok _ _ H) end].
Qed.

Lemma o_insert_ok lines T db db' c : o_ok db -> o_insert lines T db = Ok (db', c) -> o_ok db'.
Proof.
  intros Hok Hi.
  refine (fold_result_ind (fun st => o_ok st.1) (o_insert_line T) lines (db, mkCounters 0 0) (db', c)
            Hok _ Hi).
  intros [d c0] line [d' c'] _ Hd. unfold o_insert_line.
  destruct (filterEmail line); [by apply o_insert_email_ok|by intros [= <- _]].
Qed.

(** cleanup moves records, it never builds one. *)
Lemma l_cleanup_Forall {A} (P : A -> Prop) ks (db : gmap string A) :
  map_Forall (fun _ => P) db -> map_Forall (fun _ => P) (l_cleanup_keys ks db).1.
Proof.
  intros Hdb. unfold l_cleanup_keys. change db with (db, mkCleanup 0 0).1 in Hdb.
  revert Hdb. generalize (db, mkCleanup 0 0). clear db.
  induction ks as [|k ks IH]; intros [d c] Hd; [done|]. cbn [fold_left]. apply IH.
  unfold l_cleanup_step. simpl in Hd. destruct (d !! k) as [r|] eqn:E; [|done].
  destruct (filterEmail k); [case_bool_decide|]; [done| |]; apply map_Forall_delete; [|done].
  apply map_Forall_insert_2; [by eapply Hd|done].
Qed.

(** ** What a process leaves on disk *)

(** A process either leaves the two files as they were or runs one
    [save] of an erased directory, which succeeds or fails after the
    rename. *)
Definition saves (fs fs' : FS) : Prop :=
  fs' = fs \/ exists wo j, json_erased j /\ (save_json wo fs j = Ok fs' \/ save_json wo fs j = Err fs').

Lemma saves_ok fs fs' : vfs_ok fs -> saves fs fs' -> vfs_ok fs'.
Proof.
  intros [Hd Ht] [->|(wo & j & Hj & Hs)]; [done|].
  unfold save_json in Hs.
  destruct (db_file fs) eqn:E, wo; destruct Hs as [Hs|Hs]; try discriminate Hs;
    injection Hs as <-; split; cbn; rewrite ?E in Hd; rewrite ?E; cbn in *; done.
Qed.

Lemma saves_json wo fs j : json_erased j ->
  saves fs (match save_json wo fs j with Ok fs' | Err fs' => fs' end).
Proof. intros Hj. right. exists wo, j. split; [done|]. destruct (save_json wo fs j); auto. Qed.

(** The exit of a legacy process (part_002 l. 231-241): a thrown
    [db.save()] leaves what it did. *)
Definition x_after {R} (r : result x_error (world * R)) (w : world) : world :=
  match r with Ok (w', _) | Err (XSaveFailed w') => w' | Err _ => w end.

(** The exit of a cli.js process (l. 188-198). *)
Definition cli_after {R} (r : result cli_error (FS * R)) (w : world) : world :=
  match r with
  | Ok (fs', _) | Err (LSaveFailed fs') => mkWorld fs' (w_files w) (w_clock w)
  | Err _ => w
  end.

(** The exit of a process of part_000's second script (l. 684-694). *)
Definition o_after {R} (r : result o_exit (FS * R)) (w : world) : world :=
  match r with
  | Ok (fs', _) | Err (OSaveFailed fs') => mkWorld fs' (w_files w) (w_clock w)
  | Err _ => w
  end.

Lemma run_vsaves ds sn iso fuel wo w c :
  saves (w_fs w) (w_fs (match run ds sn iso fuel wo w c with Ok (w', _) => w' | Err e => after_error e w end)).
Proof.
  unfold run. destruct (load _); [|by left]. destruct (handle _ _ _ _ _ _ _ _); try by left.
  destruct (o_db o) as [db'|]; [|by left].
  pose proof (saves_json wo (w_fs w) (db_to_json db') (db_to_json_erased db')) as Hs.
  unfold save. destruct (save_json _ _ _); exact Hs.
Qed.

Lemma step_vsaves ds sn iso fuel cp w w' : step ds sn iso fuel cp w w' -> saves (w_fs w) (w_fs w').
Proof.
  destruct 1 as [wo w c w' rep Hr|wo w c e Hr|e d w l s h [[w' m]|] Hr|w files clk]; try by left.
  - pose proof (run_vsaves ds sn iso fuel wo w c) as Hs. by rewrite Hr in Hs.
  - pose proof (run_vsaves ds sn iso fuel wo w c) as Hs. by rewrite Hr in Hs.
  - left. by rewrite (send_run_world _ _ _ _ _ _ _ _ _ Hr).
Qed.

Lemma script_db_save sc : db_save (EmailDB := script_db sc) = l_save.
Proof. by destruct sc. Qed.

Lemma x_run_vsaves fuel sc wo w c :
  saves (w_fs w) (w_fs (x_after (x_run fuel (edb := script_db sc) sc wo w c) w)).
Proof.
  unfold x_run. destruct (db_load _); [|by left]. destruct (x_handle _ _ _ _ _ _); try by left.
  destruct (x_db o) as [db'|]; [|by left]. rewrite script_db_save.
  pose proof (saves_json wo (w_fs w) (l_db_to_json db') (l_db_to_json_erased db')) as Hs.
  unfold l_save. destruct (save_json _ _ _); exact Hs.
Qed.

Lemma cli_run_vsaves wo w c :
  saves (w_fs w) (w_fs (cli_after (cli_run wo (w_fs w) (w_files w) c) w)).
Proof.
  unfold cli_run. destruct (l_load _); [|by left]. destruct (cli_handle _ _ _) as [[[db'|] rep]|]; try by left.
  pose proof (saves_json wo (w_fs w) (l_db_to_json db') (l_db_to_json_erased db')) as Hs.
  unfold l_save. destruct (save_json _ _ _); exact Hs.
Qed.

Lemma o_finish_vsaves wo w db rep :
  o_ok db -> saves (w_fs w) (w_fs (o_after (o_finish wo (w_fs w) db rep) w)).
Proof.
  intros Hok. pose proof (saves_json wo (w_fs w) _ (o_db_to_json_erased db Hok)) as Hs.
  unfold o_finish, o_save. destruct (save_json _ _ _); exact Hs.
Qed.

Lemma o_run_vsaves al wo w c :
  vfs_ok (w_fs w) -> saves (w_fs w) (w_fs (o_after (o_run al wo (w_fs w) (w_files w) c) w)).
Proof.
  intros [Hd _]. unfold o_run. destruct (o_load _) as [db|] eqn:Hl; [|by left].
  pose proof (o_load_ok _ _ Hd Hl) as Hok.
  destruct c as [fname T|T loc| | |argv]; cbn [o_after]; try by left.
  - destruct (w_files w !! fname); [|by left].
    destruct (o_insert _ _ db) as [[db' cnt]|] eqn:Hi; [|by left].
    apply o_finish_vsaves. by eapply o_insert_ok.
  - destruct (o_lookup _ _ _ _); [by apply o_finish_vsaves|by left].
  - destruct (o_allTags _); by left.
  - unfold o_cleanup. destruct (l_cleanup_keys _ _) as [db' cnt] eqn:Hc.
    apply o_finish_vsaves. change db' with (db', cnt).1. rewrite <- Hc. by apply l_cleanup_Forall.
Qed.

(** ** Any version, any time *)

Section versions.
Context (days_since str_to_number : string -> option Z) (iso : moment -> string) (fuel : nat).
Context (compile : mail_options -> string).
Context (array_like : json -> list (string * json) -> list (option json)).

(** One invocation of any version of the tool, or a step of part_001's
    system (a run, [send], or an edit of the email files). *)
Inductive vstep : world -> world -> Prop :=
| vstep_part001 w w' : step days_since str_to_number iso fuel compile w w' -> vstep w w'
| vstep_legacy sc wo w c : vstep w (x_after (x_run fuel (edb := script_db sc) sc wo w c) w)
| vstep_cli wo w c : vstep w (cli_after (cli_run wo (w_fs w) (w_files w) c) w)
| vstep_origin wo w c : vstep w (o_after (o_run array_like wo (w_fs w) (w_files w) c) w).

Inductive vreachable : world -> Prop :=
| vreach_init files clk : vreachable (mkWorld (mkFS None None) files clk)
| vreach_step w w' : vreachable w -> vstep w w' -> vreachable w'.

End versions.

Lemma vstep_erased ds sn iso fuel cp al w w' :
  vfs_ok (w_fs w) -> vstep ds sn iso fuel cp al w w' -> vfs_ok (w_fs w').
Proof.
  intros Hok Hs. apply (saves_ok _ _ Hok). destruct Hs.
  - by eapply step_vsaves.
  - apply x_run_vsaves.
  - apply cli_run_vsaves.
  - by apply o_run_vsaves.
Qed.

Lemma vreachable_erased ds sn iso fuel cp al w :
  vreachable ds sn iso fuel cp al w -> vfs_ok (w_fs w).
Proof. induction 1; [done|]. by eapply vstep_erased. Qed.

(** A record Origin loads from an erased file has tags it cannot
    iterate. *)
Lemma o_load_erased_stale f odb k r :
  file_erased f -> o_load f = Some odb -> odb !! k = Some r -> stale r.
Proof.
  intros Hf Hl Hk. pose proof (o_load_ok _ _ Hf Hl k r Hk) as Hr.
  destruct f as [[[| | | | |fs]|]|]; cbn in Hl; simplify_eq; try by rewrite lookup_empty in Hk.
  rewrite lookup_fmap in Hk. destruct (list_to_map _ !! k); simplify_eq/=.
  destruct Hr as (fs' & -> & Ht). exists (TJson (Some (JObj []))). cbn. by rewrite Ht.
Qed.

(** C7: whatever versions of the tool the user runs on one
    [data/db.json], in whatever order, starting from a fresh
    installation: part_001, cli.js, part_002 and part_000's first
    script never load a non-empty directory ([load] returns [{}] or
    throws), and every record part_000's second script loads has tags
    it cannot iterate.  No tag written to the file is ever read back
    by any version. *)
Theorem versions_never_read_tags ds sn iso fuel cp al w :
  vreachable ds sn iso fuel cp al w ->
  (forall db, load (db_file (w_fs w)) = Ok db -> db = ∅) /\
  (forall ld, l_load (db_file (w_fs w)) = Ok ld -> ld = ∅) /\
  (forall sc ld, db_load (EmailDB := script_db sc) (db_file (w_fs w)) = Ok ld -> ld = ∅) /\
  (forall odb k r, o_load (db_file (w_fs w)) = Some odb -> odb !! k = Some r -> stale r).
Proof.
  intros Hr. destruct (vreachable_erased _ _ _ _ _ _ _ Hr) as [Hd _].
  split; [|split; [|split]].
  - intros db. by apply erased_load.
  - intros ld. by apply erased_l_load.
  - intros [] ld; by apply erased_l_load.
  - intros odb k r. by apply o_load_erased_stale.
Qed.

End Versions.
