(* ===== verification/Scenarios.v ===== *)
(** * Scenarios: the specification's worked examples, run on the model

    Each theorem here evaluates the executable model (of part_001, and
    of the legacy iterations where named) on a concrete directory and
    states the outcome that the code produces.
    Where that outcome differs from the one the specification (§8)
    describes, the theorem's comment says so.  The file also holds
    the witnesses of the general theorems of the other files: each
    one applies a theorem at a concrete input whose hypotheses are
    discharged by evaluation. *)

From Stdlib Require Import Ascii ZArith Lia.
From S2P Require Import Prelude Regex Normalizer Store Query Mutations Paging Commands Legacy Cli Classes Origin LegacyCli Send Program Versions.
Import Regex Normalizer Store Query Mutations Paging Commands Legacy Cli Classes Origin LegacyCli.

Module Scenarios.

(** A clock under which every date is invalid: [coldDays] never
    applies. *)
Definition no_clock : string -> option Z := fun _ => None.

(** Every string converts to [NaN]. *)
Definition no_number : string -> option Z := fun _ => None.

Definition rec_t0 : Record := mkRecord {["t0"]} None (Some clean) None None.
Definition rec_t1 : Record := mkRecord {["t1"]} (Some "en") (Some dirty) None None.

(** ** Import *)

(** The specification's import example: the line
    [a@x.com junk b@y.ru] with tag [t1] into an empty directory.  The
    specification expects both addresses with [inserted=2, updated=0].
    The code extracts only the first address of a line, so it inserts
    [a@x.com] alone and reports [inserted=1, updated=1].  A later
    [--tag t1 --locale ru] query therefore finds nothing. *)
Theorem scenario_insert_two_addresses :
  let '(db, c) := insert_file "a@x.com junk b@y.ru" {["t1"]} None ∅ in
  c = mkCounters 1 1 /\ dom db = {["a@x.com"]} /\
  lookup no_clock no_number (mkQuery {["t1"]} (Some "ru") None None) db = ∅.
Proof. vm_compute. repeat split; reflexivity. Qed.

(** ** Cleanup *)

(** Two keys that normalise to the same address.  The
    malformed key holds the older record [rec_t0]; the proper key holds
    [rec_t1].  Whichever order the for-in loop takes, [cleanup] writes
    the malformed key's record over the proper one, and [rec_t1], its
    tags and its locale, is lost. *)
Theorem scenario_cleanup_collision :
  let db := <["bad@site.com," := rec_t0]> (<["bad@site.com" := rec_t1]> ∅) in
  (cleanup_keys ["bad@site.com,"; "bad@site.com"] db).1 = {["bad@site.com" := rec_t0]} /\
  (cleanup_keys ["bad@site.com"; "bad@site.com,"] db).1 = {["bad@site.com" := rec_t0]} /\
  (cleanup db).1 = {["bad@site.com" := rec_t0]}.
Proof. vm_compute. repeat split; reflexivity. Qed.

(** The specification's cleanup example: the key
    ["  bad@site.com,"] is moved to ["bad@site.com"] with its record
    intact, and the run reports [fixed=1, deleted=0]; a key with no
    address is deleted. *)
Theorem scenario_cleanup_fix :
  cleanup (<["  bad@site.com," := rec_t0]> ∅) = ({["bad@site.com" := rec_t0]}, mkCleanup 0 1) /\
  cleanup (<["no address here" := rec_t0]> ∅) = (∅, mkCleanup 1 0).
Proof. vm_compute. split; reflexivity. Qed.

(** ** Status and legacy records *)

(** The legacy record [{"tags": ["t0"]}], without any status flag. *)
Definition legacy_json : json := JObj [("tags", JArr [JStr "t0"])].

(** A legacy record without a status or flags loads with no
    status, not [dirty] as the specification's migration rule says,
    so a [--status dirty] query misses it. *)
Theorem scenario_legacy_not_dirty :
  load (Some (Parsed (JObj [("a@x.com", legacy_json)]))) =
    Ok {["a@x.com" := mkRecord {["t0"]} None None None None]} /\
  lookup no_clock no_number (mkQuery ∅ None (Some "dirty") None)
    {["a@x.com" := mkRecord {["t0"]} None None None None]} = ∅.
Proof. vm_compute. split; reflexivity. Qed.

(** ** Command-line runs *)

Definition rec_ctor : Record := mkRecord {["constructor"; "t1"]} None (Some dirty) None None.

(** The [tags] command on tags named like [Object.prototype]'s
    methods: one record tagged [constructor] is reported as [NaN], two
    as [1]; the ordinary tag [t1] is counted right. *)
Theorem scenario_tags_constructor :
  allTags {["a@x.com" := rec_ctor]} !! "constructor" = Some VNaN /\
  allTags (<["a@x.com" := rec_ctor]> {["b@y.ru" := rec_ctor]}) !! "constructor" = Some (VNum 1) /\
  allTags (<["a@x.com" := rec_ctor]> {["b@y.ru" := rec_ctor]}) !! "t1" = Some (VNum 2).
Proof. vm_compute. repeat split; reflexivity. Qed.

Definition at_14_03 : moment := mkMoment 2024 3 5 14 3 0.
Definition at_14_59 : moment := mkMoment 2024 3 5 14 59 0.

(** [makeFilename] writes the month where the minutes belong
    ([HH.MM]): two exports of the same query within the same hour
    write the same file, and the later one replaces the earlier. *)
Theorem scenario_export_same_hour :
  format_stamp at_14_03 = "2024-03-05-14.03" /\
  makeFilename "export" at_14_03 [("tags", IArr ["t1"]); ("locale", IUndef)] =
    "export/2024-03-05-14.03,tags=t1.txt" /\
  makeFilename "export" at_14_59 [("tags", IArr ["t1"]); ("locale", IUndef)] =
    makeFilename "export" at_14_03 [("tags", IArr ["t1"]); ("locale", IUndef)].
Proof. vm_compute. repeat split; reflexivity. Qed.

(** A legacy record without flags is found by the legacy
    [--dirty-only] query but, once migrated, by no status query. *)
Theorem scenario_legacy_dirty_only :
  let ld : LDB := {["a@x.com" := mkLRecord {["t0"]} None false false]} in
  flag_lookup false true ∅ None ld = {["a@x.com" := mkEntry {["t0"]} "en"]} /\
  lookup no_clock no_number (mkQuery ∅ None (Some "dirty") None) (migrate <$> ld) = ∅.
Proof. vm_compute. split; reflexivity. Qed.

(** ** Witnesses of the general theorems *)

Lemma exec_infix_witness :
  exec EmailRegex (String.list_ascii_of_string "to: a@x.com!") =
    Some (String.list_ascii_of_string "a@x.com") /\
  exists pre post, String.list_ascii_of_string "to: a@x.com!" =
    pre ++ String.list_ascii_of_string "a@x.com" ++ post.
Proof.
  split; [vm_compute; reflexivity|].
  apply (exec_infix EmailRegex (String.list_ascii_of_string "to: a@x.com!")).
  vm_compute. reflexivity.
Defined.


Lemma readEmailFile_saveEmailFile_witness :
  Forall (fun e => filterEmail e = Some e) ["a@x.com"; "b@y.ru"] /\
  readEmailFile (Some (saveEmailFile ["a@x.com"; "b@y.ru"])) = ["a@x.com"; "b@y.ru"].
Proof.
  assert (H : Forall (fun e => filterEmail e = Some e) ["a@x.com"; "b@y.ru"])
    by (repeat constructor; vm_compute; reflexivity).
  split; [exact H|]. apply (readEmailFile_saveEmailFile ["a@x.com"; "b@y.ru"]). exact H.
Defined.

Lemma load_db_to_json_spec_witness :
  map_Forall (fun _ r => truthy_json (broken_flag r) = false) ({["a@x.com" := rec_t1]} : DB) /\
  load (Some (Parsed (db_to_json_spec {["a@x.com" := rec_t1]}))) = Ok {["a@x.com" := rec_t1]}.
Proof.
  assert (H : map_Forall (fun _ r => truthy_json (broken_flag r) = false)
                ({["a@x.com" := rec_t1]} : DB))
    by (apply map_Forall_singleton; vm_compute; reflexivity).
  split; [exact H|]. apply (load_db_to_json_spec {["a@x.com" := rec_t1]}). exact H.
Defined.

Lemma load_after_save_fails_witness :
  ({["a@x.com" := rec_t1]} : DB) ≠ ∅ /\
  exists email, email ∈ dom ({["a@x.com" := rec_t1]} : DB) /\
    load (Some (Parsed (db_to_json {["a@x.com" := rec_t1]}))) = Err (LoadTypeError email).
Proof.
  assert (H : ({["a@x.com" := rec_t1]} : DB) ≠ ∅).
  { intros Hc. apply (f_equal (fun m : DB => m !! "a@x.com")) in Hc.
    vm_compute in Hc. discriminate. }
  split; [exact H|]. apply (load_after_save_fails {["a@x.com" := rec_t1]}). exact H.
Defined.

Lemma save_write_failure_witness :
  db_file (mkFS (Some (Parsed (db_to_json ∅))) None) = Some (Parsed (db_to_json ∅)) /\
  WriteFailed ≠ Written /\
  exists fs', save WriteFailed (mkFS (Some (Parsed (db_to_json ∅))) None) ∅ = Err fs' /\
    tmp_file fs' = Some (Parsed (db_to_json ∅)) /\
    db_file fs' = (if decide (WriteFailed = OpenFailed) then None else Some Corrupt) /\
    load (db_file fs') = Ok ∅ /\
    (WriteFailed = WriteFailed -> forall wo' db',
       tmp_file (match save wo' fs' db' with Ok fs'' | Err fs'' => fs'' end) = Some Corrupt).
Proof.
  split; [reflexivity|]. split; [discriminate|].
  apply (save_write_failure (mkFS (Some (Parsed (db_to_json ∅))) None) _ ∅ WriteFailed);
    [reflexivity|discriminate].
Defined.

Definition legacy_broken_fields : list (string * json) :=
  [("tags", JArr []); ("status", JStr "clean"); ("broken", JBool true)].

Lemma load_legacy_broken_witness :
  record_of_json (JObj legacy_broken_fields) =
    Ok (mkRecord ∅ None (Some broken) None (Some (JBool true))) /\
  status (mkRecord ∅ None (Some broken) None (Some (JBool true))) = Some broken.
Proof.
  assert (H : record_of_json (JObj legacy_broken_fields) =
                Ok (mkRecord ∅ None (Some broken) None (Some (JBool true))))
    by (vm_compute; reflexivity).
  split; [exact H|].
  apply (load_legacy_broken legacy_broken_fields _ H). vm_compute. reflexivity.
Defined.

Definition db_broken : DB := {["b@y.ru" := set_status broken fresh_record]}.
Definition q_broken : query := mkQuery ∅ None (Some "broken") None.

Lemma lookup_broken_only_witness :
  lookup no_clock no_number q_broken db_broken !! "b@y.ru" = Some (mkEntry ∅ "ru") /\
  exists r, db_broken !! "b@y.ru" = Some r /\ status r = Some broken.
Proof.
  split; [vm_compute; reflexivity|].
  apply (lookup_broken_only no_clock no_number q_broken db_broken "b@y.ru" (mkEntry ∅ "ru"));
    vm_compute; reflexivity.
Defined.

Lemma insert_new_counted_updated_witness :
  (∅ : DB) !! "a@x.com" = None /\ ({["t1"]} : gset string) ≠ ∅ /\
  (insert_email {["t1"]} None (∅, mkCounters 0 0) "a@x.com").2 = mkCounters 1 1.
Proof.
  assert (HT : ({["t1"]} : gset string) ≠ ∅)
    by (apply (bool_decide_unpack (({["t1"]} : gset string) ≠ ∅)); vm_compute; reflexivity).
  split; [reflexivity|]. split; [exact HT|].
  apply (insert_new_counted_updated {["t1"]} None ∅ (mkCounters 0 0) "a@x.com");
    [reflexivity|exact HT].
Defined.

Definition db_mixed : DB :=
  <["  bad@site.com," := rec_t0]> (<["junk" := rec_t1]> (<["ok@x.com" := rec_t1]> ∅)).
Definition ks_mixed : list string := ["  bad@site.com,"; "junk"; "ok@x.com"].

Lemma cleanup_keys_normalized_witness :
  dom db_mixed ⊆ list_to_set ks_mixed /\
  forall k r, (cleanup_keys ks_mixed db_mixed).1 !! k = Some r -> normalize k = Some k.
Proof.
  assert (H : dom db_mixed ⊆ list_to_set ks_mixed)
    by (apply (bool_decide_unpack (dom db_mixed ⊆ list_to_set ks_mixed)); vm_compute; reflexivity).
  split; [exact H|]. apply (cleanup_keys_normalized ks_mixed db_mixed). exact H.
Defined.

Lemma cleanup_keys_counts_witness :
  NoDup ks_mixed /\ Forall (fun k => is_Some (db_mixed !! k)) ks_mixed /\
  deleted (cleanup_keys ks_mixed db_mixed).2 = count_if (fun k => normalize k = None) ks_mixed /\
  fixed (cleanup_keys ks_mixed db_mixed).2 =
    count_if (fun k => normalize k ≠ None /\ normalize k ≠ Some k) ks_mixed.
Proof.
  assert (H1 : NoDup ks_mixed) by (apply (bool_decide_unpack (NoDup ks_mixed)); vm_compute; reflexivity).
  assert (H2 : Forall (fun k => is_Some (db_mixed !! k)) ks_mixed)
    by (repeat constructor; vm_compute; eexists; reflexivity).
  split; [exact H1|]. split; [exact H2|].
  apply (cleanup_keys_counts ks_mixed db_mixed H1 H2).
Defined.

(** A provider with two non-empty pages linked by a proper cursor,
    then an empty page. *)
Definition two_pages : provider nat :=
  mkProvider (Ok (mkPage [1; 2] "https://api.mailgun.net/v3/events/p2"))
    (fun url => if bool_decide (url = "/events/p2")
                then Ok (mkPage [3] "https://api.mailgun.net/v3/events/p3")
                else Ok (mkPage [] "")).

Lemma pageAll_chain_witness :
  chain two_pages None [[1; 2]; [3]] /\ pageAll two_pages 3 = Drained [1; 2; 3].
Proof.
  assert (H : chain two_pages None [[1; 2]; [3]]).
  { apply (chain_step two_pages None (mkPage [1; 2] "https://api.mailgun.net/v3/events/p2"));
      [reflexivity|discriminate|].
    apply (chain_step two_pages _ (mkPage [3] "https://api.mailgun.net/v3/events/p3"));
      [vm_compute; reflexivity|discriminate|].
    apply (chain_end two_pages _ (mkPage [] "")); vm_compute; reflexivity. }
  split; [exact H|]. apply (pageAll_chain two_pages None [[1; 2]; [3]] [] 3 H). simpl. lia.
Defined.

Lemma pageAll_sound_witness :
  pageAll_loop two_pages 5 None [] = Drained [1; 2; 3] /\
  exists pages, chain two_pages None pages /\ [1; 2; 3] = [] ++ concat pages.
Proof.
  assert (H : pageAll_loop two_pages 5 None [] = Drained [1; 2; 3]) by (vm_compute; reflexivity).
  split; [exact H|]. apply (pageAll_sound two_pages None [] 5 [1; 2; 3] H).
Defined.

(** The next link of the first page carries another host. *)
Definition foreign_cursor : provider nat :=
  mkProvider (Ok (mkPage [1] "https://eu.api.mailgun.net/v3/events/p2"))
    (fun _ => Ok (mkPage [] "")).

Lemma pageAll_diverges_witness :
  first_page foreign_cursor = Ok (mkPage [1] "https://eu.api.mailgun.net/v3/events/p2") /\
  truthy_str (next_url "https://eu.api.mailgun.net/v3/events/p2") = false /\
  pageAll foreign_cursor 100 = OutOfFuel.
Proof.
  split; [reflexivity|]. split; [vm_compute; reflexivity|].
  apply (pageAll_diverges foreign_cursor (mkPage [1] "https://eu.api.mailgun.net/v3/events/p2") 100);
    [reflexivity|discriminate|vm_compute; reflexivity].
Defined.

Definition fresh_world : world :=
  mkWorld (mkFS None None) {["in.txt" := "a@x.com"]} at_14_03.

Lemma first_insert_then_crash_witness :
  db_file (w_fs fresh_world) = None /\ w_files fresh_world !! "in.txt" = Some "a@x.com" /\
  readEmailFile (Some "a@x.com") ≠ [] /\
  exists w' rep,
    run no_clock no_number (fun _ => "") 10 Written fresh_world (CInsert "in.txt" ["t1"] None) = Ok (w', rep) /\
    exists e, run no_clock no_number (fun _ => "") 10 Written w' CTags = Err (StartupCrash (LoadTypeError e)).
Proof.
  assert (H3 : readEmailFile (Some "a@x.com") ≠ []) by (vm_compute; discriminate).
  split; [reflexivity|]. split; [reflexivity|]. split; [exact H3|].
  apply (first_insert_then_crash no_clock no_number (fun _ => "") 10 fresh_world "in.txt" "a@x.com"
           ["t1"] None Written CTags); [reflexivity|reflexivity|exact H3].
Defined.

(** A legacy directory with one clean record. *)
Definition ld1 : LDB := {["a@x.com" := mkLRecord {["t0"]} (Some "en") false true]}.

Lemma agrees_ld1 : agrees (migrate <$> ld1) ld1.
Proof.
  intros k. destruct (decide (k = "a@x.com")) as [->|Hne]; [vm_compute; split; reflexivity|].
  rewrite lookup_fmap. unfold ld1. rewrite lookup_singleton_ne by done. exact I.
Qed.

Lemma insert_refines_cli_witness :
  agrees (migrate <$> ld1) ld1 /\
  (Mutations.insert ["a@x.com"; "b@y.ru"] {["t1"]} None (migrate <$> ld1)).2 =
    (l_insert ["a@x.com"; "b@y.ru"] {["t1"]} None ld1).2 /\
  agrees (Mutations.insert ["a@x.com"; "b@y.ru"] {["t1"]} None (migrate <$> ld1)).1
    (l_insert ["a@x.com"; "b@y.ru"] {["t1"]} None ld1).1.
Proof.
  split; [exact agrees_ld1|].
  apply (insert_refines_cli ["a@x.com"; "b@y.ru"] {["t1"]} None (migrate <$> ld1) ld1 agrees_ld1).
Defined.

Lemma cleanup_refines_cli_witness :
  agrees (migrate <$> ld1) ld1 /\
  (cleanup_keys ["a@x.com"] (migrate <$> ld1)).2 = (l_cleanup_keys ["a@x.com"] ld1).2 /\
  agrees (cleanup_keys ["a@x.com"] (migrate <$> ld1)).1 (l_cleanup_keys ["a@x.com"] ld1).1.
Proof.
  split; [exact agrees_ld1|].
  apply (cleanup_refines_cli ["a@x.com"] (migrate <$> ld1) ld1 agrees_ld1).
Defined.

Definition fs_legacy : FS := mkFS (Some (Parsed (ldb_json ld1))) None.

Lemma cli_query_bricks_witness :
  l_load (db_file fs_legacy) = Ok ld1 /\ ld1 ≠ ∅ /\
  exists fs' rep, cli_run Written fs_legacy ∅ (LQuery [] None) = Ok (fs', rep) /\
    exists e, cli_run Written fs' ∅ LTags = Err (LStartupCrash (LoadTypeError e)).
Proof.
  assert (H1 : l_load (db_file fs_legacy) = Ok ld1) by (vm_compute; reflexivity).
  assert (H2 : ld1 ≠ ∅).
  { intros Hc. apply (f_equal (fun m : LDB => m !! "a@x.com")) in Hc.
    vm_compute in Hc. discriminate. }
  split; [exact H1|]. split; [exact H2|].
  apply (cli_query_bricks fs_legacy ∅ [] None ld1 Written LTags H1 H2).
Defined.

Lemma markAsClean_keeps_broken_witness :
  ld1 !! "a@x.com" = Some (mkLRecord {["t0"]} (Some "en") false true) /\
  l_clean (mkLRecord {["t0"]} (Some "en") false true) = true /\
  (mark markAsClean0_step ["a@x.com"] ld1).1 !! "a@x.com" =
    Some (mkLRecord {["t0"]} (Some "en") false true).
Proof.
  assert (H1 : ld1 !! "a@x.com" = Some (mkLRecord {["t0"]} (Some "en") false true))
    by (vm_compute; reflexivity).
  split; [exact H1|]. split; [reflexivity|].
  apply (proj2 (markAsClean_keeps_broken ["a@x.com"] ld1 "a@x.com" _) H1 eq_refl).
Defined.

(** ** Runs of part_001 from a fresh installation *)

Definition iso0 : moment -> string := fun _ => "".
Definition compile0 : Send.mail_options -> string := Send.mo_html.
Definition files0 : gmap string string := {["a.txt" := "x@y.com"]}.
Definition clk0 : moment := mkMoment 2024 5 1 10 30 0.
Definition world0 : world := mkWorld (mkFS None None) files0 clk0.

Definition insert_run (wo : write_outcome) : result run_error (world * report) :=
  run no_clock no_number iso0 0 wo world0 (CInsert "a.txt" ["t"] None).

(** The world a write that fails part-way leaves: a truncated
    [data/db.json]. *)
Definition world_failed : world := mkWorld (mkFS (Some Corrupt) None) files0 clk0.

Definition world1 : world := match insert_run Written with Ok (w, _) => w | Err _ => world0 end.
Definition rep1 : report := match insert_run Written with Ok (_, r) => r | Err _ => RNothing end.

Lemma insert_run_fails : insert_run WriteFailed = Err (SaveFailed world_failed).
Proof. vm_compute. reflexivity. Qed.

Lemma insert_run_ok : insert_run Written = Ok (world1, rep1).
Proof. vm_compute. reflexivity. Qed.

Lemma reachable_failed : Program.reachable no_clock no_number iso0 0 compile0 world_failed.
Proof.
  apply (Program.reach_step _ _ _ _ _ world0); [apply Program.reach_init|].
  apply (Program.step_run_err _ _ _ _ _ WriteFailed world0 _ _ insert_run_fails).
Qed.

Lemma reachable_world1 : Program.reachable no_clock no_number iso0 0 compile0 world1.
Proof.
  apply (Program.reach_step _ _ _ _ _ world0); [apply Program.reach_init|].
  apply (Program.step_run_ok _ _ _ _ _ Written world0 _ _ rep1 insert_run_ok).
Qed.

Lemma reachable_load_empty_witness :
  Program.reachable no_clock no_number iso0 0 compile0 world_failed /\
  load (db_file (w_fs world_failed)) = Ok ∅ /\ (∅ : DB) = ∅.
Proof.
  assert (Hl : load (db_file (w_fs world_failed)) = Ok ∅) by reflexivity.
  split; [exact reachable_failed|]. split; [exact Hl|].
  exact (Program.reachable_load_empty _ _ _ _ _ _ _ reachable_failed Hl).
Defined.

Lemma reachable_files_well_formed_witness :
  Program.reachable no_clock no_number iso0 0 compile0 world1 /\ Program.fs_ok (w_fs world1).
Proof.
  split; [exact reachable_world1|].
  exact (Program.reachable_files_well_formed _ _ _ _ _ _ reachable_world1).
Defined.

Lemma reachable_query_empty_witness :
  Program.reachable no_clock no_number iso0 0 compile0 world0 /\
  run no_clock no_number iso0 0 Written world0 (CQuery [] None None None) = Ok (world0, RLines [] 0) /\
  [] = @nil string /\ 0 = 0.
Proof.
  assert (Hr : Program.reachable no_clock no_number iso0 0 compile0 world0) by apply Program.reach_init.
  assert (Hq : run no_clock no_number iso0 0 Written world0 (CQuery [] None None None)
               = Ok (world0, RLines [] 0)) by (vm_compute; reflexivity).
  split; [exact Hr|]. split; [exact Hq|].
  exact (Program.reachable_query_empty _ _ _ _ _ _ _ _ _ _ _ _ _ _ Hr Hq).
Defined.

(** ** The second script of part_000 *)

Definition al0 : json -> list (string * json) -> list (option json) := fun _ _ => [].
Definition ofs0 : FS := mkFS None None.

Definition o_insert_run : result o_exit (FS * o_report) :=
  o_run al0 Written ofs0 files0 (OInsert "a.txt" ["t"]).
Definition ofs1 : FS := match o_insert_run with Ok (fs, _) => fs | Err _ => ofs0 end.
Definition orep1 : o_report := match o_insert_run with Ok (_, r) => r | Err _ => ORTags ∅ end.

Lemma o_insert_run_ok : o_insert_run = Ok (ofs1, orep1).
Proof. vm_compute. reflexivity. Qed.

Lemma a_txt_holds : "x@y.com" ∈ readEmailFile (files0 !! "a.txt").
Proof. vm_compute. left. Qed.

(** The first run inserts [x@y.com]; the next [insert] of the same
    file throws. *)
Lemma origin_reinsert_throws_witness :
  o_run al0 Written ofs0 files0 (OInsert "a.txt" ["t"]) = Ok (ofs1, orep1) /\
  "x@y.com" ∈ readEmailFile (Some "x@y.com") /\
  o_run al0 Written ofs1 files0 (OInsert "a.txt" ["u"]) = Err (OThrew NotIterable).
Proof.
  split; [exact o_insert_run_ok|]. split; [exact a_txt_holds|].
  exact (origin_reinsert_throws al0 ofs0 files0 "a.txt" ["t"] ofs1 orep1 "x@y.com" "x@y.com" Written
           files0 "a.txt" ["u"] "x@y.com" o_insert_run_ok eq_refl a_txt_holds eq_refl a_txt_holds).
Defined.

Definition o_query_run : result o_exit (FS * o_report) :=
  o_run al0 Written ofs1 files0 (OQuery ["t"] None).

Lemma origin_tagged_query_misses_witness :
  o_query_run = Ok (match o_query_run with Ok (fs, _) => fs | Err _ => ofs0 end, ORQuery ∅ 0) /\
  (∅ : gmap string oentry) !! "x@y.com" = None.
Proof.
  assert (Hq : o_query_run = Ok (match o_query_run with Ok (fs, _) => fs | Err _ => ofs0 end, ORQuery ∅ 0))
    by (vm_compute; reflexivity).
  split; [exact Hq|].
  exact (origin_tagged_query_misses al0 ofs0 files0 "a.txt" ["t"] ofs1 orep1 "x@y.com" "x@y.com" Written
           files0 ["t"] None _ ∅ 0 o_insert_run_ok eq_refl a_txt_holds ltac:(discriminate) Hq).
Defined.

Lemma origin_tags_throws_witness :
  o_run al0 Written ofs0 files0 (OInsert "a.txt" ["t"]) = Ok (ofs1, orep1) /\
  exists err, o_run al0 Written ofs1 files0 OTags = Err (OThrew err).
Proof.
  split; [exact o_insert_run_ok|].
  exact (origin_tags_throws al0 ofs0 files0 "a.txt" ["t"] ofs1 orep1 "x@y.com" "x@y.com" Written files0
           o_insert_run_ok eq_refl a_txt_holds).
Defined.

Definition o_lines : list string := ["x@y.com"; "junk"; "x@y.com"].
Definition o_ins : ODB * counters :=
  match o_insert o_lines [JStr "t"] ∅ with Ok r => r | Err _ => (∅, mkCounters 0 0) end.

Lemma o_insert_counts_witness :
  o_insert o_lines [JStr "t"] ∅ = Ok o_ins /\ inserted o_ins.2 + updated o_ins.2 = 2.
Proof.
  assert (H : o_insert o_lines [JStr "t"] ∅ = Ok (o_ins.1, o_ins.2)) by (vm_compute; reflexivity).
  split; [exact H|]. rewrite (o_insert_counts _ _ _ _ _ H). vm_compute. reflexivity.
Defined.

Definition orec_tagged : orec := RSet [] [JStr "a"; JNum 1%Z].

Lemma lookup_tag_test_witness :
  NoDup ["a"] /\ get_tags orec_tagged = Ok (TSet [JStr "a"; JNum 1%Z]) /\
  array_from al0 (TSet [JStr "a"; JNum 1%Z]) = Ok [Some (JStr "a"); Some (JNum 1%Z)] /\
  ((~ (forall x, x ∈ ["a"] -> x ∈ tag_strings [Some (JStr "a"); Some (JNum 1%Z)]) ->
     o_lookup_one al0 ["a"] (Some "en") "a@x.com" orec_tagged = Ok None) /\
   ((forall x, x ∈ ["a"] -> x ∈ tag_strings [Some (JStr "a"); Some (JNum 1%Z)]) ->
     o_lookup_one al0 ["a"] None "a@x.com" orec_tagged
       = Ok (Some (mkOEntry (js_new_Set same_elem [Some (JStr "a"); Some (JNum 1%Z)])
                            (calculated_locale "a@x.com" orec_tagged))))).
Proof.
  assert (H : NoDup ["a"]) by (apply (bool_decide_unpack (NoDup ["a"])); vm_compute; reflexivity).
  split; [exact H|]. split; [reflexivity|]. split; [reflexivity|].
  exact (lookup_tag_test al0 ["a"] (Some "en") "a@x.com" orec_tagged _ _ H eq_refl eq_refl).
Defined.

(** ** The legacy exports *)

Definition ld_dirty : LDB := {["d@x.com" := mkLRecord {["t"]} None false false]}.

Lemma export_clean_only_lists_dirty_witness :
  ld_dirty !! "d@x.com" = Some (mkLRecord {["t"]} None false false) /\
  is_Some (flag_lookup false false (list_to_set ["t"]) None ld_dirty !! "d@x.com") /\
  flag_lookup true false (list_to_set ["t"]) None ld_dirty !! "d@x.com" = None.
Proof.
  assert (H1 : ld_dirty !! "d@x.com" = Some (mkLRecord {["t"]} None false false)) by (vm_compute; reflexivity).
  assert (H2 : is_Some (flag_lookup false false (list_to_set ["t"]) None ld_dirty !! "d@x.com"))
    by (vm_compute; eexists; reflexivity).
  split; [exact H1|]. split; [exact H2|].
  exact (proj1 (export_clean_only_lists_dirty 0 Part002 clk0 files0 ["t"] None false ld_dirty "d@x.com" _
                  H1 eq_refl H2)).
Defined.

Definition clk1 : moment := mkMoment 2024 5 1 10 55 0.

Lemma export_name_same_hour_witness :
  year clk0 = year clk1 /\ month clk0 = month clk1 /\ day clk0 = day clk1 /\ hour clk0 = hour clk1 /\
  export_name Part000 clk0 ["t"] None true false = export_name Part000 clk1 ["t"] None true false.
Proof.
  do 4 (split; [reflexivity|]).
  exact (export_name_same_hour Part000 clk0 clk1 ["t"] None true false eq_refl eq_refl eq_refl eq_refl).
Defined.

(** ** The [send] command *)

Definition env0 : Send.env := Send.mkEnv (Some "mg.example.com") (Some "me@example.com").
Definition html_files : gmap string string := {["body.html" := "<p>hi</p>"]}.
Definition world_html : world := mkWorld (mkFS None None) html_files clk0.

(** On a fresh installation [send news Hello body.html] posts the body
    to [news@mg.example.com]; without [MAILGUN_DOMAIN] it posts
    nothing; with a missing body it is rejected. *)
Example scenario_send :
  Send.send_run compile0 env0 true world_html "news" "Hello" "body.html"
    = Ok (world_html, Some (Send.mkMime "news@mg.example.com" "<p>hi</p>")) /\
  Send.send_run compile0 (Send.mkEnv None None) true world_html "news" "Hello" "body.html"
    = Ok (world_html, None) /\
  Send.send_run compile0 (Send.mkEnv None None) true world_html "news" "Hello" "missing.html"
    = Err ActionRejected.
Proof. vm_compute. repeat split; reflexivity. Qed.

Lemma send_posts_witness :
  load (db_file (w_fs world_html)) = Ok ∅ /\
  Send.send_run compile0 env0 true world_html "news" "Hello" "body.html"
    = Ok (world_html, Some (Send.mkMime ("news" +:+ "@" +:+ "mg.example.com")
           (compile0 (Send.mkMailOptions (Some "me@example.com") ("news" +:+ "@" +:+ "mg.example.com")
                        "Hello" "" "<p>hi</p>")))).
Proof.
  split; [reflexivity|].
  exact (proj1 (proj2 (Send.send_posts compile0 env0 true world_html "news" "Hello" "body.html" ∅ eq_refl))
           "<p>hi</p>" "mg.example.com" eq_refl eq_refl).
Defined.

Definition db_saved : DB := {["x@y.com" := rec_t0]}.
Definition world_saved : world := mkWorld (mkFS (Some (Parsed (db_to_json db_saved))) None) html_files clk0.

Lemma send_crashes_after_save_witness :
  db_file (w_fs world_saved) = Some (Parsed (db_to_json db_saved)) /\ db_saved ≠ ∅ /\
  exists email, Send.send_run compile0 env0 true world_saved "news" "Hello" "body.html"
                  = Err (StartupCrash (LoadTypeError email)).
Proof.
  assert (H2 : db_saved ≠ ∅).
  { intros Hc. apply (f_equal (fun m : DB => m !! "x@y.com")) in Hc. vm_compute in Hc. discriminate. }
  split; [reflexivity|]. split; [exact H2|].
  exact (Send.send_crashes_after_save compile0 env0 true world_saved "news" "Hello" "body.html"
           db_saved eq_refl H2).
Defined.

(** ** Legacy runs *)

Definition leg_out : x_output :=
  match x_handle 0 (edb := script_db Part002) Part002 clk0 files0 (XInsert "a.txt" ["t"] None) ∅ with
  | XFinished o => o
  | _ => mkXOutput None None XRNothing
  end.
Definition leg_db : LDB := default ∅ (x_db leg_out).

Lemma legacy_save_then_crash_witness :
  db_load (EmailDB := script_db Part002) (db_file (w_fs world0)) = Ok ∅ /\
  x_handle 0 (edb := script_db Part002) Part002 clk0 files0 (XInsert "a.txt" ["t"] None) ∅ = XFinished leg_out /\
  x_db leg_out = Some leg_db /\ leg_db ≠ ∅ /\
  exists w', x_run 0 (edb := script_db Part002) Part002 Written world0 (XInsert "a.txt" ["t"] None) = Ok (w', x_rep leg_out) /\
    exists e, x_run 0 (edb := script_db Part000) Part000 Written w' XTags = Err (XStartupCrash (LoadTypeError e)).
Proof.
  assert (H1 : db_load (EmailDB := script_db Part002) (db_file (w_fs world0)) = Ok ∅) by reflexivity.
  assert (H2 : x_handle 0 (edb := script_db Part002) Part002 clk0 files0 (XInsert "a.txt" ["t"] None) ∅ = XFinished leg_out)
    by (vm_compute; reflexivity).
  assert (H3 : x_db leg_out = Some leg_db) by (vm_compute; reflexivity).
  assert (H4 : leg_db ≠ ∅).
  { intros Hc. apply (f_equal (fun m : LDB => m !! "x@y.com")) in Hc. vm_compute in Hc. discriminate. }
  do 4 (split; [assumption|]).
  exact (legacy_save_then_crash 0 Part002 world0 _ ∅ leg_out leg_db 0 Part000 Written XTags H1 H2 H3 H4).
Defined.

(** The directory a part_002 [insert] saves from an empty one has
    normalised keys. *)
Lemma legacy_saved_keys_normal_witness :
  lkeys_normal ∅ /\
  x_handle 0 (edb := script_db Part002) Part002 clk0 files0 (XInsert "a.txt" ["t"] None) ∅ = XFinished leg_out /\
  x_db leg_out = Some leg_db /\ lkeys_normal leg_db.
Proof.
  assert (H1 : lkeys_normal ∅) by (intros k r; by rewrite lookup_empty).
  assert (H2 : x_handle 0 (edb := script_db Part002) Part002 clk0 files0 (XInsert "a.txt" ["t"] None) ∅
               = XFinished leg_out) by (vm_compute; reflexivity).
  assert (H3 : x_db leg_out = Some leg_db) by (vm_compute; reflexivity).
  do 3 (split; [assumption|]).
  exact (legacy_saved_keys_normal (script_db Part002) 0 Part002 clk0 files0 _ ∅ leg_out leg_db H1 H2 H3).
Defined.

(** A part_002 [insert] into an empty directory, then a part_001
    [tags]: the upgrade crashes at start-up. *)
Lemma legacy_save_bricks_part001_witness :
  db_load (EmailDB := script_db Part002) (db_file (w_fs world0)) = Ok ∅ /\
  x_handle 0 (edb := script_db Part002) Part002 clk0 files0 (XInsert "a.txt" ["t"] None) ∅ = XFinished leg_out /\
  x_db leg_out = Some leg_db /\ leg_db ≠ ∅ /\
  exists w', x_run 0 (edb := script_db Part002) Part002 Written world0 (XInsert "a.txt" ["t"] None) = Ok (w', x_rep leg_out) /\
    exists e, run no_clock no_number iso0 0 Written w' CTags = Err (StartupCrash (LoadTypeError e)).
Proof.
  assert (H1 : db_load (EmailDB := script_db Part002) (db_file (w_fs world0)) = Ok ∅) by reflexivity.
  assert (H2 : x_handle 0 (edb := script_db Part002) Part002 clk0 files0 (XInsert "a.txt" ["t"] None) ∅
               = XFinished leg_out) by (vm_compute; reflexivity).
  assert (H3 : x_db leg_out = Some leg_db) by (vm_compute; reflexivity).
  assert (H4 : leg_db ≠ ∅).
  { intros Hc. apply (f_equal (fun m : LDB => m !! "x@y.com")) in Hc. vm_compute in Hc. discriminate. }
  do 4 (split; [assumption|]).
  exact (legacy_save_bricks_part001 0 Part002 world0 _ ∅ leg_out leg_db no_clock no_number iso0 0 Written CTags
           H1 H2 H3 H4).
Defined.

(** ** Several versions on one file *)

(** The world after a part_002 [insert] on a fresh installation. *)
Definition world_p2 : world :=
  Versions.x_after (x_run 0 (edb := script_db Part002) Part002 Written world0 (XInsert "a.txt" ["t"] None)) world0.

Lemma versions_never_read_tags_witness :
  Versions.vreachable no_clock no_number iso0 0 compile0 al0 world_p2 /\
  (forall db, load (db_file (w_fs world_p2)) = Ok db -> db = ∅) /\
  (forall ld, l_load (db_file (w_fs world_p2)) = Ok ld -> ld = ∅) /\
  (forall sc ld, db_load (EmailDB := script_db sc) (db_file (w_fs world_p2)) = Ok ld -> ld = ∅) /\
  (forall odb k r, o_load (db_file (w_fs world_p2)) = Some odb -> odb !! k = Some r -> stale r).
Proof.
  assert (H : Versions.vreachable no_clock no_number iso0 0 compile0 al0 world_p2).
  { eapply Versions.vreach_step; [exact (Versions.vreach_init _ _ _ _ _ _ files0 clk0)|].
    apply Versions.vstep_legacy. }
  split; [exact H|]. exact (Versions.versions_never_read_tags _ _ _ _ _ _ _ H).
Defined.

End Scenarios.
